(** * Blaze2D: batching and resource management, verified against the source

    A shallow embedding of [src/Blaze2d.js] (class [Blaze2D]): the sprite
    batcher, the render-state stack, the texture manager with its shelf-packed
    atlas and its eviction, and the vertex stage of the damage-number shader.

    Conventions of the embedding.
    - JavaScript numbers are modelled by exact rationals [Q]; rounding, NaN
      and infinities of IEEE arithmetic are outside the model.  Counts and
      array offsets are [nat], pixel coordinates of the atlas are [Z].
    - [Float32Array] arenas are lists updated by index; an out-of-range store
      is dropped, which is what a typed array does and what stdpp's list
      insert does.
    - Every method is a computation in a state-and-exception monad over the
      engine record: a JavaScript [throw] is a [Raise] that keeps the state
      reached so far.
    - The WebGL context is a command trace ([gl_log]) together with the blend
      function and a counter for fresh texture handles.
    - Transcendental functions and the parsing of colour strings are taken
      from a [MathLib] record. *)

From Stdlib Require Import ZArith QArith Qround Lia Lqa String Ascii.
From stdpp Require Import base option list gmap strings sorting.

Set Default Proof Using "Type".
Local Open Scope Q_scope.

(** ** Numbers *)

Definition Qltb (a b : Q) : bool := negb (Qle_bool b a).
Definition Qleb (a b : Q) : bool := Qle_bool a b.
Definition Qgtb (a b : Q) : bool := Qltb b a.
Definition Qgeb (a b : Q) : bool := Qle_bool b a.
Definition Qeqb (a b : Q) : bool := Qeq_bool a b.

Definition Qmin (a b : Q) : Q := if Qltb b a then b else a.

Definition Q_of_nat (n : nat) : Q := inject_Z (Z.of_nat n).

(** An RGBA colour as the four entries the code reads ([rgba[0..3]]). *)
Record RGBA := mkRGBA { rgba_r : Q; rgba_g : Q; rgba_b : Q; rgba_a : Q }.

Definition WHITE_RGBA : RGBA := mkRGBA 1 1 1 1.

Record MathLib := {
  Math_cos : Q -> Q;
  Math_sin : Q -> Q;
  Math_sqrt : Q -> Q;
  Math_exp : Q -> Q;
  (** [_parseColor] on a non-empty string (the parsing itself and its memo
      table [colorCache], which only caches this function). *)
  parseColorString : string -> RGBA
}.

(** ** WebGL objects and the command trace *)

Definition tex := nat.     (* a WebGLTexture handle *)
Definition imgid := nat.   (* identity of an image / canvas object *)
Definition ref := nat.     (* address of a style object *)

Inductive BlendFactor := GL_ONE | GL_ONE_MINUS_SRC_ALPHA | GL_DST_ALPHA.

Inductive Program := SpriteProgram | DamageNumberProgram.

Record DrawCall := {
  dc_program : Program;
  dc_texture : tex;              (* texture bound to unit 0 *)
  dc_vertices : list Q;          (* the range uploaded by bufferSubData *)
  dc_indexCount : nat;           (* count argument of drawElements *)
  dc_blend : BlendFactor * BlendFactor
}.

Inductive GLCommand :=
| GL_drawElements (dc : DrawCall)
| GL_clear
| GL_deleteTexture (t : tex)
| GL_texImage2D (t : tex) (img : imgid)
| GL_texSubImage2D (t : tex) (x y w h : Z) (img : imgid).

Record GL := {
  gl_log : list GLCommand;
  gl_blend : BlendFactor * BlendFactor;
  gl_nextTexture : tex
}.

(** ** Style values and the objects they may point to *)

Inductive jsval :=
| VUndef
| VNull
| VStr (s : string)
| VObj (r : ref).

Inductive styleObj :=
| OF32 (data : list Q)      (* a Float32Array *)
| OArr (data : list Q)      (* a plain Array of numbers *)
| OGrad (radial : bool).    (* a gradient handle, isGradient = true *)

Global Instance BlendFactor_eq_dec : EqDecision BlendFactor.
Proof. solve_decision. Defined.
Global Instance Program_eq_dec : EqDecision Program.
Proof. solve_decision. Defined.

(** Strict equality [===] on style values: strings by content, objects by
    identity. *)
Definition js_strict_eq (a b : jsval) : bool :=
  match a, b with
  | VUndef, VUndef => true
  | VNull, VNull => true
  | VStr s, VStr t => bool_decide (s = t)
  | VObj r, VObj q => bool_decide (r = q)
  | _, _ => false
  end.

(** ** Render state *)

Record Matrix := mkMatrix { m0 : Q; m1 : Q; m2 : Q; m3 : Q; m4 : Q; m5 : Q }.

(** One entry of [stateStack].  [matrix] and [strokeStyleRGBA] are arrays
    that the code allocates per state object and never assigns by reference,
    so they are held by value; [fillStyleRGBA] can be the caller's object
    ([s.fillStyleRGBA = v]) and is an address into the style heap.
    [lineCap] and [lineJoin] are the optional properties the setters add. *)
Record RenderState := {
  matrix : Matrix;
  alpha : Q;
  flash : Z;
  fillStyle : jsval;
  fillStyleRGBA : ref;
  strokeStyle : jsval;
  strokeStyleRGBA : list Q;
  lineWidth : Q;
  font : string;
  textAlign : string;
  textBaseline : string;
  globalCompositeOperation : string;
  shadowBlur : Q;
  shadowColor : string;
  lineCap : option string;
  lineJoin : option string
}.

Definition createDefaultMatrix : Matrix := mkMatrix 1 0 0 1 0 0.

(** ** Images and resolved textures *)

Record UV := mkUV { u0 : Q; v0 : Q; u1 : Q; v1 : Q }.

Record TexInfo := {
  ti_texture : tex;
  ti_uv : option UV;
  ti_width : Z;
  ti_height : Z
}.

(** An image or canvas object as the engine sees it: its size, the expando
    properties the engine reads and writes on it, and whether the driver
    rejects an upload of it by throwing ([img_uploadThrows], a property of
    the environment). *)
Record Image := {
  img_width : Z;
  img_height : Z;
  img_needsUpdate : bool;
  img_glTextureInfo : option TexInfo;
  img_isGLTexture : bool;
  img_disableAutoAtlas : bool;
  img_uploadThrows : bool
}.

(** What [getTexture] returns: a bare texture (the white fallback), an info
    object, or the argument itself when it is flagged as a texture. *)
Inductive TexResult :=
| RTexture (t : tex)
| RInfo (i : TexInfo)
| RImage (id : imgid).

(** ** JavaScript [Map], in insertion order *)

Module JSMap.
Section Ops.
Context {V : Type}.

Fixpoint get (k : nat) (m : list (nat * V)) : option V :=
  match m with
  | [] => None
  | (k', v) :: m' => if Nat.eqb k k' then Some v else get k m'
  end.

(** [set] keeps the position of a key that is already present and appends
    a new key at the end. *)
Fixpoint set (k : nat) (v : V) (m : list (nat * V)) : list (nat * V) :=
  match m with
  | [] => [(k, v)]
  | (k', v') :: m' =>
      if Nat.eqb k k' then (k, v) :: m' else (k', v') :: set k v m'
  end.

Fixpoint delete (k : nat) (m : list (nat * V)) : list (nat * V) :=
  match m with
  | [] => []
  | (k', v') :: m' =>
      if Nat.eqb k k' then m' else (k', v') :: delete k m'
  end.

Definition size (m : list (nat * V)) : nat := length m.
End Ops.
End JSMap.

(** ** The engine *)

Record Batch := {
  maxBatchSize : nat;
  vertexData : list Q;
  batchCount : nat;
  currentTexture : option tex;
  drawCallCount : nat;
  triangleCount : nat
}.

(** [stateStack] and [statePool] are JavaScript arrays used only through
    [push], [pop] and "last element"; the lists hold them from the end of
    the array, so the head is the top of the stack and the last element of
    [stateStack] is the root state [stateStack[0]]. *)
Record States := {
  stateStack : list RenderState;
  statePool : list RenderState;
  styleHeap : list styleObj
}.

Record Textures := {
  images : gmap imgid Image;
  textureCache : list (imgid * tex);
  textureUsage : list (imgid * Z);
  atlasCache : list (imgid * UV);
  maxTextureCacheSize : nat;
  whiteTexture : tex;
  atlasTexture : tex;
  atlasSize : Z;
  atlasX : Z;
  atlasY : Z;
  atlasRowHeight : Z;
  atlasPadding : Z
}.

Record Glyph := {
  g_texture : tex;
  g_padding : Q;
  g_width : Q;
  g_renderWidth : Q;
  g_renderHeight : Q;
  g_u0 : Q; g_v0 : Q; g_u1 : Q; g_v1 : Q
}.

Record DamageNumbers := {
  dnMaxBatchSize : nat;
  dnVertexData : list Q;
  dnBatchCount : nat;
  dnCurrentTexture : option tex;
  bitmapFont : list (ascii * Glyph);
  currentTime : Q;
  cameraX : Q;
  cameraY : Q
}.

Record View := { width : Q; height : Q; dpr : Q }.

Record Blaze2D := {
  gl : GL;
  batch : Batch;
  states : States;
  textures : Textures;
  dn : DamageNumbers;
  view : View;
  (** the wall clock read by [Date.now()] *)
  now : Z
}.

(** Constants set by the constructor. *)
Definition verticesPerSprite : nat := 4.
Definition indicesPerSprite : nat := 6.
Definition vertexStride : nat := 9.
Definition vertexCountPerSprite : nat := (verticesPerSprite * vertexStride)%nat.
Definition dnVertexStride : nat := 17.

(** ** The monad of engine methods *)

Inductive Exn := TypeError | RangeError | UploadError.

Inductive Res (A : Type) :=
| Ret (a : A)
| Raise (e : Exn).
Arguments Ret {A} a.
Arguments Raise {A} e.

Definition M (A : Type) : Type := Blaze2D -> Res A * Blaze2D.

Definition ret {A} (a : A) : M A := fun e => (Ret a, e).
Definition raise {A} (x : Exn) : M A := fun e => (Raise x, e).
Definition bind {A B} (m : M A) (k : A -> M B) : M B :=
  fun e => match m e with
           | (Ret a, e') => k a e'
           | (Raise x, e') => (Raise x, e')
           end.
Definition gets {A} (f : Blaze2D -> A) : M A := fun e => (Ret (f e), e).
Definition modify (f : Blaze2D -> Blaze2D) : M unit := fun e => (Ret tt, f e).
(** [try { m } catch (e) { h }] *)
Definition try_catch {A} (m : M A) (h : M A) : M A :=
  fun e => match m e with
           | (Ret a, e') => (Ret a, e')
           | (Raise _, e') => h e'
           end.
Definition when (b : bool) (m : M unit) : M unit := if b then m else ret tt.

Notation "x <- c1 ;; c2" := (bind c1 (fun x => c2))
  (at level 100, c1 at next level, right associativity).
Notation "c1 ;;; c2" := (bind c1 (fun _ => c2))
  (at level 100, right associativity).

(** The state a method leaves behind, whether it returned or threw. *)
Definition exec {A} (m : M A) (e : Blaze2D) : Blaze2D := snd (m e).
Definition result {A} (m : M A) (e : Blaze2D) : Res A := fst (m e).

(** Field updates. *)
Definition with_gl (f : GL -> GL) (e : Blaze2D) : Blaze2D :=
  {| gl := f (gl e); batch := batch e; states := states e;
     textures := textures e; dn := dn e; view := view e; now := now e |}.
Definition with_batch (f : Batch -> Batch) (e : Blaze2D) : Blaze2D :=
  {| gl := gl e; batch := f (batch e); states := states e;
     textures := textures e; dn := dn e; view := view e; now := now e |}.
Definition with_states (f : States -> States) (e : Blaze2D) : Blaze2D :=
  {| gl := gl e; batch := batch e; states := f (states e);
     textures := textures e; dn := dn e; view := view e; now := now e |}.
Definition with_textures (f : Textures -> Textures) (e : Blaze2D) : Blaze2D :=
  {| gl := gl e; batch := batch e; states := states e;
     textures := f (textures e); dn := dn e; view := view e; now := now e |}.
Definition with_dn (f : DamageNumbers -> DamageNumbers) (e : Blaze2D) : Blaze2D :=
  {| gl := gl e; batch := batch e; states := states e;
     textures := textures e; dn := f (dn e); view := view e; now := now e |}.

Definition gl_emit (c : GLCommand) : M unit :=
  modify (with_gl (fun g =>
    {| gl_log := gl_log g ++ [c]; gl_blend := gl_blend g;
       gl_nextTexture := gl_nextTexture g |})).

Definition gl_blendFunc (s d : BlendFactor) : M unit :=
  modify (with_gl (fun g =>
    {| gl_log := gl_log g; gl_blend := (s, d);
       gl_nextTexture := gl_nextTexture g |})).

Definition gl_createTexture : M tex :=
  fun e => (Ret (gl_nextTexture (gl e)),
            with_gl (fun g =>
              {| gl_log := gl_log g; gl_blend := gl_blend g;
                 gl_nextTexture := S (gl_nextTexture g) |}) e).

(** ** Sprite batcher: buffers, [addVertex], [flush] *)

(** The index buffer filled by [initBuffers]: a zeroed [Uint16Array] of
    [maxBatchSize * 6] entries, then six stores per quad.  A [Uint16Array]
    store keeps the value modulo 65536. *)
Definition uint16 (n : nat) : nat := Z.to_nat (Z.of_nat n mod 65536).

Definition initIndices_step (indices : list nat) (i : nat) : list nat :=
  let v := (i * 4)%nat in
  let idx := (i * 6)%nat in
  <[(idx + 5)%nat := uint16 (v + 3)]>
  (<[(idx + 4)%nat := uint16 (v + 2)]>
  (<[(idx + 3)%nat := uint16 v]>
  (<[(idx + 2)%nat := uint16 (v + 2)]>
  (<[(idx + 1)%nat := uint16 (v + 1)]>
  (<[idx := uint16 v]> indices))))).

Definition initIndices (maxBatch : nat) : list nat :=
  foldl initIndices_step (replicate (maxBatch * indicesPerSprite) 0%nat)
        (seq 0 maxBatch).

Definition set_vertexData (d : list Q) (b : Batch) : Batch :=
  {| maxBatchSize := maxBatchSize b; vertexData := d;
     batchCount := batchCount b; currentTexture := currentTexture b;
     drawCallCount := drawCallCount b; triangleCount := triangleCount b |}.
Definition set_batchCount (n : nat) (b : Batch) : Batch :=
  {| maxBatchSize := maxBatchSize b; vertexData := vertexData b;
     batchCount := n; currentTexture := currentTexture b;
     drawCallCount := drawCallCount b; triangleCount := triangleCount b |}.
Definition set_currentTexture (t : option tex) (b : Batch) : Batch :=
  {| maxBatchSize := maxBatchSize b; vertexData := vertexData b;
     batchCount := batchCount b; currentTexture := t;
     drawCallCount := drawCallCount b; triangleCount := triangleCount b |}.
Definition count_draw (b : Batch) : Batch :=
  {| maxBatchSize := maxBatchSize b; vertexData := vertexData b;
     batchCount := batchCount b; currentTexture := currentTexture b;
     drawCallCount := S (drawCallCount b);
     triangleCount := (triangleCount b + batchCount b * 2)%nat |}.

(** [addVertex(offset, x, y, u, v, a, rgba)] on the arena. *)
Definition addVertex_data (d : list Q) (offset : nat) (x y u v a : Q)
    (rgba : RGBA) : list Q :=
  let r := rgba_r rgba in
  let g := rgba_g rgba in
  let b := rgba_b rgba in
  let r3 := rgba_a rgba in
  let isFlash := Qgtb r3 5 in
  let cA := if isFlash then 1 else (if Qgtb r3 1 then 1 else r3) in
  let ca := a * cA in
  <[(offset + 8)%nat := if isFlash then 2 else (if Qgtb ca 1 then 1 else ca)]>
  (<[(offset + 7)%nat := b]>
  (<[(offset + 6)%nat := g]>
  (<[(offset + 5)%nat := r]>
  (<[(offset + 4)%nat := ca]>
  (<[(offset + 3)%nat := v]>
  (<[(offset + 2)%nat := u]>
  (<[(offset + 1)%nat := y]>
  (<[offset := x]> d)))))))).

Definition addVertex (offset : nat) (x y u v a : Q) (rgba : RGBA) : M unit :=
  modify (with_batch (fun b =>
    set_vertexData (addVertex_data (vertexData b) offset x y u v a rgba) b)).

(** [flush()].  [currentTexture] only ever holds a texture handle or null,
    so the [instanceof] test of the source keeps it. *)
Definition flush : M unit := fun e =>
  let b := batch e in
  if Nat.eqb (batchCount b) 0 then (Ret tt, e)
  else
    let t := default (whiteTexture (textures e)) (currentTexture b) in
    let dc := {| dc_program := SpriteProgram;
                 dc_texture := t;
                 dc_vertices :=
                   take (batchCount b * vertexCountPerSprite) (vertexData b);
                 dc_indexCount := (batchCount b * indicesPerSprite)%nat;
                 dc_blend := gl_blend (gl e) |} in
    (gl_emit (GL_drawElements dc) ;;;
     modify (with_batch count_draw) ;;;
     modify (with_batch (set_batchCount 0)) ;;;
     modify (with_batch (set_currentTexture None))) e.

(** ** Render-state stack *)

(** [new Float32Array(...)] and friends: allocation in the style heap. *)
Definition alloc_style (o : styleObj) : M ref := fun e =>
  (Ret (length (styleHeap (states e))),
   with_states (fun s =>
     {| stateStack := stateStack s; statePool := statePool s;
        styleHeap := styleHeap s ++ [o] |}) e).

Definition read_style (r : ref) : M styleObj := fun e =>
  match styleHeap (states e) !! r with
  | Some o => (Ret o, e)
  | None => (Raise TypeError, e)
  end.

Definition write_style (r : ref) (o : styleObj) : M unit :=
  modify (with_states (fun s =>
    {| stateStack := stateStack s; statePool := statePool s;
       styleHeap := <[r := o]> (styleHeap s) |})).

Definition set_stateStack (l : list RenderState) : M unit :=
  modify (with_states (fun s =>
    {| stateStack := l; statePool := statePool s; styleHeap := styleHeap s |})).
Definition set_statePool (l : list RenderState) : M unit :=
  modify (with_states (fun s =>
    {| stateStack := stateStack s; statePool := l; styleHeap := styleHeap s |})).

(** [_createDefaultState()]: two fresh typed arrays, of which the fill one
    lives in the style heap. *)
Definition createDefaultState : M RenderState :=
  r <- alloc_style (OF32 [1; 1; 1; 1]) ;;
  ret {| matrix := createDefaultMatrix; alpha := 1; flash := 0%Z;
         fillStyle := VStr "#ffffff"; fillStyleRGBA := r;
         strokeStyle := VStr "#000000"; strokeStyleRGBA := [0; 0; 0; 1];
         lineWidth := 1; font := "20px Arial";
         textAlign := "left"; textBaseline := "alphabetic";
         globalCompositeOperation := "source-over";
         shadowBlur := 0; shadowColor := "transparent";
         lineCap := None; lineJoin := None |}.

(** [get _state()]: the last element of [stateStack]. *)
Definition get_state : M RenderState := fun e =>
  match stateStack (states e) with
  | s :: _ => (Ret s, e)
  | [] => (Raise TypeError, e)
  end.

(** Assignment to a property of the top state object. *)
Definition update_state (f : RenderState -> RenderState) : M unit := fun e =>
  match stateStack (states e) with
  | s :: rest => set_stateStack (f s :: rest) e
  | [] => (Raise TypeError, e)
  end.

(** Assignments to one property of a state object. *)
Definition set_matrix (v : Matrix) (s : RenderState) : RenderState :=
  {| matrix := v; alpha := alpha s; flash := flash s; fillStyle := fillStyle
     s; fillStyleRGBA := fillStyleRGBA s; strokeStyle := strokeStyle s;
     strokeStyleRGBA := strokeStyleRGBA s; lineWidth := lineWidth s; font :=
     font s; textAlign := textAlign s; textBaseline := textBaseline s;
     globalCompositeOperation := globalCompositeOperation s; shadowBlur :=
     shadowBlur s; shadowColor := shadowColor s; lineCap := lineCap s;
     lineJoin := lineJoin s |}.
Definition set_alpha (v : Q) (s : RenderState) : RenderState :=
  {| matrix := matrix s; alpha := v; flash := flash s; fillStyle :=
     fillStyle s; fillStyleRGBA := fillStyleRGBA s; strokeStyle :=
     strokeStyle s; strokeStyleRGBA := strokeStyleRGBA s; lineWidth :=
     lineWidth s; font := font s; textAlign := textAlign s; textBaseline :=
     textBaseline s; globalCompositeOperation := globalCompositeOperation s;
     shadowBlur := shadowBlur s; shadowColor := shadowColor s; lineCap :=
     lineCap s; lineJoin := lineJoin s |}.
Definition set_flash (v : Z) (s : RenderState) : RenderState :=
  {| matrix := matrix s; alpha := alpha s; flash := v; fillStyle :=
     fillStyle s; fillStyleRGBA := fillStyleRGBA s; strokeStyle :=
     strokeStyle s; strokeStyleRGBA := strokeStyleRGBA s; lineWidth :=
     lineWidth s; font := font s; textAlign := textAlign s; textBaseline :=
     textBaseline s; globalCompositeOperation := globalCompositeOperation s;
     shadowBlur := shadowBlur s; shadowColor := shadowColor s; lineCap :=
     lineCap s; lineJoin := lineJoin s |}.
Definition set_fillStyle (v : jsval) (s : RenderState) : RenderState :=
  {| matrix := matrix s; alpha := alpha s; flash := flash s; fillStyle := v;
     fillStyleRGBA := fillStyleRGBA s; strokeStyle := strokeStyle s;
     strokeStyleRGBA := strokeStyleRGBA s; lineWidth := lineWidth s; font :=
     font s; textAlign := textAlign s; textBaseline := textBaseline s;
     globalCompositeOperation := globalCompositeOperation s; shadowBlur :=
     shadowBlur s; shadowColor := shadowColor s; lineCap := lineCap s;
     lineJoin := lineJoin s |}.
Definition set_fillStyleRGBA (v : ref) (s : RenderState) : RenderState :=
  {| matrix := matrix s; alpha := alpha s; flash := flash s; fillStyle :=
     fillStyle s; fillStyleRGBA := v; strokeStyle := strokeStyle s;
     strokeStyleRGBA := strokeStyleRGBA s; lineWidth := lineWidth s; font :=
     font s; textAlign := textAlign s; textBaseline := textBaseline s;
     globalCompositeOperation := globalCompositeOperation s; shadowBlur :=
     shadowBlur s; shadowColor := shadowColor s; lineCap := lineCap s;
     lineJoin := lineJoin s |}.
Definition set_strokeStyle (v : jsval) (s : RenderState) : RenderState :=
  {| matrix := matrix s; alpha := alpha s; flash := flash s; fillStyle :=
     fillStyle s; fillStyleRGBA := fillStyleRGBA s; strokeStyle := v;
     strokeStyleRGBA := strokeStyleRGBA s; lineWidth := lineWidth s; font :=
     font s; textAlign := textAlign s; textBaseline := textBaseline s;
     globalCompositeOperation := globalCompositeOperation s; shadowBlur :=
     shadowBlur s; shadowColor := shadowColor s; lineCap := lineCap s;
     lineJoin := lineJoin s |}.
Definition set_strokeStyleRGBA (v : list Q) (s : RenderState) : RenderState :=
  {| matrix := matrix s; alpha := alpha s; flash := flash s; fillStyle :=
     fillStyle s; fillStyleRGBA := fillStyleRGBA s; strokeStyle :=
     strokeStyle s; strokeStyleRGBA := v; lineWidth := lineWidth s; font :=
     font s; textAlign := textAlign s; textBaseline := textBaseline s;
     globalCompositeOperation := globalCompositeOperation s; shadowBlur :=
     shadowBlur s; shadowColor := shadowColor s; lineCap := lineCap s;
     lineJoin := lineJoin s |}.
Definition set_lineWidth (v : Q) (s : RenderState) : RenderState :=
  {| matrix := matrix s; alpha := alpha s; flash := flash s; fillStyle :=
     fillStyle s; fillStyleRGBA := fillStyleRGBA s; strokeStyle :=
     strokeStyle s; strokeStyleRGBA := strokeStyleRGBA s; lineWidth := v;
     font := font s; textAlign := textAlign s; textBaseline := textBaseline
     s; globalCompositeOperation := globalCompositeOperation s; shadowBlur
     := shadowBlur s; shadowColor := shadowColor s; lineCap := lineCap s;
     lineJoin := lineJoin s |}.
Definition set_font (v : string) (s : RenderState) : RenderState :=
  {| matrix := matrix s; alpha := alpha s; flash := flash s; fillStyle :=
     fillStyle s; fillStyleRGBA := fillStyleRGBA s; strokeStyle :=
     strokeStyle s; strokeStyleRGBA := strokeStyleRGBA s; lineWidth :=
     lineWidth s; font := v; textAlign := textAlign s; textBaseline :=
     textBaseline s; globalCompositeOperation := globalCompositeOperation s;
     shadowBlur := shadowBlur s; shadowColor := shadowColor s; lineCap :=
     lineCap s; lineJoin := lineJoin s |}.
Definition set_textAlign (v : string) (s : RenderState) : RenderState :=
  {| matrix := matrix s; alpha := alpha s; flash := flash s; fillStyle :=
     fillStyle s; fillStyleRGBA := fillStyleRGBA s; strokeStyle :=
     strokeStyle s; strokeStyleRGBA := strokeStyleRGBA s; lineWidth :=
     lineWidth s; font := font s; textAlign := v; textBaseline :=
     textBaseline s; globalCompositeOperation := globalCompositeOperation s;
     shadowBlur := shadowBlur s; shadowColor := shadowColor s; lineCap :=
     lineCap s; lineJoin := lineJoin s |}.
Definition set_textBaseline (v : string) (s : RenderState) : RenderState :=
  {| matrix := matrix s; alpha := alpha s; flash := flash s; fillStyle :=
     fillStyle s; fillStyleRGBA := fillStyleRGBA s; strokeStyle :=
     strokeStyle s; strokeStyleRGBA := strokeStyleRGBA s; lineWidth :=
     lineWidth s; font := font s; textAlign := textAlign s; textBaseline :=
     v; globalCompositeOperation := globalCompositeOperation s; shadowBlur
     := shadowBlur s; shadowColor := shadowColor s; lineCap := lineCap s;
     lineJoin := lineJoin s |}.
Definition set_globalCompositeOperation (v : string) (s : RenderState) : RenderState :=
  {| matrix := matrix s; alpha := alpha s; flash := flash s; fillStyle :=
     fillStyle s; fillStyleRGBA := fillStyleRGBA s; strokeStyle :=
     strokeStyle s; strokeStyleRGBA := strokeStyleRGBA s; lineWidth :=
     lineWidth s; font := font s; textAlign := textAlign s; textBaseline :=
     textBaseline s; globalCompositeOperation := v; shadowBlur := shadowBlur
     s; shadowColor := shadowColor s; lineCap := lineCap s; lineJoin :=
     lineJoin s |}.
Definition set_shadowBlur (v : Q) (s : RenderState) : RenderState :=
  {| matrix := matrix s; alpha := alpha s; flash := flash s; fillStyle :=
     fillStyle s; fillStyleRGBA := fillStyleRGBA s; strokeStyle :=
     strokeStyle s; strokeStyleRGBA := strokeStyleRGBA s; lineWidth :=
     lineWidth s; font := font s; textAlign := textAlign s; textBaseline :=
     textBaseline s; globalCompositeOperation := globalCompositeOperation s;
     shadowBlur := v; shadowColor := shadowColor s; lineCap := lineCap s;
     lineJoin := lineJoin s |}.
Definition set_shadowColor (v : string) (s : RenderState) : RenderState :=
  {| matrix := matrix s; alpha := alpha s; flash := flash s; fillStyle :=
     fillStyle s; fillStyleRGBA := fillStyleRGBA s; strokeStyle :=
     strokeStyle s; strokeStyleRGBA := strokeStyleRGBA s; lineWidth :=
     lineWidth s; font := font s; textAlign := textAlign s; textBaseline :=
     textBaseline s; globalCompositeOperation := globalCompositeOperation s;
     shadowBlur := shadowBlur s; shadowColor := v; lineCap := lineCap s;
     lineJoin := lineJoin s |}.
Definition set_lineCap (v : option string) (s : RenderState) : RenderState :=
  {| matrix := matrix s; alpha := alpha s; flash := flash s; fillStyle :=
     fillStyle s; fillStyleRGBA := fillStyleRGBA s; strokeStyle :=
     strokeStyle s; strokeStyleRGBA := strokeStyleRGBA s; lineWidth :=
     lineWidth s; font := font s; textAlign := textAlign s; textBaseline :=
     textBaseline s; globalCompositeOperation := globalCompositeOperation s;
     shadowBlur := shadowBlur s; shadowColor := shadowColor s; lineCap := v;
     lineJoin := lineJoin s |}.
Definition set_lineJoin (v : option string) (s : RenderState) : RenderState :=
  {| matrix := matrix s; alpha := alpha s; flash := flash s; fillStyle :=
     fillStyle s; fillStyleRGBA := fillStyleRGBA s; strokeStyle :=
     strokeStyle s; strokeStyleRGBA := strokeStyleRGBA s; lineWidth :=
     lineWidth s; font := font s; textAlign := textAlign s; textBaseline :=
     textBaseline s; globalCompositeOperation := globalCompositeOperation s;
     shadowBlur := shadowBlur s; shadowColor := shadowColor s; lineCap :=
     lineCap s; lineJoin := v |}.

(** [target.set(src)] on a [Float32Array]: a source longer than the target
    is a RangeError, otherwise the prefix is overwritten. *)
Definition f32_set (target src : list Q) : option (list Q) :=
  if (length target <? length src)%nat then None
  else Some (src ++ drop (length src) target).

(** [obj.set(src)] through a reference: only typed arrays have [set]. *)
Definition style_set (r : ref) (src : list Q) : M unit :=
  o <- read_style r ;;
  match o with
  | OF32 d =>
      match f32_set d src with
      | Some d' => write_style r (OF32 d')
      | None => raise RangeError
      end
  | OArr _ | OGrad _ => raise TypeError
  end.

Definition isGradient (o : styleObj) : bool :=
  match o with OGrad _ => true | _ => false end.

(** [obj.length !== 4] *)
Definition length_not_4 (o : styleObj) : bool :=
  match o with
  | OF32 d | OArr d => negb (length d =? 4)%nat
  | OGrad _ => true
  end.

(** [!!obj.set] *)
Definition has_set (o : styleObj) : bool :=
  match o with OF32 _ => true | _ => false end.

(** The array-like content of a style object used as the source of [set]. *)
Definition array_like (o : styleObj) : list Q :=
  match o with OF32 d | OArr d => d | OGrad _ => [] end.

(** A method body that assigns to an object [to] step by step: when a step
    throws, the assignments of the earlier steps stay.  The result carries
    the exception, if any, and the object as it then is. *)
Fixpoint run_steps (steps : list (RenderState -> M RenderState))
    (to : RenderState) : M (option Exn * RenderState) :=
  match steps with
  | [] => ret (None, to)
  | st :: rest =>
      fun e => match st to e with
               | (Ret to', e') => run_steps rest to' e'
               | (Raise x, e') => (Ret (Some x, to), e')
               end
  end.

(** [_copyState(from, to)] *)
Definition copyState (from to : RenderState) : M (option Exn * RenderState) :=
  run_steps
    [ (fun to => ret (set_fillStyle (fillStyle from)
                     (set_flash (flash from)
                     (set_alpha (alpha from)
                     (set_matrix (matrix from) to)))));
      (fun to =>
         fo <- read_style (fillStyleRGBA from) ;;
         if isGradient fo then ret (set_fillStyleRGBA (fillStyleRGBA from) to)
         else
           o <- read_style (fillStyleRGBA to) ;;
           if isGradient o || length_not_4 o then
             r <- alloc_style (OF32 [0; 0; 0; 0]) ;;
             ret (set_fillStyleRGBA r to)
           else ret to);
      (fun to =>
         fo <- read_style (fillStyleRGBA from) ;;
         if isGradient fo then ret to
         else style_set (fillStyleRGBA to) (array_like fo) ;;; ret to);
      (fun to => ret (set_strokeStyle (strokeStyle from) to));
      (fun to =>
         if negb (length (strokeStyleRGBA to) =? 4)%nat
         then ret (set_strokeStyleRGBA [0; 0; 0; 0] to) else ret to);
      (fun to =>
         match f32_set (strokeStyleRGBA to) (strokeStyleRGBA from) with
         | Some d => ret (set_strokeStyleRGBA d to)
         | None => raise RangeError
         end);
      (fun to => ret (set_shadowColor (shadowColor from)
                     (set_shadowBlur (shadowBlur from)
                     (set_globalCompositeOperation
                        (globalCompositeOperation from)
                     (set_textBaseline (textBaseline from)
                     (set_textAlign (textAlign from)
                     (set_font (font from)
                     (set_lineWidth (lineWidth from) to))))))))
    ] to.

(** [save()] *)
Definition save : M unit :=
  current <- get_state ;;
  pool <- gets (fun e => statePool (states e)) ;;
  next <- match pool with
          | p :: pool' => set_statePool pool' ;;; ret p
          | [] => createDefaultState
          end ;;
  r <- copyState current next ;;
  match r with
  | (Some x, _) => raise x
  | (None, next') =>
      stack <- gets (fun e => stateStack (states e)) ;;
      set_stateStack (next' :: stack)
  end.

(** [get globalCompositeOperation()] *)
Definition get_globalCompositeOperation : M string :=
  s <- get_state ;;
  ret (if bool_decide (globalCompositeOperation s = "")
       then "source-over" else globalCompositeOperation s).

(** [_updateBlendMode()] *)
Definition updateBlendMode : M unit :=
  mode <- get_globalCompositeOperation ;;
  if bool_decide (mode = "source-atop")
  then gl_blendFunc GL_DST_ALPHA GL_ONE_MINUS_SRC_ALPHA
  else if bool_decide (mode = "lighter") || bool_decide (mode = "screen")
          || bool_decide (mode = "additive")
  then gl_blendFunc GL_ONE GL_ONE
  else gl_blendFunc GL_ONE GL_ONE_MINUS_SRC_ALPHA.

(** [restore()] *)
Definition restore : M unit :=
  stack <- gets (fun e => stateStack (states e)) ;;
  if (length stack <=? 1)%nat then ret tt
  else
    oldMode <- get_globalCompositeOperation ;;
    match stack with
    | discarded :: rest =>
        set_stateStack rest ;;;
        pool <- gets (fun e => statePool (states e)) ;;
        set_statePool (discarded :: pool) ;;;
        newMode <- get_globalCompositeOperation ;;
        if bool_decide (oldMode = newMode) then ret tt
        else flush ;;; updateBlendMode
    | [] => ret tt
    end.

Definition rgba_list (c : RGBA) : list Q :=
  [rgba_r c; rgba_g c; rgba_b c; rgba_a c].

(** [w >= a / d - t] as JavaScript evaluates it for finite operands: a zero
    divisor makes the quotient +Infinity, -Infinity or NaN. *)
Definition ge_quot_minus (w a d t : Q) : bool :=
  if Qeqb d 0 then Qltb a 0 else Qgeb w (a / d - t).

Section Methods.
Context (math : MathLib).

(** [_parseColor(color)], as the array-like value it returns. *)
Definition parseColor (color : jsval) : M (list Q) :=
  match color with
  | VUndef | VNull => ret (rgba_list WHITE_RGBA)
  | VStr s =>
      if bool_decide (s = "") then ret (rgba_list WHITE_RGBA)
      else ret (rgba_list (parseColorString math s))
  | VObj r =>
      o <- read_style r ;;
      match o with
      | OF32 d | OArr d => ret d
      | OGrad _ => ret (rgba_list WHITE_RGBA)
      end
  end.

(** [set fillStyle(v)] *)
Definition set_fillStyle_prop (v : jsval) : M unit :=
  s <- get_state ;;
  if js_strict_eq (fillStyle s) v then ret tt
  else
    update_state (set_fillStyle v) ;;;
    match v with
    | VObj r => update_state (set_fillStyleRGBA r)
    | _ =>
        rgba <- parseColor v ;;
        o <- read_style (fillStyleRGBA s) ;;
        r <- (if isGradient o || negb (has_set o)
              then r <- alloc_style (OF32 [0; 0; 0; 0]) ;;
                   update_state (set_fillStyleRGBA r) ;;; ret r
              else ret (fillStyleRGBA s)) ;;
        style_set r rgba
    end.

(** [set strokeStyle(v)] *)
Definition set_strokeStyle_prop (v : jsval) : M unit :=
  s <- get_state ;;
  if js_strict_eq (strokeStyle s) v then ret tt
  else
    update_state (set_strokeStyle v) ;;;
    rgba <- parseColor v ;;
    match f32_set (strokeStyleRGBA s) rgba with
    | Some d => update_state (set_strokeStyleRGBA d)
    | None => raise RangeError
    end.

Definition set_globalAlpha_prop (v : Q) : M unit := update_state (set_alpha v).
(** [set flash(v)]: [v ? 1 : 0] *)
Definition set_flash_prop (v : bool) : M unit :=
  update_state (set_flash (if v then 1%Z else 0%Z)).
Definition set_lineWidth_prop (v : Q) : M unit := update_state (set_lineWidth v).
Definition set_shadowBlur_prop (v : Q) : M unit := update_state (set_shadowBlur v).
Definition set_shadowColor_prop (v : string) : M unit :=
  update_state (set_shadowColor v).
Definition set_font_prop (v : string) : M unit := update_state (set_font v).
Definition set_textAlign_prop (v : string) : M unit :=
  update_state (set_textAlign v).
Definition set_textBaseline_prop (v : string) : M unit :=
  update_state (set_textBaseline v).
Definition set_lineCap_prop (v : string) : M unit :=
  update_state (set_lineCap (Some v)).
Definition set_lineJoin_prop (v : string) : M unit :=
  update_state (set_lineJoin (Some v)).

(** [set globalCompositeOperation(v)] *)
Definition set_globalCompositeOperation_prop (v : string) : M unit :=
  s <- get_state ;;
  if bool_decide (globalCompositeOperation s = v) then ret tt
  else flush ;;;
       update_state (set_globalCompositeOperation v) ;;;
       updateBlendMode.

(** Transform operations on the top matrix. *)
Definition translate (x y : Q) : M unit :=
  update_state (fun s =>
    let m := matrix s in
    set_matrix (mkMatrix (m0 m) (m1 m) (m2 m) (m3 m)
                  (m4 m + (m0 m * x + m2 m * y))
                  (m5 m + (m1 m * x + m3 m * y))) s).

Definition scale (sx sy : Q) : M unit :=
  update_state (fun s =>
    let m := matrix s in
    set_matrix (mkMatrix (m0 m * sx) (m1 m * sx) (m2 m * sy) (m3 m * sy)
                  (m4 m) (m5 m)) s).

Definition rotate (angle : Q) : M unit :=
  update_state (fun st =>
    let m := matrix st in
    let c := Math_cos math angle in
    let s := Math_sin math angle in
    set_matrix (mkMatrix (m0 m * c + m2 m * s) (m1 m * c + m3 m * s)
                  (m0 m * - s + m2 m * c) (m1 m * - s + m3 m * c)
                  (m4 m) (m5 m)) st).

Definition setTransform (a b c d e f : Q) : M unit :=
  update_state (set_matrix (mkMatrix a b c d e f)).

(** The loop of [resetState]: pop into the pool while more than the root
    is left. *)
Fixpoint drain (stack pool : list RenderState)
    : list RenderState * list RenderState :=
  match stack with
  | s :: ((_ :: _) as rest) => drain rest (s :: pool)
  | _ => (stack, pool)
  end.

(** [resetState()] *)
Definition resetState : M unit :=
  modify (with_batch (set_batchCount 0)) ;;;
  modify (with_batch (set_currentTexture None)) ;;;
  stack <- gets (fun e => stateStack (states e)) ;;
  pool <- gets (fun e => statePool (states e)) ;;
  set_stateStack (fst (drain stack pool)) ;;;
  set_statePool (snd (drain stack pool)) ;;;
  root <- get_state ;;
  d <- createDefaultState ;;
  r <- copyState d root ;;
  update_state (fun _ => snd r) ;;;
  match fst r with
  | Some x => raise x
  | None =>
      dpr1 <- gets (fun e => if Qeqb (dpr (view e)) 0 then 1 else dpr (view e)) ;;
      update_state (fun s =>
        let m := matrix s in
        set_matrix (mkMatrix dpr1 (m1 m) (m2 m) dpr1 (m4 m) (m5 m)) s) ;;;
      set_globalCompositeOperation_prop "source-over" ;;;
      updateBlendMode
  end.

(** [clear()] *)
Definition clear : M unit :=
  flush ;;; gl_emit GL_clear ;;; resetState.

(** [clearRect(x, y, w, h)] *)
Definition clearRect (x y w h : Q) : M unit :=
  e <- gets (fun e => e) ;;
  let t := 1 in
  if Qleb x t && Qleb y t
     && ge_quot_minus w (width (view e)) (dpr (view e)) t
     && ge_quot_minus h (height (view e)) (dpr (view e)) t
  then clear else ret tt.
End Methods.

(** ** Texture manager *)

(** The argument of a draw call in image position. *)
Inductive JSImage :=
| INull
| IRef (id : imgid)
| ITexture (t : tex).

Definition set_img_needsUpdate (v : bool) (i : Image) : Image :=
  {| img_width := img_width i; img_height := img_height i;
     img_needsUpdate := v; img_glTextureInfo := img_glTextureInfo i;
     img_isGLTexture := img_isGLTexture i;
     img_disableAutoAtlas := img_disableAutoAtlas i;
     img_uploadThrows := img_uploadThrows i |}.
Definition set_img_glTextureInfo (v : option TexInfo) (i : Image) : Image :=
  {| img_width := img_width i; img_height := img_height i;
     img_needsUpdate := img_needsUpdate i; img_glTextureInfo := v;
     img_isGLTexture := img_isGLTexture i;
     img_disableAutoAtlas := img_disableAutoAtlas i;
     img_uploadThrows := img_uploadThrows i |}.
Definition set_img_isGLTexture (v : bool) (i : Image) : Image :=
  {| img_width := img_width i; img_height := img_height i;
     img_needsUpdate := img_needsUpdate i;
     img_glTextureInfo := img_glTextureInfo i;
     img_isGLTexture := v;
     img_disableAutoAtlas := img_disableAutoAtlas i;
     img_uploadThrows := img_uploadThrows i |}.

Definition set_images (v : gmap imgid Image) (t : Textures) : Textures :=
  {| images := v; textureCache := textureCache t;
     textureUsage := textureUsage t; atlasCache := atlasCache t;
     maxTextureCacheSize := maxTextureCacheSize t;
     whiteTexture := whiteTexture t; atlasTexture := atlasTexture t;
     atlasSize := atlasSize t; atlasX := atlasX t; atlasY := atlasY t;
     atlasRowHeight := atlasRowHeight t; atlasPadding := atlasPadding t |}.
Definition set_textureCache (v : list (imgid * tex)) (t : Textures) : Textures :=
  {| images := images t; textureCache := v;
     textureUsage := textureUsage t; atlasCache := atlasCache t;
     maxTextureCacheSize := maxTextureCacheSize t;
     whiteTexture := whiteTexture t; atlasTexture := atlasTexture t;
     atlasSize := atlasSize t; atlasX := atlasX t; atlasY := atlasY t;
     atlasRowHeight := atlasRowHeight t; atlasPadding := atlasPadding t |}.
Definition set_textureUsage (v : list (imgid * Z)) (t : Textures) : Textures :=
  {| images := images t; textureCache := textureCache t;
     textureUsage := v; atlasCache := atlasCache t;
     maxTextureCacheSize := maxTextureCacheSize t;
     whiteTexture := whiteTexture t; atlasTexture := atlasTexture t;
     atlasSize := atlasSize t; atlasX := atlasX t; atlasY := atlasY t;
     atlasRowHeight := atlasRowHeight t; atlasPadding := atlasPadding t |}.
Definition set_atlasCache (v : list (imgid * UV)) (t : Textures) : Textures :=
  {| images := images t; textureCache := textureCache t;
     textureUsage := textureUsage t; atlasCache := v;
     maxTextureCacheSize := maxTextureCacheSize t;
     whiteTexture := whiteTexture t; atlasTexture := atlasTexture t;
     atlasSize := atlasSize t; atlasX := atlasX t; atlasY := atlasY t;
     atlasRowHeight := atlasRowHeight t; atlasPadding := atlasPadding t |}.
(** The shelf cursor: [atlasX], [atlasY], [atlasRowHeight]. *)
Definition set_cursor (x y rh : Z) (t : Textures) : Textures :=
  {| images := images t; textureCache := textureCache t;
     textureUsage := textureUsage t; atlasCache := atlasCache t;
     maxTextureCacheSize := maxTextureCacheSize t;
     whiteTexture := whiteTexture t; atlasTexture := atlasTexture t;
     atlasSize := atlasSize t; atlasX := x; atlasY := y;
     atlasRowHeight := rh; atlasPadding := atlasPadding t |}.

(** Assignment to a property of an image object. *)
Definition update_image (id : imgid) (f : Image -> Image) : M unit :=
  modify (with_textures (fun t =>
    set_images (alter f id (images t)) t)).

(** [gl.texImage2D(..., image)] into the bound texture [t]. *)
Definition gl_texImage2D (t : tex) (id : imgid) (image : Image) : M unit :=
  if img_uploadThrows image then raise UploadError
  else gl_emit (GL_texImage2D t id).

(** [gl.texSubImage2D(..., x, y, ..., image)] into the bound texture [t]: it
    writes the rectangle of the image's size at [(x, y)]. *)
Definition gl_texSubImage2D (t : tex) (x y : Z) (id : imgid) (image : Image)
    : M unit :=
  if img_uploadThrows image then raise UploadError
  else gl_emit (GL_texSubImage2D t x y (img_width image) (img_height image) id).

Definition QZ (z : Z) : Q := inject_Z z.

(** [Math.round] and [Math.ceil] *)
Definition Math_round (q : Q) : Z := Qfloor (q + (1 # 2)).
Definition Math_ceil (q : Q) : Z := Qceiling q.

(** [_addToAtlas(image)] *)
Definition addToAtlas (id : imgid) (image : Image) : M (option UV) :=
  if (img_width image <=? 0)%Z || (img_height image <=? 0)%Z then ret None
  else
    t <- gets textures ;;
    let w := (img_width image + atlasPadding t * 2)%Z in
    let h := (img_height image + atlasPadding t * 2)%Z in
    when (atlasSize t <? atlasX t + w)%Z
      (modify (with_textures (fun t =>
         set_cursor 0 (atlasY t + atlasRowHeight t) 0 t))) ;;;
    t <- gets textures ;;
    if (atlasSize t <? atlasY t + h)%Z then ret None
    else
      let x := (atlasX t + atlasPadding t)%Z in
      let y := (atlasY t + atlasPadding t)%Z in
      uploaded <- try_catch
                    (gl_texSubImage2D (atlasTexture t) x y id image ;;; ret true)
                    (ret false) ;;
      if negb uploaded then ret None
      else
        let uv := {| u0 := QZ x / QZ (atlasSize t);
                     v0 := QZ y / QZ (atlasSize t);
                     u1 := QZ (x + img_width image) / QZ (atlasSize t);
                     v1 := QZ (y + img_height image) / QZ (atlasSize t) |} in
        modify (with_textures (fun t =>
          set_cursor (atlasX t + w) (atlasY t)
                     (Z.max (atlasRowHeight t) h)
                     (set_atlasCache (JSMap.set id uv (atlasCache t)) t))) ;;;
        ret (Some uv).

(** [_updateInAtlas(image)] *)
Definition updateInAtlas (id : imgid) (image : Image) : M unit :=
  t <- gets textures ;;
  match JSMap.get id (atlasCache t) with
  | None => ret tt
  | Some uv =>
      let x := Math_round (u0 uv * QZ (atlasSize t)) in
      let y := Math_round (v0 uv * QZ (atlasSize t)) in
      try_catch (gl_texSubImage2D (atlasTexture t) x y id image) (ret tt)
  end.

(** [Array.prototype.sort] is stable; with the comparator [a[1] - b[1]] it
    orders the usage entries by ascending time stamp and keeps the order of
    the map among equal stamps.  The stable insertion sort computes that
    unique result. *)
Fixpoint insert_by_stamp (x : imgid * Z) (l : list (imgid * Z))
    : list (imgid * Z) :=
  match l with
  | [] => [x]
  | y :: l' =>
      if (snd x <=? snd y)%Z then x :: y :: l'
      else y :: insert_by_stamp x l'
  end.

Definition sort_by_stamp (l : list (imgid * Z)) : list (imgid * Z) :=
  foldr insert_by_stamp [] l.

(** One iteration of the loop of [_cleanupTextures]. *)
Definition cleanup_one (img : imgid) : M unit :=
  t <- gets textures ;;
  match JSMap.get img (textureCache t) with
  | Some tx =>
      if negb (Nat.eqb tx (whiteTexture t)) then
        gl_emit (GL_deleteTexture tx) ;;;
        modify (with_textures (fun t =>
          set_textureUsage (JSMap.delete img (textureUsage t))
            (set_textureCache (JSMap.delete img (textureCache t)) t)))
      else ret tt
  | None => ret tt
  end.

Fixpoint cleanup_loop (victims : list (imgid * Z)) : M unit :=
  match victims with
  | [] => ret tt
  | (img, _) :: rest => cleanup_one img ;;; cleanup_loop rest
  end.

(** [_cleanupTextures()]: [n = Math.ceil(maxTextureCacheSize * 0.2)], in
    exact arithmetic (for the constructor's 200 the floating-point product
    is 40 as well). *)
Definition cleanupTextures : M unit :=
  t <- gets textures ;;
  let sorted := sort_by_stamp (textureUsage t) in
  let n := Z.to_nat (Math_ceil (Q_of_nat (maxTextureCacheSize t) * (2 # 10))) in
  cleanup_loop (take n sorted).

(** [getTexture(image)] *)
Definition getTexture_image (id : imgid) (image : Image) : M TexResult :=
  match img_glTextureInfo image, img_needsUpdate image with
  | Some info, false => ret (RInfo info)
  | _, _ =>
    if img_isGLTexture image then
      update_image id (set_img_isGLTexture true) ;;; ret (RImage id)
    else
      t <- gets textures ;;
      match JSMap.get id (atlasCache t) with
      | Some uv =>
          when (img_needsUpdate image)
            (updateInAtlas id image ;;;
             update_image id (set_img_needsUpdate false)) ;;;
          let info := {| ti_texture := atlasTexture t; ti_uv := Some uv;
                         ti_width := img_width image;
                         ti_height := img_height image |} in
          update_image id (set_img_glTextureInfo (Some info)) ;;;
          ret (RInfo info)
      | None =>
          let iW := img_width image in
          let iH := img_height image in
          placed <-
            (if (0 <? iW)%Z && (0 <? iH)%Z && (iW <=? 512)%Z && (iH <=? 512)%Z
                && negb (img_disableAutoAtlas image)
             then addToAtlas id image else ret None) ;;
          match placed with
          | Some uv =>
              let info := {| ti_texture := atlasTexture t; ti_uv := Some uv;
                             ti_width := iW; ti_height := iH |} in
              update_image id (set_img_glTextureInfo (Some info)) ;;;
              ret (RInfo info)
          | None =>
              t <- gets textures ;;
              r <- match JSMap.get id (textureCache t) with
                   | None =>
                       when (maxTextureCacheSize t <=? JSMap.size (textureCache t))%nat
                         cleanupTextures ;;;
                       tx <- gl_createTexture ;;
                       uploaded <- try_catch
                                     (gl_texImage2D tx id image ;;; ret true)
                                     (ret false) ;;
                       if negb uploaded then ret None
                       else
                         modify (with_textures (fun t =>
                           set_textureCache (JSMap.set id tx (textureCache t)) t)) ;;;
                         ret (Some tx)
                   | Some tx =>
                       when (img_needsUpdate image)
                         (gl_texImage2D tx id image ;;;
                          update_image id (set_img_needsUpdate false)) ;;;
                       ret (Some tx)
                   end ;;
              match r with
              | None => ret (RTexture (whiteTexture t))
              | Some tx =>
                  stamp <- gets now ;;
                  modify (with_textures (fun t =>
                    set_textureUsage (JSMap.set id stamp (textureUsage t)) t)) ;;;
                  let info := {| ti_texture := tx; ti_uv := None;
                                 ti_width := iW; ti_height := iH |} in
                  update_image id (set_img_glTextureInfo (Some info)) ;;;
                  ret (RInfo info)
              end
          end
      end
  end.

Definition getTexture (image : JSImage) : M TexResult :=
  match image with
  | INull => t <- gets textures ;; ret (RTexture (whiteTexture t))
  | ITexture tx => ret (RTexture tx)
  | IRef id =>
      t <- gets textures ;;
      match images t !! id with
      | Some image => getTexture_image id image
      | None => raise TypeError
      end
  end.

(** ** Sprite batcher: the enqueue operations *)

(** The value a draw call compares with [currentTexture]: null, a texture
    handle, or an object that is not a [WebGLTexture]. *)
Inductive TexValue :=
| TVNull
| TVTexture (t : tex)
| TVObject.

(** [info.texture ? info.texture : info] (also [ti.texture || ti]) *)
Definition texture_of (r : TexResult) : TexValue :=
  match r with
  | RTexture t => TVTexture t
  | RInfo i => TVTexture (ti_texture i)
  | RImage _ => TVObject
  end.

Definition uv_of (r : TexResult) : option UV :=
  match r with RInfo i => ti_uv i | _ => None end.

(** [m0*x + m2*y + m4] and [m1*x + m3*y + m5] *)
Definition mx (m : Matrix) (x y : Q) : Q := m0 m * x + m2 m * y + m4 m.
Definition my (m : Matrix) (x y : Q) : Q := m1 m * x + m3 m * y + m5 m.

Definition unitUV : UV := mkUV 0 0 1 1.

(** The texture switch every enqueue starts with:
    [if (currentTexture !== texture || batchCount >= maxBatchSize)
       { if (batchCount > 0) flush(); currentTexture = ... }] *)
Definition switchTexture (texture : TexValue) : M unit :=
  b <- gets batch ;;
  t <- gets textures ;;
  let same := match texture with
              | TVTexture tx => bool_decide (currentTexture b = Some tx)
              | TVNull => bool_decide (currentTexture b = None)
              | TVObject => false
              end in
  if negb same || (maxBatchSize b <=? batchCount b)%nat then
    when (0 <? batchCount b)%nat flush ;;;
    modify (with_batch (set_currentTexture
      (Some (match texture with
             | TVTexture tx => tx
             | _ => whiteTexture t
             end))))
  else ret tt.

Definition incr_batchCount : M unit :=
  modify (with_batch (fun b => set_batchCount (S (batchCount b)) b)).

(** Four [addVertex] calls of one quad at [o], [o+9], [o+18], [o+27]; a
    corner is [(x, y, u, v)]. *)
Definition Corner : Type := Q * Q * Q * Q.

Definition addQuad (o : nat) (c0 c1 c2 c3 : Corner) (a : Q) (rgba : RGBA)
    : M unit :=
  let '(x0, y0, s0, t0) := c0 in
  let '(x1, y1, s1, t1) := c1 in
  let '(x2, y2, s2, t2) := c2 in
  let '(x3, y3, s3, t3) := c3 in
  addVertex (o + 0) x0 y0 s0 t0 a rgba ;;;
  addVertex (o + 9) x1 y1 s1 t1 a rgba ;;;
  addVertex (o + 18) x2 y2 s2 t2 a rgba ;;;
  addVertex (o + 27) x3 y3 s3 t3 a rgba.

Inductive DrawImageArgs :=
| Args3 (dx dy : Q)
| Args5 (dx dy dw dh : Q)
| Args9 (sx sy sw sh dx dy dw dh : Q).

Section Draw.
Context (math : MathLib).

Definition parseColorRGBA (s : string) : RGBA :=
  if bool_decide (s = "") then WHITE_RGBA else parseColorString math s.

(** [drawImage(image, ...)] on an image object or null. *)
Definition drawImage (image : option imgid) (args : DrawImageArgs) : M unit :=
  match image with
  | None => ret tt
  | Some id =>
    t <- gets textures ;;
    match images t !! id with
    | None => raise TypeError
    | Some img =>
      let iw := QZ (img_width img) in
      let ih := QZ (img_height img) in
      let '(sx, sy, sw, sh, dx, dy, dw, dh) :=
        match args with
        | Args3 dx dy => (0, 0, iw, ih, dx, dy, iw, ih)
        | Args5 dx dy dw dh => (0, 0, iw, ih, dx, dy, dw, dh)
        | Args9 sx sy sw sh dx dy dw dh => (sx, sy, sw, sh, dx, dy, dw, dh)
        end in
      info <- getTexture (IRef id) ;;
      switchTexture (texture_of info) ;;;
      s <- get_state ;;
      let m := matrix s in
      let '(tu0, tv0, tu1, tv1) :=
        match info with
        | RInfo i =>
            match ti_uv i with
            | Some uv =>
                let iW := 1 / QZ (ti_width i) in
                let iH := 1 / QZ (ti_height i) in
                let aW := u1 uv - u0 uv in
                let aH := v1 uv - v0 uv in
                (u0 uv + (sx * iW) * aW, v0 uv + (sy * iH) * aH,
                 u0 uv + ((sx + sw) * iW) * aW,
                 v0 uv + ((sy + sh) * iH) * aH)
            | None => (sx / iw, sy / ih, (sx + sw) / iw, (sy + sh) / ih)
            end
        | _ => (sx / iw, sy / ih, (sx + sw) / iw, (sy + sh) / ih)
        end in
      when (Qgtb (shadowBlur s) 0
            && negb (bool_decide (shadowColor s = "transparent"))
            && negb (bool_decide (shadowColor s = "rgba(0,0,0,0)")))
        (let sRGBA := parseColorRGBA (shadowColor s) in
         let glow := shadowBlur s * (5 # 10) in
         let sA := alpha s * (5 # 10) in
         let sx0 := dx - glow in
         let sy0 := dy - glow in
         let x1 := sx0 + dw + glow * 2 in
         let y1 := sy0 + dh + glow * 2 in
         b <- gets batch ;;
         let o := (batchCount b * vertexCountPerSprite)%nat in
         addQuad o (mx m sx0 sy0, my m sx0 sy0, tu0, tv0)
                   (mx m x1 sy0, my m x1 sy0, tu1, tv0)
                   (mx m x1 y1, my m x1 y1, tu1, tv1)
                   (mx m sx0 y1, my m sx0 y1, tu0, tv1) sA sRGBA ;;;
         incr_batchCount ;;;
         b <- gets batch ;;
         when (maxBatchSize b <=? batchCount b)%nat flush) ;;;
      let rgba := if (0 <? flash s)%Z then mkRGBA 1 1 1 10 else WHITE_RGBA in
      let x1 := dx + dw in
      let y1 := dy + dh in
      b <- gets batch ;;
      let o := (batchCount b * vertexCountPerSprite)%nat in
      addQuad o (mx m dx dy, my m dx dy, tu0, tv0)
                (mx m x1 dy, my m x1 dy, tu1, tv0)
                (mx m x1 y1, my m x1 y1, tu1, tv1)
                (mx m dx y1, my m dx y1, tu0, tv1) (alpha s) rgba ;;;
      incr_batchCount
    end
  end.

(** [_drawRect(x, y, w, h, rgba, alpha)] *)
Definition drawRect_ (x y w h : Q) (rgba : RGBA) (a : Q) : M unit :=
  b <- gets batch ;;
  t <- gets textures ;;
  when (negb (bool_decide (currentTexture b = Some (whiteTexture t)))
        || (maxBatchSize b <=? batchCount b)%nat)
    (flush ;;;
     modify (with_batch (set_currentTexture (Some (whiteTexture t))))) ;;;
  s <- get_state ;;
  let m := matrix s in
  let x1 := x + w in
  let y1 := y + h in
  b <- gets batch ;;
  let o := (batchCount b * verticesPerSprite * vertexStride)%nat in
  addQuad o (mx m x y, my m x y, 0, 0)
            (mx m x1 y, my m x1 y, 1, 0)
            (mx m x1 y1, my m x1 y1, 1, 1)
            (mx m x y1, my m x y1, 0, 1) a rgba ;;;
  incr_batchCount.

Inductive DrawTextureArg :=
| DTNull
| DTTexture (t : tex)
| DTInfo (i : TexInfo)
| DTImage (id : imgid).

(** The sub-rectangle [(u0, v0, u1, v1)] mapped into an atlas rectangle. *)
Definition remapUV (uv : option UV) (a0 b0 a1 b1 : Q) : Q * Q * Q * Q :=
  match uv with
  | Some r =>
      let uw := u1 r - u0 r in
      let vh := v1 r - v0 r in
      (u0 r + a0 * uw, v0 r + b0 * vh, u0 r + a1 * uw, v0 r + b1 * vh)
  | None => (a0, b0, a1, b1)
  end.

(** Resolution of the first argument of [drawTexture] and
    [_drawTextureDirect] into the texture value and the final UVs. *)
Definition resolveTextureArg (info : DrawTextureArg) (a0 b0 a1 b1 : Q)
    : M (TexValue * (Q * Q * Q * Q)) :=
  match info with
  | DTImage id =>
      ti <- getTexture (IRef id) ;;
      ret (texture_of ti, remapUV (uv_of ti) a0 b0 a1 b1)
  | DTInfo i => ret (TVTexture (ti_texture i), remapUV (ti_uv i) a0 b0 a1 b1)
  | DTTexture t => ret (TVTexture t, (a0, b0, a1, b1))
  | DTNull => ret (TVNull, (a0, b0, a1, b1))
  end.

(** [drawTexture(info, x, y, w, h, u0, v0, u1, v1, rotation, alpha, flipX,
    flipY, tintR, tintG, tintB, flash)] *)
Definition drawTexture (info : DrawTextureArg) (x y w h a0 b0 a1 b1 : Q)
    (rotation a : Q) (flipX flipY : bool) (tintR tintG tintB : Q)
    (flashArg : Q) : M unit :=
  match info with
  | DTNull => ret tt
  | _ =>
    r <- resolveTextureArg info a0 b0 a1 b1 ;;
    let '(texture, (fU0, fV0, fU1, fV1)) := r in
    switchTexture texture ;;;
    let '(fU0, fU1) := if flipX then (fU1, fU0) else (fU0, fU1) in
    let '(fV0, fV1) := if flipY then (fV1, fV0) else (fV0, fV1) in
    s <- get_state ;;
    let m := matrix s in
    let fA := a * alpha s in
    let rgba := mkRGBA tintR tintG tintB (if Qgtb flashArg 0 then 10 else 1) in
    b <- gets batch ;;
    let o := (batchCount b * vertexCountPerSprite)%nat in
    (if Qeqb rotation 0 then
       let x1 := x + w in
       let y1 := y + h in
       addQuad o (mx m x y, my m x y, fU0, fV0)
                 (mx m x1 y, my m x1 y, fU1, fV0)
                 (mx m x1 y1, my m x1 y1, fU1, fV1)
                 (mx m x y1, my m x y1, fU0, fV1) fA rgba
     else
       let cos := Math_cos math rotation in
       let sin := Math_sin math rotation in
       let hw := w / 2 in
       let hh := h / 2 in
       let cx := x + hw in
       let cy := y + hh in
       let rx0 := - hw * cos + hh * sin + cx in
       let ry0 := - hw * sin - hh * cos + cy in
       let rx1 := hw * cos + hh * sin + cx in
       let ry1 := hw * sin - hh * cos + cy in
       let rx2 := hw * cos - hh * sin + cx in
       let ry2 := hw * sin + hh * cos + cy in
       let rx3 := - hw * cos - hh * sin + cx in
       let ry3 := - hw * sin + hh * cos + cy in
       addQuad o (mx m rx0 ry0, my m rx0 ry0, fU0, fV0)
                 (mx m rx1 ry1, my m rx1 ry1, fU1, fV0)
                 (mx m rx2 ry2, my m rx2 ry2, fU1, fV1)
                 (mx m rx3 ry3, my m rx3 ry3, fU0, fV1) fA rgba) ;;;
    incr_batchCount
  end.

(** [d[o] = v0; d[o+1] = v1; ...]: consecutive stores into the arena. *)
Fixpoint store_from (o : nat) (vals : list Q) (d : list Q) : list Q :=
  match vals with
  | [] => d
  | v :: vs => store_from (S o) vs (<[o := v]> d)
  end.

(** [drawSpriteFast(image, x, y, w, h, rotation, alpha, tint)]; [tint] is
    [None] when the argument is null, shorter than four entries or a
    gradient. *)
Definition drawSpriteFast (image : JSImage) (x y w h rotation a : Q)
    (tint : option RGBA) : M unit :=
  match image with
  | INull => ret tt
  | _ =>
    texInfo <- getTexture image ;;
    t <- gets textures ;;
    let '(texture, uv) :=
      match texInfo with
      | RInfo i => (ti_texture i, default unitUV (ti_uv i))
      | RTexture tx => (tx, unitUV)
      | RImage _ => (whiteTexture t, unitUV)
      end in
    switchTexture (TVTexture texture) ;;;
    let hw := w * (5 # 10) in
    let hh := h * (5 # 10) in
    let cos := Math_cos math rotation in
    let sin := Math_sin math rotation in
    let lx0 := - hw * cos + hh * sin + x in
    let ly0 := - hw * sin - hh * cos + y in
    let lx1 := hw * cos + hh * sin + x in
    let ly1 := hw * sin - hh * cos + y in
    let lx2 := hw * cos - hh * sin + x in
    let ly2 := hw * sin + hh * cos + y in
    let lx3 := - hw * cos - hh * sin + x in
    let ly3 := - hw * sin + hh * cos + y in
    s <- get_state ;;
    let m := matrix s in
    let rgba := default WHITE_RGBA tint in
    let fA := a * alpha s in
    let isFlash := Qgtb (rgba_a rgba) 5 in
    let cA := if isFlash then 1 else Qmin 1 (rgba_a rgba) in
    let ca := fA * cA in
    let ff := if isFlash then 2 else Qmin 1 ca in
    b <- gets batch ;;
    let o := (batchCount b * vertexCountPerSprite)%nat in
    modify (with_batch (fun b => set_vertexData (store_from o
      [ mx m lx0 ly0; my m lx0 ly0; u0 uv; v0 uv; ca;
        rgba_r rgba; rgba_g rgba; rgba_b rgba; ff;
        mx m lx1 ly1; my m lx1 ly1; u1 uv; v0 uv; ca;
        rgba_r rgba; rgba_g rgba; rgba_b rgba; ff;
        mx m lx2 ly2; my m lx2 ly2; u1 uv; v1 uv; ca;
        rgba_r rgba; rgba_g rgba; rgba_b rgba; ff;
        mx m lx3 ly3; my m lx3 ly3; u0 uv; v1 uv; ca;
        rgba_r rgba; rgba_g rgba; rgba_b rgba; ff ]
      (vertexData b)) b)) ;;;
    incr_batchCount
  end.

(** [_drawLine(x1, y1, x2, y2, width, rgba, alpha, m)] *)
Definition drawLine_ (x1 y1 x2 y2 lw : Q) (rgba : RGBA) (a : Q) (m : Matrix)
    : M unit :=
  t <- gets textures ;;
  switchTexture (TVTexture (whiteTexture t)) ;;;
  let dx := x2 - x1 in
  let dy := y2 - y1 in
  let len := Math_sqrt math (dx * dx + dy * dy) in
  if Qleb len 0 then ret tt
  else
    let nx := - dy / len * (lw / 2) in
    let ny := dx / len * (lw / 2) in
    b <- gets batch ;;
    let o := (batchCount b * vertexCountPerSprite)%nat in
    addQuad o (mx m (x1 + nx) (y1 + ny), my m (x1 + nx) (y1 + ny), 0, 0)
              (mx m (x2 + nx) (y2 + ny), my m (x2 + nx) (y2 + ny), 1, 0)
              (mx m (x2 - nx) (y2 - ny), my m (x2 - nx) (y2 - ny), 1, 1)
              (mx m (x1 - nx) (y1 - ny), my m (x1 - nx) (y1 - ny), 0, 1)
              a rgba ;;;
    incr_batchCount.

(** [drawLine(x1, y1, x2, y2, width, color, alpha)] with a colour array. *)
Definition drawLine (x1 y1 x2 y2 lw : Q) (color : RGBA) (a : Q) : M unit :=
  s <- get_state ;;
  drawLine_ x1 y1 x2 y2 lw color a (matrix s).

(** [_drawTextureDirect(texOrInfo, x, y, w, h, alphaOverride, rgbaOverride,
    u0, v0, u1, v1)]; [rgbaOverride] is [None] for null, a gradient or an
    array shorter than four. *)
Definition drawTextureDirect (texOrInfo : DrawTextureArg) (x y w h : Q)
    (alphaOverride : option Q) (rgbaOverride : option RGBA)
    (a0 b0 a1 b1 : Q) : M unit :=
  r <- resolveTextureArg texOrInfo a0 b0 a1 b1 ;;
  let '(tx, (fU0, fV0, fU1, fV1)) := r in
  switchTexture tx ;;;
  s <- get_state ;;
  let m := matrix s in
  let a := default (alpha s) alphaOverride in
  let rgba := default WHITE_RGBA rgbaOverride in
  let x1 := x + w in
  let y1 := y + h in
  b <- gets batch ;;
  let o := (batchCount b * vertexCountPerSprite)%nat in
  addQuad o (mx m x y, my m x y, fU0, fV0)
            (mx m x1 y, my m x1 y, fU1, fV0)
            (mx m x1 y1, my m x1 y1, fU1, fV1)
            (mx m x y1, my m x y1, fU0, fV1) a rgba ;;;
  incr_batchCount.

(** A colour argument: a string, an array of four numbers, or anything
    else. *)
Inductive ColorArg :=
| CStr (s : string)
| CArr (c : RGBA)
| COther.

Definition colorArg_rgba (color : ColorArg) : RGBA :=
  match color with
  | CStr s => parseColorRGBA s
  | CArr c => c
  | COther => WHITE_RGBA
  end.

(** [bitmapFont.get(c)] *)
Fixpoint font_get (c : ascii) (f : list (ascii * Glyph)) : option Glyph :=
  match f with
  | [] => None
  | (c', g) :: f' => if Ascii.eqb c c' then Some g else font_get c f'
  end.

(** The second loop of [drawBitmapText]. *)
Fixpoint bitmapText_loop (text : list ascii) (curX y size scale bOff a : Q)
    (rgba : RGBA) : M unit :=
  match text with
  | [] => ret tt
  | c :: rest =>
      d <- gets dn ;;
      match font_get c (bitmapFont d) with
      | Some i =>
          drawTextureDirect (DTTexture (g_texture i))
            (curX - g_padding i * scale)
            (y - (g_renderHeight i / 2) * scale + bOff)
            (g_renderWidth i * scale) (g_renderHeight i * scale)
            (Some a) (Some rgba) (g_u0 i) (g_v0 i) (g_u1 i) (g_v1 i) ;;;
          bitmapText_loop rest (curX + g_width i * scale) y size scale bOff a rgba
      | None =>
          bitmapText_loop rest (curX + size * (5 # 10)) y size scale bOff a rgba
      end
  end.

(** [drawBitmapText(text, x, y, size, color, alpha, align, baseline)] *)
Definition drawBitmapText (text : string) (x y size : Q) (color : ColorArg)
    (a : Q) (align baseline : string) : M unit :=
  if bool_decide (text = "") then ret tt
  else
    let chars := list_ascii_of_string text in
    let rgba := colorArg_rgba color in
    let scale := size / 64 in
    d <- gets dn ;;
    let totalW :=
      foldl (fun acc c =>
               match font_get c (bitmapFont d) with
               | Some i => acc + g_width i * scale
               | None => acc + size * (5 # 10)
               end) 0 chars in
    let curX := if bool_decide (align = "center") then x - totalW / 2
                else if bool_decide (align = "right") then x - totalW
                else x in
    let bOff := if bool_decide (baseline = "top") then size * (5 # 10)
                else if bool_decide (baseline = "bottom") then - size * (5 # 10)
                else 0 in
    bitmapText_loop chars curX y size scale bOff a rgba.

Definition set_dnVertexData (v : list Q) (d : DamageNumbers) : DamageNumbers :=
  {| dnMaxBatchSize := dnMaxBatchSize d; dnVertexData := v;
     dnBatchCount := dnBatchCount d; dnCurrentTexture := dnCurrentTexture d;
     bitmapFont := bitmapFont d; currentTime := currentTime d;
     cameraX := cameraX d; cameraY := cameraY d |}.
Definition set_dnBatchCount (v : nat) (d : DamageNumbers) : DamageNumbers :=
  {| dnMaxBatchSize := dnMaxBatchSize d; dnVertexData := dnVertexData d;
     dnBatchCount := v; dnCurrentTexture := dnCurrentTexture d;
     bitmapFont := bitmapFont d; currentTime := currentTime d;
     cameraX := cameraX d; cameraY := cameraY d |}.
Definition set_dnCurrentTexture (v : option tex) (d : DamageNumbers)
    : DamageNumbers :=
  {| dnMaxBatchSize := dnMaxBatchSize d; dnVertexData := dnVertexData d;
     dnBatchCount := dnBatchCount d; dnCurrentTexture := v;
     bitmapFont := bitmapFont d; currentTime := currentTime d;
     cameraX := cameraX d; cameraY := cameraY d |}.

(** [flushDamageNumbers()]; the draw is counted in the sprite batch's
    statistics. *)
Definition flushDamageNumbers : M unit := fun e =>
  let d := dn e in
  match dnCurrentTexture d with
  | None => (Ret tt, e)
  | Some t =>
      if Nat.eqb (dnBatchCount d) 0 then (Ret tt, e)
      else
        let dc := {| dc_program := DamageNumberProgram;
                     dc_texture := t;
                     dc_vertices :=
                       take (dnBatchCount d * 4 * dnVertexStride)
                            (dnVertexData d);
                     dc_indexCount := (dnBatchCount d * 6)%nat;
                     dc_blend := gl_blend (gl e) |} in
        (gl_emit (GL_drawElements dc) ;;;
         modify (with_batch (fun b =>
           {| maxBatchSize := maxBatchSize b; vertexData := vertexData b;
              batchCount := batchCount b;
              currentTexture := currentTexture b;
              drawCallCount := S (drawCallCount b);
              triangleCount := (triangleCount b + dnBatchCount d * 2)%nat |})) ;;;
         modify (with_dn (set_dnBatchCount 0))) e
  end.

(** The loop over the glyphs of [drawGPUDamageNumber]. *)
Fixpoint damageNumber_loop (text : list ascii) (curCharX : Q)
    (x y vx vy startTime duration baseScale : Q) (rgba : RGBA) (a : Q)
    : M unit :=
  match text with
  | [] => ret tt
  | c :: rest =>
      d <- gets dn ;;
      match font_get c (bitmapFont d) with
      | None =>
          damageNumber_loop rest (curCharX + 32) x y vx vy startTime duration
            baseScale rgba a
      | Some i =>
          when (negb (bool_decide (dnCurrentTexture d = Some (g_texture i)))
                || (dnMaxBatchSize d <=? dnBatchCount d)%nat)
            (flushDamageNumbers ;;;
             modify (with_dn (set_dnCurrentTexture (Some (g_texture i))))) ;;;
          let x0 := - g_padding i in
          let y0 := - (g_renderHeight i / 2) in
          let x1 := x0 + g_renderWidth i in
          let y1 := y0 + g_renderHeight i in
          let verts := [ (x0, y0, g_u0 i, g_v0 i); (x1, y0, g_u1 i, g_v0 i);
                         (x1, y1, g_u1 i, g_v1 i); (x0, y1, g_u0 i, g_v1 i) ] in
          d <- gets dn ;;
          let o := (dnBatchCount d * 4 * dnVertexStride)%nat in
          let block :=
            flat_map (fun '(px, py, pu, pv) =>
              [ px; py; pu; pv; x; y; curCharX; 0; vx; vy;
                startTime; duration; baseScale;
                rgba_r rgba; rgba_g rgba; rgba_b rgba; a ]) verts in
          modify (with_dn (fun d =>
            set_dnVertexData (store_from o block (dnVertexData d)) d)) ;;;
          modify (with_dn (fun d => set_dnBatchCount (S (dnBatchCount d)) d)) ;;;
          damageNumber_loop rest (curCharX + g_width i) x y vx vy startTime
            duration baseScale rgba a
      end
  end.

(** [drawGPUDamageNumber(text, x, y, vx, vy, startTime, duration, size,
    color, alpha)] *)
Definition drawGPUDamageNumber (text : string) (x y vx vy startTime duration
    size : Q) (color : ColorArg) (a : Q) : M unit :=
  if bool_decide (text = "") then ret tt
  else
    let chars := list_ascii_of_string text in
    let rgba := colorArg_rgba color in
    let baseScale := size / 64 in
    d <- gets dn ;;
    let totalW :=
      foldl (fun acc c =>
               match font_get c (bitmapFont d) with
               | Some i => acc + g_width i
               | None => acc + 32
               end) 0 chars in
    damageNumber_loop chars (- totalW / 2) x y vx vy startTime duration
      baseScale rgba a.
End Draw.

(** ** The constructor *)

(** The engine as the constructor leaves it.  The capacities are arguments
    so that small engines can be evaluated; the constructor of the source
    fixes them ([constructor] below).  Textures are created in the order
    white, bitmap font, atlas; [font] is the glyph table that
    [initBitmapFont] measures, [maxTex] is [MAX_TEXTURE_SIZE]. *)
Definition mkEngine (maxBatch dnMax cacheMax : nat) (canvasW canvasH : Q)
    (maxTex : Z) (font : list (ascii * Glyph)) : Blaze2D :=
  {| gl := {| gl_log := []; gl_blend := (GL_ONE, GL_ONE_MINUS_SRC_ALPHA);
              gl_nextTexture := 3%nat |};
     batch := {| maxBatchSize := maxBatch;
                 vertexData :=
                   replicate (maxBatch * verticesPerSprite * vertexStride) 0;
                 batchCount := 0; currentTexture := None;
                 drawCallCount := 0; triangleCount := 0 |};
     states := {| stateStack :=
                    [ {| matrix := createDefaultMatrix; alpha := 1;
                         flash := 0%Z;
                         fillStyle := VStr "#ffffff"; fillStyleRGBA := 0%nat;
                         strokeStyle := VStr "#000000";
                         strokeStyleRGBA := [0; 0; 0; 1];
                         lineWidth := 1; font := "20px Arial";
                         textAlign := "left"; textBaseline := "alphabetic";
                         globalCompositeOperation := "source-over";
                         shadowBlur := 0; shadowColor := "transparent";
                         lineCap := None; lineJoin := None |} ];
                  statePool := [];
                  styleHeap := [OF32 [1; 1; 1; 1]] |};
     textures := {| images := ∅; textureCache := []; textureUsage := [];
                    atlasCache := []; maxTextureCacheSize := cacheMax;
                    whiteTexture := 0%nat; atlasTexture := 2%nat;
                    atlasSize := Z.min (if (maxTex =? 0)%Z then 2048%Z else maxTex)
                                       4096;
                    atlasX := 0; atlasY := 0; atlasRowHeight := 0;
                    atlasPadding := 2 |};
     dn := {| dnMaxBatchSize := dnMax;
              dnVertexData := replicate (dnMax * 4 * dnVertexStride) 0;
              dnBatchCount := 0; dnCurrentTexture := None;
              bitmapFont := font; currentTime := 0;
              cameraX := 0; cameraY := 0 |};
     view := {| width := canvasW; height := canvasH; dpr := 1 |};
     now := 0 |}.

Definition constructor : Q -> Q -> Z -> list (ascii * Glyph) -> Blaze2D :=
  mkEngine (Z.to_nat 8192) (Z.to_nat 4000) 200.

(** ** The vertex stage of the damage-number program *)

Module DamageNumberShader.
Record Attribs := {
  a_posOffset : Q * Q;
  a_texCoord : Q * Q;
  a_startPos : Q * Q;
  a_charOffset : Q * Q;
  a_velocity : Q * Q;
  a_timeParams : Q * Q * Q;     (* spawn time, duration, base scale *)
  a_color : Q * Q * Q;
  a_alpha : Q
}.


(** A value computed by the stage: a finite number, held exactly, or one
    of the three values that a division by zero brings in.  The attributes
    and uniforms are finite, and a zero is taken as positive. *)
Inductive Float := Fin (q : Q) | PInf | NInf | NaN.

Definition fneg (a : Float) : Float :=
  match a with
  | Fin q => Fin (- q)
  | PInf => NInf
  | NInf => PInf
  | NaN => NaN
  end.

Definition fadd (a b : Float) : Float :=
  match a, b with
  | NaN, _ => NaN
  | _, NaN => NaN
  | Fin x, Fin y => Fin (x + y)
  | PInf, NInf => NaN
  | NInf, PInf => NaN
  | PInf, _ => PInf
  | _, PInf => PInf
  | NInf, _ => NInf
  | _, NInf => NInf
  end.

Definition fsub (a b : Float) : Float := fadd a (fneg b).

(** An infinity times a finite number: NaN for zero, else by the sign. *)
Definition inf_times (inf : Float) (x : Q) : Float :=
  if Qeqb x 0 then NaN else if Qltb x 0 then fneg inf else inf.

Definition fmul (a b : Float) : Float :=
  match a, b with
  | NaN, _ => NaN
  | _, NaN => NaN
  | Fin x, Fin y => Fin (x * y)
  | Fin x, inf => inf_times inf x
  | inf, Fin y => inf_times inf y
  | PInf, PInf => PInf
  | NInf, NInf => PInf
  | PInf, NInf => NInf
  | NInf, PInf => NInf
  end.

Definition fdiv (a b : Float) : Float :=
  match a, b with
  | NaN, _ => NaN
  | _, NaN => NaN
  | Fin x, Fin y =>
      if Qeqb y 0
      then (if Qeqb x 0 then NaN else if Qltb x 0 then NInf else PInf)
      else Fin (x / y)
  | Fin _, _ => Fin 0
  | inf, Fin y => if Qltb y 0 then fneg inf else inf
  | _, _ => NaN
  end.

(** [a < b] and [a > b]: false as soon as one side is NaN. *)
Definition flt (a b : Float) : bool :=
  match a, b with
  | NaN, _ => false
  | _, NaN => false
  | Fin x, Fin y => Qltb x y
  | NInf, NInf => false
  | NInf, _ => true
  | PInf, _ => false
  | Fin _, PInf => true
  | Fin _, NInf => false
  end.

Definition fgt (a b : Float) : bool := flt b a.


Definition duration (a : Attribs) : Q := snd (fst (a_timeParams a)).
Definition baseScale (a : Attribs) : Q := snd (a_timeParams a).

(** [mix(x, y, a)] is [x * (1 - a) + y * a]. *)
Definition mix (x y a : Float) : Float :=
  fadd (fmul x (fsub (Fin 1) a)) (fmul y a).



Section Main.
Context (math : MathLib).

(** [scale] after the ramps and the pop; [t] is already clamped. *)
Definition scale (t d base : Q) : Float :=
  let progress := fdiv (Fin t) (Fin d) in
  let s := Fin base in
  let s := if flt progress (Fin (2 # 10))
           then fmul s (mix (Fin (3 # 10)) (Fin 1)
                          (fdiv progress (Fin (2 # 10))))
           else if fgt progress (Fin (7 # 10))
           then fmul s (fsub (Fin 1)
                          (fdiv (fsub progress (Fin (7 # 10)))
                                (Fin (3 # 10))))
           else s in
  if Qltb t (1 # 10)
  then fmul s (Fin (1 + Math_sin math (t * 10 * (157 # 100)) * (1 # 10)))
  else s.


End Main.


End DamageNumberShader.

(** ** Data for evaluating the model *)

(** A concrete [MathLib] of low-order rational approximations (Taylor
    polynomials, one Newton step), with a small colour table; it is used
    where a statement is evaluated on an example. *)
Definition approxMath : MathLib :=
  {| Math_cos := fun x => 1 - x * x / 2;
     Math_sin := fun x => x - x * x * x / 6;
     Math_sqrt := fun x => if Qleb x 0 then 0 else (x + 1) / 2;
     Math_exp := fun x => 1 + x + x * x / 2;
     parseColorString := fun s =>
       if bool_decide (s = "#ff0000") then mkRGBA 1 0 0 1
       else if bool_decide (s = "#000000") then mkRGBA 0 0 0 1
       else WHITE_RGBA |}.

(** A bitmap font with the two digits of the scenario, in texture 1. *)
Definition digitGlyph (x : Q) : Glyph :=
  {| g_texture := 1%nat; g_padding := 8; g_width := 36;
     g_renderWidth := 52; g_renderHeight := 93;
     g_u0 := x / 1024; g_v0 := 0; g_u1 := (x + 52) / 1024; g_v1 := 93 / 128 |}.

Definition digitFont : list (ascii * Glyph) :=
  [ ("1"%char, digitGlyph 0); ("2"%char, digitGlyph 52) ].








(** ** Expected results, used in the statements *)

(** The draw call a flush of [e] submits. *)
Definition pendingDraw (e : Blaze2D) : DrawCall :=
  {| dc_program := SpriteProgram;
     dc_texture := default (whiteTexture (textures e)) (currentTexture (batch e));
     dc_vertices :=
       take (batchCount (batch e) * vertexCountPerSprite) (vertexData (batch e));
     dc_indexCount := (batchCount (batch e) * indicesPerSprite)%nat;
     dc_blend := gl_blend (gl e) |}.

(** The blend function [_updateBlendMode] selects for a mode, and the mode
    the getter reports. *)
Definition blendFuncFor (mode : string) : BlendFactor * BlendFactor :=
  if bool_decide (mode = "source-atop") then (GL_DST_ALPHA, GL_ONE_MINUS_SRC_ALPHA)
  else if bool_decide (mode = "lighter") || bool_decide (mode = "screen")
          || bool_decide (mode = "additive")
  then (GL_ONE, GL_ONE)
  else (GL_ONE, GL_ONE_MINUS_SRC_ALPHA).

Definition effectiveMode (mode : string) : string :=
  if bool_decide (mode = "") then "source-over" else mode.

(** The root state after [resetState]: the default values, the scale of the
    device pixel ratio, and the root's own buffer and optional properties. *)
Definition resetRoot (dpr1 : Q) (root : RenderState) : RenderState :=
  {| matrix := mkMatrix dpr1 0 0 dpr1 0 0; alpha := 1; flash := 0%Z;
     fillStyle := VStr "#ffffff"; fillStyleRGBA := fillStyleRGBA root;
     strokeStyle := VStr "#000000"; strokeStyleRGBA := [0; 0; 0; 1];
     lineWidth := 1; font := "20px Arial";
     textAlign := "left"; textBaseline := "alphabetic";
     globalCompositeOperation := "source-over";
     shadowBlur := 0; shadowColor := "transparent";
     lineCap := lineCap root; lineJoin := lineJoin root |}.

(** The object [to] after a [_copyState(from, to)] that keeps [to]'s own fill
    buffer. *)
Definition copied (from to : RenderState) : RenderState :=
  {| matrix := matrix from; alpha := alpha from; flash := flash from;
     fillStyle := fillStyle from; fillStyleRGBA := fillStyleRGBA to;
     strokeStyle := strokeStyle from; strokeStyleRGBA := strokeStyleRGBA from;
     lineWidth := lineWidth from; font := font from;
     textAlign := textAlign from; textBaseline := textBaseline from;
     globalCompositeOperation := globalCompositeOperation from;
     shadowBlur := shadowBlur from; shadowColor := shadowColor from;
     lineCap := lineCap to; lineJoin := lineJoin to |}.

Definition set_styleHeap (h : list styleObj) (e : Blaze2D) : Blaze2D :=
  with_states (fun s =>
    {| stateStack := stateStack s; statePool := statePool s; styleHeap := h |}) e.

(** The engine after [resetState], for a stack [rest ++ [root]] whose root
    keeps its fill buffer. *)
Definition resetEngine (e : Blaze2D) (rest : list RenderState)
    (root : RenderState) : Blaze2D :=
  with_gl (fun g =>
    {| gl_log := gl_log g; gl_blend := (GL_ONE, GL_ONE_MINUS_SRC_ALPHA);
       gl_nextTexture := gl_nextTexture g |})
  (with_states (fun s =>
    {| stateStack :=
         [resetRoot (if Qeqb (dpr (view e)) 0 then 1 else dpr (view e)) root];
       statePool := rev rest ++ statePool s;
       styleHeap := <[fillStyleRGBA root := OF32 [1; 1; 1; 1]]>
                      (styleHeap s ++ [OF32 [1; 1; 1; 1]]) |})
  (with_batch (set_currentTexture None)
  (with_batch (set_batchCount 0) e))).

(** A small engine (capacity 4 in every lane, an 800 x 600 canvas, the digit
    font), and the same engine with one white rectangle queued. *)
Definition demoEngine : Blaze2D := mkEngine 4 4 4 800 600 4096 digitFont.

Definition demoEngineQuad : Blaze2D :=
  exec (drawRect_ 0 0 10 10 WHITE_RGBA 1) demoEngine.

(** The root state of a fresh engine. *)
Definition demoState : RenderState :=
  {| matrix := createDefaultMatrix; alpha := 1; flash := 0%Z;
     fillStyle := VStr "#ffffff"; fillStyleRGBA := 0%nat;
     strokeStyle := VStr "#000000"; strokeStyleRGBA := [0; 0; 0; 1];
     lineWidth := 1; font := "20px Arial";
     textAlign := "left"; textBaseline := "alphabetic";
     globalCompositeOperation := "source-over";
     shadowBlur := 0; shadowColor := "transparent";
     lineCap := None; lineJoin := None |}.

(** The nine numbers [addVertex] stores for one vertex. *)
Definition encodeVertex (x y u v a : Q) (rgba : RGBA) : list Q :=
  let isFlash := Qgtb (rgba_a rgba) 5 in
  let cA := if isFlash then 1 else (if Qgtb (rgba_a rgba) 1 then 1 else rgba_a rgba) in
  let ca := a * cA in
  [x; y; u; v; ca; rgba_r rgba; rgba_g rgba; rgba_b rgba;
   if isFlash then 2 else (if Qgtb ca 1 then 1 else ca)].

Definition encodeCorner (c : Corner) (a : Q) (rgba : RGBA) : list Q :=
  let '(x, y, u, v) := c in encodeVertex x y u v a rgba.

(** The 36 numbers of one quad. *)
Definition encodeQuad (c0 c1 c2 c3 : Corner) (a : Q) (rgba : RGBA) : list Q :=
  encodeCorner c0 a rgba ++ encodeCorner c1 a rgba
  ++ encodeCorner c2 a rgba ++ encodeCorner c3 a rgba.

(** [block] written over the arena from offset [o]. *)
Definition splice (d : list Q) (o : nat) (block : list Q) : list Q :=
  take o d ++ block ++ drop (o + length block) d.

(** The draw submissions of a command trace, in order. *)
Definition drawCalls (log : list GLCommand) : list DrawCall :=
  omap (fun c => match c with GL_drawElements dc => Some dc | _ => None end) log.

Definition isDraw (c : GLCommand) : bool :=
  match c with GL_drawElements _ => true | _ => false end.

(** What the texture manager leaves alone: everything but the texture
    tables, the image objects and the non-draw part of the trace. *)
Record frame (e e' : Blaze2D) : Prop := {
  fr_batch : batch e' = batch e;
  fr_states : states e' = states e;
  fr_dn : dn e' = dn e;
  fr_view : view e' = view e;
  fr_now : now e' = now e;
  fr_white : whiteTexture (textures e') = whiteTexture (textures e);
  fr_blend : gl_blend (gl e') = gl_blend (gl e);
  fr_draws : drawCalls (gl_log (gl e')) = drawCalls (gl_log (gl e))
}.

Definition Frame {A} (m : M A) : Prop := forall e, frame e (snd (m e)).

(** ** Sequences of enqueue calls *)

(** One call of an enqueue operation of the sprite batcher. *)
Inductive EnqueueOp :=
| OpDrawImage (image : imgid) (args : DrawImageArgs)
| OpDrawTexture (info : DrawTextureArg) (x y w h a0 b0 a1 b1 : Q)
    (rotation a : Q) (flipX flipY : bool) (tintR tintG tintB flashArg : Q)
| OpDrawSpriteFast (image : JSImage) (x y w h rotation a : Q)
    (tint : option RGBA)
| OpDrawRect (x y w h : Q) (rgba : RGBA) (a : Q).

Definition runOp (math : MathLib) (op : EnqueueOp) : M unit :=
  match op with
  | OpDrawImage image args => drawImage math (Some image) args
  | OpDrawTexture info x y w h a0 b0 a1 b1 rotation a flipX flipY
      tintR tintG tintB flashArg =>
      drawTexture math info x y w h a0 b0 a1 b1 rotation a flipX flipY
        tintR tintG tintB flashArg
  | OpDrawSpriteFast image x y w h rotation a tint =>
      drawSpriteFast math image x y w h rotation a tint
  | OpDrawRect x y w h rgba a => drawRect_ x y w h rgba a
  end.

Fixpoint runOps (math : MathLib) (ops : list EnqueueOp) : M unit :=
  match ops with
  | [] => ret tt
  | op :: rest => runOp math op ;;; runOps math rest
  end.

(** The texture value an operation compares with [currentTexture], as its
    own resolution of the first argument computes it. *)
Definition opTexture (op : EnqueueOp) : M TexValue :=
  match op with
  | OpDrawImage image _ =>
      info <- getTexture (IRef image) ;; ret (texture_of info)
  | OpDrawTexture info _ _ _ _ a0 b0 a1 b1 _ _ _ _ _ _ _ _ =>
      r <- resolveTextureArg info a0 b0 a1 b1 ;; ret (fst r)
  | OpDrawSpriteFast image _ _ _ _ _ _ _ =>
      match image with
      | INull => ret TVNull
      | _ =>
          texInfo <- getTexture image ;;
          t <- gets textures ;;
          ret (TVTexture (match texInfo with
                          | RInfo i => ti_texture i
                          | RTexture tx => tx
                          | RImage _ => whiteTexture t
                          end))
      end
  | OpDrawRect _ _ _ _ _ _ =>
      t <- gets textures ;; ret (TVTexture (whiteTexture t))
  end.

(** The condition under which [drawImage] first enqueues a shadow quad. *)
Definition shadowActive (s : RenderState) : bool :=
  Qgtb (shadowBlur s) 0
  && negb (bool_decide (shadowColor s = "transparent"))
  && negb (bool_decide (shadowColor s = "rgba(0,0,0,0)")).

(** The number of quads a call enqueues under the top state [s]. *)
Definition opQuads (s : RenderState) (op : EnqueueOp) : nat :=
  match op with
  | OpDrawImage _ _ => if shadowActive s then 2 else 1
  | _ => 1
  end.

Fixpoint totalQuads (s : RenderState) (ops : list EnqueueOp) : nat :=
  match ops with
  | [] => 0%nat
  | op :: rest => (opQuads s op + totalQuads s rest)%nat
  end.

(** Every call of the sequence, at the state in which it runs, resolves to
    the texture [T]. *)
Fixpoint sameTexture (math : MathLib) (T : tex) (ops : list EnqueueOp)
    (e : Blaze2D) : Prop :=
  match ops with
  | [] => True
  | op :: rest =>
      result (opTexture op) e = Ret (TVTexture T)
      /\ sameTexture math T rest (exec (runOp math op) e)
  end.

(** The six indices of quad [i]: two triangles, winding 0,1,2,0,2,3. *)
Definition quadIndices (i : nat) : list nat :=
  [(4 * i)%nat; (4 * i + 1)%nat; (4 * i + 2)%nat;
   (4 * i)%nat; (4 * i + 2)%nat; (4 * i + 3)%nat].

(** The engine after [block] is stored in the next free slot and counted. *)
Definition pushed (e : Blaze2D) (block : list Q) : Blaze2D :=
  with_batch (fun b =>
    set_batchCount (S (batchCount b))
      (set_vertexData
         (splice (vertexData b) (batchCount b * vertexCountPerSprite) block) b)) e.

(** The batch holds [n] quads of texture [T]. *)
Record Queue (T : tex) (n : nat) (e : Blaze2D) : Prop := {
  q_count : batchCount (batch e) = n;
  q_arena : length (vertexData (batch e)) = (maxBatchSize (batch e) * 36)%nat;
  q_tex : n <> 0%nat -> currentTexture (batch e) = Some T
}.

(** What an enqueue on a queue of [n] quads keeps: the state stack, the
    capacity and the quads already queued; [x] are the draws it submits. *)
Record Kept (x : list DrawCall) (n : nat) (e e' : Blaze2D) : Prop := {
  k_states : states e' = states e;
  k_max : maxBatchSize (batch e') = maxBatchSize (batch e);
  k_draws : drawCalls (gl_log (gl e')) = drawCalls (gl_log (gl e)) ++ x;
  k_white : whiteTexture (textures e') = whiteTexture (textures e);
  k_blend : gl_blend (gl e') = gl_blend (gl e);
  k_prefix : take (n * 36) (vertexData (batch e'))
             = take (n * 36) (vertexData (batch e))
}.

(** The outcome of the texture switch for texture [T] on engine [e]:
    whether it changes the batch, how many queued quads it keeps, and the
    draw it submits. *)
Definition switchChanged (T : tex) (e : Blaze2D) : bool :=
  negb (bool_decide (currentTexture (batch e) = Some T))
  || (maxBatchSize (batch e) <=? batchCount (batch e))%nat.

Definition switchKeeps (T : tex) (e : Blaze2D) : nat :=
  if switchChanged T e then 0%nat else batchCount (batch e).

Definition switchDraws (T : tex) (e : Blaze2D) : list DrawCall :=
  if switchChanged T e && (0 <? batchCount (batch e))%nat
  then [pendingDraw e] else [].

Definition arenaOK (e : Blaze2D) : Prop :=
  length (vertexData (batch e)) = (maxBatchSize (batch e) * 36)%nat.

(** The state a texture switch to [T] must leave. *)
Definition SwitchedTo (T : tex) (e e2 : Blaze2D) : Prop :=
  Queue T (switchKeeps T e) e2
  /\ Kept (switchDraws T e) (switchKeeps T e) e e2
  /\ currentTexture (batch e2) = Some T.

(** An enqueue call that succeeds: after its texture switch, which leaves
    the state [e2] with [n] quads queued and submits the draws [x], it
    pushes [k] quads, each at the offset of the batch count. *)
Definition StepOK (x : list DrawCall) (T : tex) (n k : nat) (e : Blaze2D)
    (r : Res unit * Blaze2D) : Prop :=
  fst r = Ret tt /\
  exists e2 blocks,
    Queue T n e2 /\ Kept x n e e2 /\ currentTexture (batch e2) = Some T /\
    Forall (fun b => length b = 36%nat) blocks /\ length blocks = k /\
    snd r = foldl pushed e2 blocks.

(** A sequence of enqueue calls that succeeds and leaves [n + k] quads. *)
Definition SeqOK (x : list DrawCall) (T : tex) (n k : nat) (e : Blaze2D)
    (r : Res unit * Blaze2D) : Prop :=
  fst r = Ret tt /\ Queue T (n + k) (snd r) /\ Kept x n e (snd r).

(** An enqueue call that succeeds and pushes exactly [blocks], in this
    order, after its texture switch. *)
Definition StepWrites (x : list DrawCall) (T : tex) (n : nat)
    (blocks : list (list Q)) (e : Blaze2D) (r : Res unit * Blaze2D) : Prop :=
  fst r = Ret tt /\
  exists e2,
    Queue T n e2 /\ Kept x n e e2 /\ currentTexture (batch e2) = Some T /\
    Forall (fun b => length b = 36%nat) blocks /\
    snd r = foldl pushed e2 blocks.

(** The vertex blocks (one per quad, 36 numbers each) that a call writes,
    in the order in which it writes them: the four corners of each quad as
    the call computes them from its arguments, the top state and the texture
    its first argument resolves to on [e]. *)
Definition opBlocks (math : MathLib) (op : EnqueueOp) (e : Blaze2D)
    : list (list Q) :=
  match stateStack (states e) with
  | [] => []
  | s :: _ =>
    let m := matrix s in
    match op with
    | OpDrawImage id args =>
        match images (textures e) !! id, result (getTexture (IRef id)) e with
        | Some img, Ret info =>
            let iw := QZ (img_width img) in
            let ih := QZ (img_height img) in
            let '(sx, sy, sw, sh, dx, dy, dw, dh) :=
              match args with
              | Args3 dx dy => (0, 0, iw, ih, dx, dy, iw, ih)
              | Args5 dx dy dw dh => (0, 0, iw, ih, dx, dy, dw, dh)
              | Args9 sx sy sw sh dx dy dw dh =>
                  (sx, sy, sw, sh, dx, dy, dw, dh)
              end in
            let '(tu0, tv0, tu1, tv1) :=
              match info with
              | RInfo i =>
                  match ti_uv i with
                  | Some uv =>
                      let iW := 1 / QZ (ti_width i) in
                      let iH := 1 / QZ (ti_height i) in
                      let aW := u1 uv - u0 uv in
                      let aH := v1 uv - v0 uv in
                      (u0 uv + (sx * iW) * aW, v0 uv + (sy * iH) * aH,
                       u0 uv + ((sx + sw) * iW) * aW,
                       v0 uv + ((sy + sh) * iH) * aH)
                  | None =>
                      (sx / iw, sy / ih, (sx + sw) / iw, (sy + sh) / ih)
                  end
              | _ => (sx / iw, sy / ih, (sx + sw) / iw, (sy + sh) / ih)
              end in
            (if shadowActive s then
               let sRGBA := parseColorRGBA math (shadowColor s) in
               let glow := shadowBlur s * (5 # 10) in
               let sA := alpha s * (5 # 10) in
               let sx0 := dx - glow in
               let sy0 := dy - glow in
               let x1 := sx0 + dw + glow * 2 in
               let y1 := sy0 + dh + glow * 2 in
               [encodeQuad (mx m sx0 sy0, my m sx0 sy0, tu0, tv0)
                           (mx m x1 sy0, my m x1 sy0, tu1, tv0)
                           (mx m x1 y1, my m x1 y1, tu1, tv1)
                           (mx m sx0 y1, my m sx0 y1, tu0, tv1) sA sRGBA]
             else [])
            ++ (let rgba := if (0 <? flash s)%Z then mkRGBA 1 1 1 10
                            else WHITE_RGBA in
                let x1 := dx + dw in
                let y1 := dy + dh in
                [encodeQuad (mx m dx dy, my m dx dy, tu0, tv0)
                            (mx m x1 dy, my m x1 dy, tu1, tv0)
                            (mx m x1 y1, my m x1 y1, tu1, tv1)
                            (mx m dx y1, my m dx y1, tu0, tv1)
                            (alpha s) rgba])
        | _, _ => []
        end
    | OpDrawTexture info x y w h a0 b0 a1 b1 rotation a flipX flipY
        tintR tintG tintB flashArg =>
        match info, result (resolveTextureArg info a0 b0 a1 b1) e with
        | DTNull, _ => []
        | _, Ret (_, (fU0, fV0, fU1, fV1)) =>
            let '(fU0, fU1) := if flipX then (fU1, fU0) else (fU0, fU1) in
            let '(fV0, fV1) := if flipY then (fV1, fV0) else (fV0, fV1) in
            let fA := a * alpha s in
            let rgba := mkRGBA tintR tintG tintB
                          (if Qgtb flashArg 0 then 10 else 1) in
            if Qeqb rotation 0 then
              let x1 := x + w in
              let y1 := y + h in
              [encodeQuad (mx m x y, my m x y, fU0, fV0)
                          (mx m x1 y, my m x1 y, fU1, fV0)
                          (mx m x1 y1, my m x1 y1, fU1, fV1)
                          (mx m x y1, my m x y1, fU0, fV1) fA rgba]
            else
              let cos := Math_cos math rotation in
              let sin := Math_sin math rotation in
              let hw := w / 2 in
              let hh := h / 2 in
              let cx := x + hw in
              let cy := y + hh in
              let rx0 := - hw * cos + hh * sin + cx in
              let ry0 := - hw * sin - hh * cos + cy in
              let rx1 := hw * cos + hh * sin + cx in
              let ry1 := hw * sin - hh * cos + cy in
              let rx2 := hw * cos - hh * sin + cx in
              let ry2 := hw * sin + hh * cos + cy in
              let rx3 := - hw * cos - hh * sin + cx in
              let ry3 := - hw * sin + hh * cos + cy in
              [encodeQuad (mx m rx0 ry0, my m rx0 ry0, fU0, fV0)
                          (mx m rx1 ry1, my m rx1 ry1, fU1, fV0)
                          (mx m rx2 ry2, my m rx2 ry2, fU1, fV1)
                          (mx m rx3 ry3, my m rx3 ry3, fU0, fV1) fA rgba]
        | _, Raise _ => []
        end
    | OpDrawSpriteFast image x y w h rotation a tint =>
        match image, result (getTexture image) e with
        | INull, _ => []
        | _, Ret texInfo =>
            let uv := match texInfo with
                      | RInfo i => default unitUV (ti_uv i)
                      | _ => unitUV
                      end in
            let hw := w * (5 # 10) in
            let hh := h * (5 # 10) in
            let cos := Math_cos math rotation in
            let sin := Math_sin math rotation in
            let lx0 := - hw * cos + hh * sin + x in
            let ly0 := - hw * sin - hh * cos + y in
            let lx1 := hw * cos + hh * sin + x in
            let ly1 := hw * sin - hh * cos + y in
            let lx2 := hw * cos - hh * sin + x in
            let ly2 := hw * sin + hh * cos + y in
            let lx3 := - hw * cos - hh * sin + x in
            let ly3 := - hw * sin + hh * cos + y in
            let rgba := default WHITE_RGBA tint in
            let fA := a * alpha s in
            let isFlash := Qgtb (rgba_a rgba) 5 in
            let cA := if isFlash then 1 else Qmin 1 (rgba_a rgba) in
            let ca := fA * cA in
            let ff := if isFlash then 2 else Qmin 1 ca in
            [[ mx m lx0 ly0; my m lx0 ly0; u0 uv; v0 uv; ca;
               rgba_r rgba; rgba_g rgba; rgba_b rgba; ff;
               mx m lx1 ly1; my m lx1 ly1; u1 uv; v0 uv; ca;
               rgba_r rgba; rgba_g rgba; rgba_b rgba; ff;
               mx m lx2 ly2; my m lx2 ly2; u1 uv; v1 uv; ca;
               rgba_r rgba; rgba_g rgba; rgba_b rgba; ff;
               mx m lx3 ly3; my m lx3 ly3; u0 uv; v1 uv; ca;
               rgba_r rgba; rgba_g rgba; rgba_b rgba; ff ]]
        | _, Raise _ => []
        end
    | OpDrawRect x y w h rgba a =>
        let x1 := x + w in
        let y1 := y + h in
        [encodeQuad (mx m x y, my m x y, 0, 0)
                    (mx m x1 y, my m x1 y, 1, 0)
                    (mx m x1 y1, my m x1 y1, 1, 1)
                    (mx m x y1, my m x y1, 0, 1) a rgba]
    end
  end.

(** The blocks of a sequence of calls, each call taken at the state in
    which it runs. *)
Fixpoint seqBlocks (math : MathLib) (ops : list EnqueueOp) (e : Blaze2D)
    : list (list Q) :=
  match ops with
  | [] => []
  | op :: rest =>
      opBlocks math op e ++ seqBlocks math rest (exec (runOp math op) e)
  end.

(** Three enqueue calls on the white texture, through three entry points. *)
Definition demoOps : list EnqueueOp :=
  [ OpDrawRect 0 0 10 10 WHITE_RGBA 1;
    OpDrawSpriteFast (ITexture 0%nat) 5 5 10 10 0 1 None;
    OpDrawTexture (DTTexture 0%nat) 20 0 10 10 0 0 1 1 0 1 false false
      1 1 1 0 ].

(** An engine with one quad of texture 5 queued. *)
Definition demoEngineSprite : Blaze2D :=
  exec (drawSpriteFast approxMath (ITexture 5%nat) 5 5 10 10 0 1 None)
       demoEngine.

(** The state the texture switch to [T] leaves. *)
Definition switched (T : tex) (e : Blaze2D) : Blaze2D :=
  if switchChanged T e
  then with_batch (set_currentTexture (Some T))
         (if (0 <? batchCount (batch e))%nat then snd (flush e) else e)
  else e.

(** ** Sequences of [save()] and [restore()] *)

Inductive StackCall := CallSave | CallRestore.

Definition runStackCall (c : StackCall) : M unit :=
  match c with CallSave => save | CallRestore => restore end.

(** The engine after a sequence of calls, whatever each call returns (a
    caller may catch an exception and go on). *)
Definition runStackCalls (cs : list StackCall) (e : Blaze2D) : Blaze2D :=
  foldl (fun e c => exec (runStackCall c) e) e cs.

(** A computation that leaves the state stack as it is. *)
Definition KeepsStack {A} (m : M A) : Prop :=
  forall e, stateStack (states (snd (m e))) = stateStack (states e).

(** The caller allocates [v = new Float32Array([0, 1, 0, 1])]. *)
Definition fillDemo : Blaze2D :=
  exec (alloc_style (OF32 [0; 1; 0; 1])) demoEngine.

(** [save(); fillStyle = v; restore(); fillStyle = v]: the root state has the
    fill style [v], and the pooled state still refers to [v]. *)
Definition fillDemoReached : Blaze2D :=
  exec (save ;;; set_fillStyle_prop approxMath (VObj 1%nat) ;;; restore ;;;
        set_fillStyle_prop approxMath (VObj 1%nat)) fillDemo.

(** [save(); fillStyle = '#ff0000'; restore()] *)
Definition saveRedRestore : M unit :=
  save ;;; set_fillStyle_prop approxMath (VStr "#ff0000") ;;; restore.

(** The caller allocates the plain array [[0, 1, 0, 1]]. *)
Definition arrayDemo : Blaze2D :=
  exec (alloc_style (OArr [0; 1; 0; 1])) demoEngine.

(** ** The atlas *)













(** ** Atlas entries stay *)



(** Three images: the second leaves no room in the first row for the
    third. *)
Definition plainImage (w h : Z) : Image :=
  {| img_width := w; img_height := h; img_needsUpdate := false;
     img_glTextureInfo := None; img_isGLTexture := false;
     img_disableAutoAtlas := false; img_uploadThrows := false |}.









(** ** Upload failures *)

(** The application marks an image dirty whose content the driver now
    rejects: [image._needsUpdate = true], and the next upload throws. *)
Definition taint (i : Image) : Image :=
  {| img_width := img_width i; img_height := img_height i;
     img_needsUpdate := true; img_glTextureInfo := img_glTextureInfo i;
     img_isGLTexture := img_isGLTexture i;
     img_disableAutoAtlas := img_disableAutoAtlas i;
     img_uploadThrows := true |}.

(** An engine that knows the 600 x 600 image 7, the engine after resolving
    it (a dedicated texture), and the latter after the image is tainted. *)
Definition bigImageEngine : Blaze2D :=
  with_textures (set_images {[ 7%nat := plainImage 600 600 ]}) demoEngine.

Definition cachedEngine : Blaze2D :=
  exec (getTexture (IRef 7%nat)) bigImageEngine.

Definition taintedEngine : Blaze2D :=
  exec (update_image 7%nat taint) cachedEngine.

(** ** Eviction *)

(** The clock advances: the next [Date.now()] reads [z]. *)
Definition setNow (z : Z) : M unit :=
  modify (fun e =>
    {| gl := gl e; batch := batch e; states := states e;
       textures := textures e; dn := dn e; view := view e; now := z |}).

(** Images [1 .. n], each 600 x 600 (too large for the atlas). *)
Definition bigImages (n : nat) : gmap imgid Image :=
  list_to_map (map (fun i => (i, plainImage 600 600)) (seq 1 n)).

(** An engine with the constructor's cache bound of 200 that knows 201
    large images. *)
Definition cacheEngine : Blaze2D :=
  with_textures (set_images (bigImages 201))
    (mkEngine 4 4 200 800 600 4096 digitFont).

(** Resolve the images in order, one per millisecond. *)
Definition resolveAll (ids : list imgid) (e : Blaze2D) : Blaze2D :=
  foldl (fun e id => exec (setNow (Z.of_nat id) ;;; getTexture (IRef id)) e)
        e ids.

Definition fullCacheEngine : Blaze2D := resolveAll (seq 1 201) cacheEngine.

(** The textures deleted in a command trace, in order. *)
Definition deletedTextures (log : list GLCommand) : list tex :=
  omap (fun c => match c with GL_deleteTexture t => Some t | _ => None end)
       log.

(** ** Capacity of the sprite batch *)

(** The batch is within its capacity and the arena has its full length. *)
Definition Bounded (e : Blaze2D) : Prop :=
  (0 < maxBatchSize (batch e))%nat
  /\ (batchCount (batch e) <= maxBatchSize (batch e))%nat
  /\ arenaOK e.

(** There is room for one more quad. *)
Definition Room (e : Blaze2D) : Prop :=
  (batchCount (batch e) < maxBatchSize (batch e))%nat /\ arenaOK e.

(** [m] takes a state in [P] to a state in [Q], whatever it returns. *)
Definition Triple {A} (P : Blaze2D -> Prop) (m : M A) (Q : Blaze2D -> Prop)
    : Prop :=
  forall e, P e -> Q (snd (m e)).


(** An engine of capacity 4 that knows the 16 x 16 image 7, after three
    [drawImage] calls of it and with a shadow switched on. *)
Definition shadowEngine : Blaze2D :=
  exec (drawImage approxMath (Some 7%nat) (Args3 0 0) ;;;
        drawImage approxMath (Some 7%nat) (Args3 20 0) ;;;
        drawImage approxMath (Some 7%nat) (Args3 40 0) ;;;
        set_shadowBlur_prop 4 ;;;
        set_shadowColor_prop "#000000")
       (with_textures (set_images {[ 7%nat := plainImage 16 16 ]}) demoEngine).

(** ** The state stack and the blend function *)

(** A property of the engine that does not depend on the batch, the
    texture tables or the command trace. *)
Record Stable (J : Blaze2D -> Prop) : Prop := {
  st_frame : forall e e', frame e e' -> J e -> J e';
  st_flush : forall e, J e -> J (snd (flush e));
  st_batch : forall e f, J e -> J (with_batch f e)
}.

(** What [_copyState] has assigned to [to'] after [i] of its steps. *)
Definition copiedUpTo (from to : RenderState) (i : nat) (to' : RenderState)
    : Prop :=
  lineCap to' = lineCap to /\ lineJoin to' = lineJoin to /\
  ((1 <= i)%nat ->
   matrix to' = matrix from /\ alpha to' = alpha from /\
   flash to' = flash from /\ fillStyle to' = fillStyle from) /\
  ((4 <= i)%nat -> strokeStyle to' = strokeStyle from) /\
  ((7 <= i)%nat ->
   lineWidth to' = lineWidth from /\ font to' = font from /\
   textAlign to' = textAlign from /\ textBaseline to' = textBaseline from /\
   globalCompositeOperation to' = globalCompositeOperation from /\
   shadowBlur to' = shadowBlur from /\ shadowColor to' = shadowColor from).

(** A computation that changes the state stack, its pool and the style
    objects only. *)
Definition StatesOnly {A} (m : M A) : Prop :=
  forall e, snd (m e) = with_states (fun _ => states (snd (m e))) e.

(** The engine after [restore()] has moved the top state to the pool. *)
Definition popped (e : Blaze2D) : Blaze2D :=
  with_states (fun st =>
    {| stateStack := tail (stateStack st);
       statePool := take 1 (stateStack st) ++ statePool st;
       styleHeap := styleHeap st |}) e.

(** The blend function of the GL context is the one of the composite mode
    of the top state. *)
Definition BlendOK (e : Blaze2D) : Prop :=
  exists s rest,
    stateStack (states e) = s :: rest /\
    gl_blend (gl e)
    = blendFuncFor (effectiveMode (globalCompositeOperation s)).

(** A computation that keeps the stack below the top state, the composite
    mode of the top state and the GL context. *)
Definition KeepsMode {A} (m : M A) : Prop :=
  forall e s rest,
    stateStack (states e) = s :: rest ->
    exists s',
      stateStack (states (snd (m e))) = s' :: rest /\
      globalCompositeOperation s' = globalCompositeOperation s /\
      gl (snd (m e)) = gl e.

(** Calls of the drawing context that a frame is made of. *)
Inductive ApiCall :=
| ApiSave
| ApiRestore
| ApiComposite (v : string)
| ApiFillStyle (v : jsval)
| ApiStrokeStyle (v : jsval)
| ApiGlobalAlpha (v : Q)
| ApiTranslate (x y : Q)
| ApiScale (sx sy : Q)
| ApiRotate (angle : Q)
| ApiSetTransform (a b c d e f : Q)
| ApiEnqueue (op : EnqueueOp)
| ApiFlush.

Definition runApiCall (math : MathLib) (c : ApiCall) : M unit :=
  match c with
  | ApiSave => save
  | ApiRestore => restore
  | ApiComposite v => set_globalCompositeOperation_prop v
  | ApiFillStyle v => set_fillStyle_prop math v
  | ApiStrokeStyle v => set_strokeStyle_prop math v
  | ApiGlobalAlpha v => set_globalAlpha_prop v
  | ApiTranslate x y => translate x y
  | ApiScale sx sy => scale sx sy
  | ApiRotate angle => rotate math angle
  | ApiSetTransform a b c d e f => setTransform a b c d e f
  | ApiEnqueue op => runOp math op
  | ApiFlush => flush
  end.

(** The engine after a sequence of calls, whatever each call returns. *)
Definition runApiCalls (math : MathLib) (cs : list ApiCall) (e : Blaze2D)
    : Blaze2D :=
  foldl (fun e c => exec (runApiCall math c) e) e cs.

(** [save(); globalCompositeOperation = 'lighter'; _drawRect(...)] on a
    fresh engine: one quad is queued under the additive blend function,
    and the state below the top still has the default mode. *)
Definition lighterQuad : Blaze2D :=
  runApiCalls approxMath
    [ApiSave; ApiComposite "lighter";
     ApiEnqueue (OpDrawRect 0 0 10 10 WHITE_RGBA 1)] demoEngine.

(** * Properties *)

(** ** Comparisons on rationals *)



Lemma Qleb_true (a b : Q) : Qleb a b = true <-> a <= b.
Proof. apply Qle_bool_iff. Qed.

Lemma Qleb_false (a b : Q) : Qleb a b = false <-> b < a.
Proof.
  unfold Qleb. split.
  - intros H. apply Qnot_le_lt. intros Hle.
    apply Qle_bool_iff in Hle. congruence.
  - intros H. destruct (Qle_bool a b) eqn:E; [|reflexivity].
    apply Qle_bool_iff in E. exfalso. apply (Qlt_not_le _ _ H E).
Qed.





(** ** Damage numbers: the time window of the vertex stage *)




Lemma Qeqb_true (a b : Q) : a == b -> Qeqb a b = true.
Proof. intros H. unfold Qeqb. apply Qeq_bool_iff. exact H. Qed.















(** ** The monad: evaluation lemmas *)

Lemma bind_Ret {A B} (m : M A) (k : A -> M B) e a e' :
  m e = (Ret a, e') -> bind m k e = k a e'.
Proof. intros H. unfold bind. rewrite H. reflexivity. Qed.

Lemma bind_Raise {A B} (m : M A) (k : A -> M B) e x e' :
  m e = (Raise x, e') -> bind m k e = (Raise x, e').
Proof. intros H. unfold bind. rewrite H. reflexivity. Qed.

(** ** [flush] *)

Lemma flush_empty e : batchCount (batch e) = 0%nat -> flush e = (Ret tt, e).
Proof. intros H. unfold flush. rewrite H. reflexivity. Qed.

Lemma flush_result e : fst (flush e) = Ret tt.
Proof.
  unfold flush. destruct (Nat.eqb _ _); reflexivity.
Qed.

Lemma flush_nonempty e :
  batchCount (batch e) <> 0%nat ->
  let e' := snd (flush e) in
  gl_log (gl e') = gl_log (gl e) ++ [GL_drawElements (pendingDraw e)] /\
  gl_blend (gl e') = gl_blend (gl e) /\
  gl_nextTexture (gl e') = gl_nextTexture (gl e) /\
  batchCount (batch e') = 0%nat /\
  currentTexture (batch e') = None /\
  vertexData (batch e') = vertexData (batch e) /\
  maxBatchSize (batch e') = maxBatchSize (batch e) /\
  drawCallCount (batch e') = S (drawCallCount (batch e)) /\
  triangleCount (batch e') = (triangleCount (batch e) + batchCount (batch e) * 2)%nat /\
  states e' = states e /\ textures e' = textures e /\ dn e' = dn e /\
  view e' = view e /\ now e' = now e.
Proof.
  intros H. unfold flush. apply Nat.eqb_neq in H. rewrite H.
  cbn. repeat split; reflexivity.
Qed.

Lemma updateBlendMode_spec e s rest :
  stateStack (states e) = s :: rest ->
  updateBlendMode e
  = (Ret tt, with_gl (fun g =>
       {| gl_log := gl_log g;
          gl_blend := blendFuncFor (effectiveMode (globalCompositeOperation s));
          gl_nextTexture := gl_nextTexture g |}) e).
Proof.
  intros H. unfold updateBlendMode, get_globalCompositeOperation, get_state, bind, ret.
  rewrite H. unfold blendFuncFor, effectiveMode.
  destruct (bool_decide (globalCompositeOperation s = "")); cbn;
  repeat (match goal with |- context [bool_decide ?P] => destruct (bool_decide P) end; cbn);
  reflexivity.
Qed.

Lemma flush_states e : states (snd (flush e)) = states e.
Proof.
  destruct (Nat.eq_dec (batchCount (batch e)) 0%nat) as [H|H].
  - rewrite flush_empty by exact H. reflexivity.
  - apply (flush_nonempty e H).
Qed.

Lemma flush_eta e : flush e = (Ret tt, snd (flush e)).
Proof. rewrite <- (flush_result e). destruct (flush e); reflexivity. Qed.

Lemma update_state_ok (f : RenderState -> RenderState) e s rest :
  stateStack (states e) = s :: rest ->
  update_state f e
  = (Ret tt, with_states (fun st =>
       {| stateStack := f s :: rest; statePool := statePool st;
          styleHeap := styleHeap st |}) e).
Proof. intros H. unfold update_state. rewrite H. reflexivity. Qed.

Lemma get_state_ok e s rest :
  stateStack (states e) = s :: rest -> get_state e = (Ret s, e).
Proof. intros H. unfold get_state. rewrite H. reflexivity. Qed.

Lemma set_gco_changed e s rest v :
  stateStack (states e) = s :: rest ->
  globalCompositeOperation s <> v ->
  set_globalCompositeOperation_prop v e
  = (Ret tt,
     with_gl (fun g =>
       {| gl_log := gl_log g; gl_blend := blendFuncFor (effectiveMode v);
          gl_nextTexture := gl_nextTexture g |})
     (with_states (fun st =>
       {| stateStack := set_globalCompositeOperation v s :: rest;
          statePool := statePool st; styleHeap := styleHeap st |})
     (snd (flush e)))).
Proof.
  intros Hstack H. unfold set_globalCompositeOperation_prop.
  erewrite bind_Ret by (eapply get_state_ok; eassumption).
  rewrite bool_decide_false by exact H.
  erewrite bind_Ret by apply flush_eta.
  erewrite bind_Ret
    by (eapply update_state_ok; rewrite flush_states; eassumption).
  erewrite updateBlendMode_spec by reflexivity. reflexivity.
Qed.

Lemma flush_view e : view (snd (flush e)) = view e.
Proof.
  destruct (Nat.eq_dec (batchCount (batch e)) 0%nat) as [H|H].
  - rewrite flush_empty by exact H. reflexivity.
  - apply (flush_nonempty e H).
Qed.
(** ** Composite mode and style setters *)

(** C4.  Assigning [globalCompositeOperation] a value different from the one
    of the top state flushes the sprite batch first: the queued quads are
    submitted with the blend function in force before the assignment, the
    batch is empty afterwards, and only then is the mode recorded in the top
    state and the blend function switched.  Assigning the value already set
    changes nothing, and so does assigning [fillStyle] or [strokeStyle] the
    value they already have. *)
Theorem composite_change_flushes_first (e : Blaze2D) (s : RenderState)
    (rest : list RenderState) (v : string) (w : jsval) (math : MathLib)
    (Hstack : stateStack (states e) = s :: rest) :
  (globalCompositeOperation s = v ->
   set_globalCompositeOperation_prop v e = (Ret tt, e)) /\
  (globalCompositeOperation s <> v ->
   let e' := exec (set_globalCompositeOperation_prop v) e in
   result (set_globalCompositeOperation_prop v) e = Ret tt /\
   gl_log (gl e')
   = gl_log (gl e)
     ++ (if Nat.eqb (batchCount (batch e)) 0%nat then []
         else [GL_drawElements (pendingDraw e)]) /\
   dc_blend (pendingDraw e) = gl_blend (gl e) /\
   batchCount (batch e') = 0%nat /\
   stateStack (states e') = set_globalCompositeOperation v s :: rest /\
   gl_blend (gl e') = blendFuncFor (effectiveMode v)) /\
  (js_strict_eq (fillStyle s) w = true ->
   set_fillStyle_prop math w e = (Ret tt, e)) /\
  (js_strict_eq (strokeStyle s) w = true ->
   set_strokeStyle_prop math w e = (Ret tt, e)).
Proof.
  split; [|split; [|split]].
  - intros H. unfold set_globalCompositeOperation_prop, bind, get_state.
    rewrite Hstack. rewrite bool_decide_true by exact H. reflexivity.
  - intros H. unfold exec, result.
    rewrite (set_gco_changed e s rest v Hstack H). cbn.
    repeat split.
    + destruct (Nat.eqb (batchCount (batch e)) 0) eqn:E.
      * apply Nat.eqb_eq in E. rewrite flush_empty by exact E. cbn.
        rewrite app_nil_r. reflexivity.
      * apply Nat.eqb_neq in E. apply (flush_nonempty e E).
    + destruct (Nat.eq_dec (batchCount (batch e)) 0%nat) as [E|E].
      * rewrite flush_empty by exact E. exact E.
      * apply (flush_nonempty e E).
  - intros H. unfold set_fillStyle_prop, bind, get_state. rewrite Hstack, H.
    reflexivity.
  - intros H. unfold set_strokeStyle_prop, bind, get_state. rewrite Hstack, H.
    reflexivity.
Qed.

Lemma composite_change_flushes_first_witness :
  gl_blend (gl (exec (set_globalCompositeOperation_prop "lighter") demoEngineQuad))
  = (GL_ONE, GL_ONE) /\
  batchCount (batch (exec (set_globalCompositeOperation_prop "lighter")
                          demoEngineQuad)) = 0%nat /\
  length (gl_log (gl (exec (set_globalCompositeOperation_prop "lighter")
                           demoEngineQuad))) = 1%nat.
Proof.
  pose proof (composite_change_flushes_first demoEngineQuad demoState []
                "lighter" VNull approxMath eq_refl) as [_ [H _]].
  assert (Hne : globalCompositeOperation demoState <> "lighter") by discriminate.
  destruct (H Hne) as (_ & Hlog & _ & Hb & _ & Hbl).
  split; [exact Hbl|]. split; [exact Hb|].
  rewrite Hlog. reflexivity.
Defined.

Lemma drain_snoc (rest : list RenderState) root pool :
  drain (rest ++ [root]) pool = ([root], rev rest ++ pool).
Proof.
  revert pool. induction rest as [|s rest IH]; intros pool; [reflexivity|].
  cbn [app]. destruct (rest ++ [root]) as [|x l] eqn:E.
  - destruct rest; discriminate.
  - change (drain (s :: x :: l) pool) with (drain (x :: l) (s :: pool)).
    rewrite IH. cbn [rev]. rewrite <- app_assoc. reflexivity.
Qed.

Lemma f32_set_same_length (tgt src : list Q) :
  length tgt = length src -> f32_set tgt src = Some src.
Proof.
  intros H. unfold f32_set. rewrite H, Nat.ltb_irrefl.
  rewrite <- H, drop_all, app_nil_r. reflexivity.
Qed.

Lemma copyState_typed from to e fsrc fdst :
  styleHeap (states e) !! fillStyleRGBA from = Some (OF32 fsrc) ->
  styleHeap (states e) !! fillStyleRGBA to = Some (OF32 fdst) ->
  length fsrc = 4%nat -> length fdst = 4%nat ->
  length (strokeStyleRGBA from) = 4%nat ->
  length (strokeStyleRGBA to) = 4%nat ->
  copyState from to e
  = (Ret (None, copied from to),
     set_styleHeap (<[fillStyleRGBA to := OF32 fsrc]> (styleHeap (states e))) e).
Proof.
  intros Hf Ht Hfl Htl Hsf Hst.
  unfold copyState, run_steps.
  repeat first
    [ progress (unfold bind, ret, read_style, alloc_style, style_set,
                write_style, modify, raise; cbn -[f32_set])
    | rewrite Hf | rewrite Ht | rewrite Htl | rewrite Hst
    | rewrite (f32_set_same_length fdst fsrc) by congruence
    | rewrite (f32_set_same_length _ _ (eq_trans Hst (eq_sym Hsf))) ].
  reflexivity.
Qed.

Lemma resetState_ok e rest root d :
  stateStack (states e) = rest ++ [root] ->
  styleHeap (states e) !! fillStyleRGBA root = Some (OF32 d) ->
  length d = 4%nat ->
  length (strokeStyleRGBA root) = 4%nat ->
  resetState e = (Ret tt, resetEngine e rest root).
Proof.
  intros Hstack Hheap Hd Hs.
  unfold resetState.
  unfold bind at 1. cbn [modify].
  unfold bind at 1. cbn [modify].
  unfold bind at 1. cbn [gets with_batch states].
  unfold bind at 1. cbn [gets with_batch states].
  rewrite Hstack, drain_snoc. cbn [fst snd].
  unfold bind at 1. cbn [set_stateStack modify].
  unfold bind at 1. cbn [set_statePool modify].
  unfold bind at 1. unfold get_state at 1. cbn [stateStack states with_states with_batch].
  unfold bind at 1. unfold createDefaultState at 1.
  unfold bind at 1. unfold alloc_style at 1. cbn [styleHeap states with_states with_batch ret].
  unfold bind at 1.
  erewrite copyState_typed; cycle 1.
  - cbn. apply list_lookup_middle. reflexivity.
  - cbn. apply lookup_app_l_Some. exact Hheap.
  - reflexivity.
  - exact Hd.
  - reflexivity.
  - exact Hs.
  - unfold bind at 1. unfold update_state at 1. cbn [stateStack states set_styleHeap with_states with_batch].
    unfold set_stateStack, modify. cbn [snd fst].
    unfold bind, gets, update_state. cbn.
    unfold set_globalCompositeOperation_prop, bind, get_state. cbn.
    rewrite bool_decide_true by reflexivity. unfold ret.
    erewrite updateBlendMode_spec by (cbn; reflexivity).
    assert (Hb : blendFuncFor (effectiveMode "source-over")
                 = (GL_ONE, GL_ONE_MINUS_SRC_ALPHA)) by (vm_compute; reflexivity).
    cbn [globalCompositeOperation set_matrix copied]. rewrite Hb.
    unfold resetEngine. reflexivity.
Qed.

Lemma clear_ok e rest root d :
  stateStack (states e) = rest ++ [root] ->
  styleHeap (states e) !! fillStyleRGBA root = Some (OF32 d) ->
  length d = 4%nat ->
  length (strokeStyleRGBA root) = 4%nat ->
  clear e
  = (Ret tt,
     resetEngine
       (with_gl (fun g =>
          {| gl_log := gl_log g ++ [GL_clear]; gl_blend := gl_blend g;
             gl_nextTexture := gl_nextTexture g |}) (snd (flush e)))
       rest root).
Proof.
  intros Hstack Hheap Hd Hs. unfold clear.
  erewrite bind_Ret by apply flush_eta.
  erewrite bind_Ret by reflexivity.
  apply resetState_ok with (d := d); cbn; rewrite ?flush_states; assumption.
Qed.
(** ** [clearRect] and [clear] *)

(** C10.  With a non-zero device pixel ratio, [clearRect(x, y, w, h)] is
    [clear()] exactly when [x <= 1], [y <= 1], [w >= width/dpr - 1] and
    [h >= height/dpr - 1], and it leaves the engine untouched (no command,
    no change of the batch or of the state stack) for every other rectangle.
    [clear()] itself, on an engine whose root state owns a four-entry typed
    fill buffer, submits the pending batch, issues the clear, empties the
    batch and leaves the reset root as the only state. *)
Theorem clearRect_only_full_canvas (e : Blaze2D) (x y w h : Q)
    (Hdpr : ~ dpr (view e) == 0) :
  (x <= 1 /\ y <= 1 /\ width (view e) / dpr (view e) - 1 <= w
   /\ height (view e) / dpr (view e) - 1 <= h ->
   clearRect x y w h e = clear e) /\
  (~ (x <= 1 /\ y <= 1 /\ width (view e) / dpr (view e) - 1 <= w
      /\ height (view e) / dpr (view e) - 1 <= h) ->
   clearRect x y w h e = (Ret tt, e)) /\
  (forall rest root d,
     stateStack (states e) = rest ++ [root] ->
     styleHeap (states e) !! fillStyleRGBA root = Some (OF32 d) ->
     length d = 4%nat ->
     length (strokeStyleRGBA root) = 4%nat ->
     result clear e = Ret tt /\
     gl_log (gl (exec clear e)) = gl_log (gl (exec flush e)) ++ [GL_clear] /\
     batchCount (batch (exec clear e)) = 0%nat /\
     currentTexture (batch (exec clear e)) = None /\
     stateStack (states (exec clear e)) = [resetRoot (dpr (view e)) root]).
Proof.
  assert (Hq : Qeqb (dpr (view e)) 0 = false).
  { unfold Qeqb. destruct (Qeq_bool _ _) eqn:E; [|reflexivity].
    apply Qeq_bool_iff in E. contradiction. }
  assert (Hcond : forall a v, ge_quot_minus v a (dpr (view e)) 1 = true
                              <-> a / dpr (view e) - 1 <= v).
  { intros a v. unfold ge_quot_minus. rewrite Hq. unfold Qgeb.
    apply Qle_bool_iff. }
  split; [|split].
  - intros (Hx & Hy & Hw & Hh). unfold clearRect, bind, gets.
    apply Qleb_true in Hx, Hy. apply Hcond in Hw, Hh.
    rewrite Hx, Hy, Hw, Hh. reflexivity.
  - intros Hn. unfold clearRect, bind, gets.
    destruct (Qleb x 1) eqn:Ex; [|reflexivity].
    destruct (Qleb y 1) eqn:Ey; [|reflexivity].
    destruct (ge_quot_minus w _ _ _) eqn:Ew; [|reflexivity].
    destruct (ge_quot_minus h _ _ _) eqn:Eh; [|reflexivity].
    exfalso. apply Hn. apply Qleb_true in Ex, Ey. apply Hcond in Ew, Eh.
    auto.
  - intros rest root d Hstack Hheap Hd Hs. unfold result, exec.
    rewrite (clear_ok e rest root d Hstack Hheap Hd Hs).
    cbn. rewrite (flush_view e), Hq. repeat split; reflexivity.
Qed.

Lemma clearRect_only_full_canvas_witness :
  ~ dpr (view demoEngineQuad) == 0 /\
  clearRect 0 0 800 600 demoEngineQuad = clear demoEngineQuad /\
  clearRect 10 10 100 100 demoEngineQuad = (Ret tt, demoEngineQuad) /\
  length (gl_log (gl (exec clear demoEngineQuad))) = 2%nat.
Proof.
  assert (Hdpr : ~ dpr (view demoEngineQuad) == 0) by (intros H; discriminate H).
  pose proof (clearRect_only_full_canvas demoEngineQuad 0 0 800 600 Hdpr)
    as (Hfull & _ & Hclear).
  pose proof (clearRect_only_full_canvas demoEngineQuad 10 10 100 100 Hdpr)
    as (_ & Hnone & _).
  split; [exact Hdpr|]. split; [|split].
  - apply Hfull. vm_compute. repeat split; discriminate.
  - apply Hnone. intros (_ & _ & Hw & _). vm_compute in Hw. apply Hw. reflexivity.
  - destruct (Hclear [] demoState [1; 1; 1; 1] eq_refl eq_refl eq_refl eq_refl)
      as (_ & Hlog & _).
    rewrite Hlog. reflexivity.
Defined.

(** ** Writing a quad into the arena *)

Lemma store_from_splice (vals d : list Q) (o : nat) :
  (o + length vals <= length d)%nat ->
  store_from o vals d = splice d o vals.
Proof.
  revert d o. induction vals as [|v vals IH]; intros d o Hlen.
  - cbn. unfold splice. cbn. rewrite Nat.add_0_r, take_drop. reflexivity.
  - cbn [store_from]. cbn [length] in Hlen.
    rewrite IH by (rewrite length_insert; lia).
    unfold splice.
    rewrite (take_S_r _ o v) by (apply list_lookup_insert_eq; lia).
    rewrite take_insert_ge by lia.
    rewrite drop_insert_lt by lia.
    rewrite <- app_assoc. cbn [app length].
    replace (S o + length vals)%nat with (o + S (length vals))%nat by lia.
    reflexivity.
Qed.

Lemma addVertex_data_store d o x y u v a rgba :
  addVertex_data d o x y u v a rgba = store_from o (encodeVertex x y u v a rgba) d.
Proof.
  unfold addVertex_data, encodeVertex. cbn [store_from].
  replace (o + 1)%nat with (S o) by lia.
  replace (o + 2)%nat with (S (S o)) by lia.
  replace (o + 3)%nat with (S (S (S o))) by lia.
  replace (o + 4)%nat with (S (S (S (S o)))) by lia.
  replace (o + 5)%nat with (S (S (S (S (S o))))) by lia.
  replace (o + 6)%nat with (S (S (S (S (S (S o)))))) by lia.
  replace (o + 7)%nat with (S (S (S (S (S (S (S o))))))) by lia.
  replace (o + 8)%nat with (S (S (S (S (S (S (S (S o)))))))) by lia.
  reflexivity.
Qed.

Lemma store_from_app (a b d : list Q) (o : nat) :
  store_from o (a ++ b) d = store_from (o + length a) b (store_from o a d).
Proof.
  revert d o. induction a as [|x a IH]; intros d o.
  - cbn. rewrite Nat.add_0_r. reflexivity.
  - cbn [app store_from length]. rewrite IH. f_equal. lia.
Qed.

(** ** What the texture manager leaves alone *)

Lemma frame_refl e : frame e e.
Proof. split; reflexivity. Qed.

Lemma frame_trans e1 e2 e3 : frame e1 e2 -> frame e2 e3 -> frame e1 e3.
Proof.
  intros [] []. split; etransitivity; eassumption.
Qed.

Lemma Frame_ret {A} (a : A) : Frame (ret a).
Proof. intros e. apply frame_refl. Qed.

Lemma Frame_raise {A} x : Frame (@raise A x).
Proof. intros e. apply frame_refl. Qed.

Lemma Frame_gets {A} (f : Blaze2D -> A) : Frame (gets f).
Proof. intros e. apply frame_refl. Qed.

Lemma Frame_bind {A B} (m : M A) (k : A -> M B) :
  Frame m -> (forall a, Frame (k a)) -> Frame (bind m k).
Proof.
  intros Hm Hk e. unfold bind. specialize (Hm e).
  destruct (m e) as [[a|x] e']; cbn in *; [|exact Hm].
  eapply frame_trans; [exact Hm | apply Hk].
Qed.

Lemma Frame_try_catch {A} (m h : M A) : Frame m -> Frame h -> Frame (try_catch m h).
Proof.
  intros Hm Hh e. unfold try_catch. specialize (Hm e).
  destruct (m e) as [[a|x] e']; cbn in *; [exact Hm|].
  eapply frame_trans; [exact Hm | apply Hh].
Qed.

Lemma Frame_when b (m : M unit) : Frame m -> Frame (when b m).
Proof. intros H. destruct b; [exact H | apply Frame_ret]. Qed.

Lemma drawCalls_app l1 l2 : drawCalls (l1 ++ l2) = drawCalls l1 ++ drawCalls l2.
Proof. apply omap_app. Qed.

Lemma Frame_gl_emit c : isDraw c = false -> Frame (gl_emit c).
Proof.
  intros H e. split; try reflexivity. cbn.
  rewrite drawCalls_app. destruct c; try discriminate; cbn; apply app_nil_r.
Qed.

Lemma Frame_gl_createTexture : Frame gl_createTexture.
Proof. intros e. split; reflexivity. Qed.

Lemma Frame_modify_textures (f : Textures -> Textures) :
  (forall t, whiteTexture (f t) = whiteTexture t) ->
  Frame (modify (with_textures f)).
Proof. intros H e. split; try reflexivity. cbn. apply H. Qed.

Lemma Frame_update_image id f : Frame (update_image id f).
Proof. apply Frame_modify_textures. reflexivity. Qed.

Ltac frame_step :=
  first
    [ apply Frame_ret | apply Frame_raise | apply Frame_gets
    | apply Frame_update_image | apply Frame_gl_createTexture
    | apply Frame_gl_emit; reflexivity
    | apply Frame_modify_textures; intros; reflexivity
    | apply Frame_when | apply Frame_try_catch
    | apply Frame_bind; [|intros] ].

Lemma Frame_gl_texImage2D t id img : Frame (gl_texImage2D t id img).
Proof. unfold gl_texImage2D. destruct (img_uploadThrows img); repeat frame_step. Qed.

Lemma Frame_gl_texSubImage2D t x y id img : Frame (gl_texSubImage2D t x y id img).
Proof. unfold gl_texSubImage2D. destruct (img_uploadThrows img); repeat frame_step. Qed.

Lemma Frame_addToAtlas id img : Frame (addToAtlas id img).
Proof.
  unfold addToAtlas.
  destruct (_ || _); [apply Frame_ret|].
  repeat frame_step.
  destruct (_ <? _)%Z; [apply Frame_ret|].
  repeat (first [apply Frame_gl_texSubImage2D | frame_step]).
  match goal with |- Frame (if ?b then _ else _) => destruct b end;
    repeat frame_step.
Qed.

Lemma Frame_updateInAtlas id img : Frame (updateInAtlas id img).
Proof.
  unfold updateInAtlas. repeat frame_step.
  destruct (JSMap.get id _); repeat (first [apply Frame_gl_texSubImage2D | frame_step]).
Qed.

Lemma Frame_cleanup_one img : Frame (cleanup_one img).
Proof.
  unfold cleanup_one. repeat frame_step.
  destruct (JSMap.get img _); [|apply Frame_ret].
  destruct (negb _); repeat frame_step.
Qed.

Lemma Frame_cleanup_loop l : Frame (cleanup_loop l).
Proof.
  induction l as [|[img ?] l IH]; cbn [cleanup_loop]; [apply Frame_ret|].
  apply Frame_bind; [apply Frame_cleanup_one | intros; exact IH].
Qed.

Lemma Frame_cleanupTextures : Frame cleanupTextures.
Proof.
  unfold cleanupTextures. apply Frame_bind; [apply Frame_gets|intros].
  apply Frame_cleanup_loop.
Qed.

Lemma Frame_getTexture_image id img : Frame (getTexture_image id img).
Proof.
  unfold getTexture_image.
  destruct (img_glTextureInfo img) as [info|], (img_needsUpdate img);
    try apply Frame_ret;
    (destruct (img_isGLTexture img); [repeat frame_step|]);
    (apply Frame_bind; [apply Frame_gets|intros t]);
    (destruct (JSMap.get id (atlasCache t));
     [repeat (first [apply Frame_updateInAtlas | frame_step])|]);
    (apply Frame_bind;
     [destruct (_ && _); [apply Frame_addToAtlas | apply Frame_ret]|intros placed]);
    (destruct placed; [repeat frame_step|]);
    (apply Frame_bind; [apply Frame_gets|intros t']);
    (apply Frame_bind;
     [destruct (JSMap.get id (textureCache t'));
      repeat (first [apply Frame_cleanupTextures | apply Frame_gl_texImage2D | frame_step]);
      match goal with |- Frame (if ?b then _ else _) => destruct b end;
      repeat frame_step
     |intros r; destruct r; repeat frame_step]).
Qed.

Lemma Frame_getTexture image : Frame (getTexture image).
Proof.
  destruct image; cbn [getTexture]; repeat frame_step.
  destruct (images a !! id); [apply Frame_getTexture_image | apply Frame_raise].
Qed.

(** ** Enqueue calls, step by step *)

Lemma addVertex_store o x y u v a rgba e :
  addVertex o x y u v a rgba e
  = (Ret tt, with_batch (fun b =>
       set_vertexData (store_from o (encodeVertex x y u v a rgba)
                         (vertexData b)) b) e).
Proof.
  destruct e as [g b st tx d vw n]. unfold addVertex, modify, with_batch.
  cbn [batch]. rewrite addVertex_data_store. reflexivity.
Qed.

Lemma addQuad_store o c0 c1 c2 c3 a rgba e :
  addQuad o c0 c1 c2 c3 a rgba e
  = (Ret tt, with_batch (fun b =>
       set_vertexData (store_from o (encodeQuad c0 c1 c2 c3 a rgba)
                         (vertexData b)) b) e).
Proof.
  destruct c0 as [[[x0 y0] s0] t0], c1 as [[[x1 y1] s1] t1],
    c2 as [[[x2 y2] s2] t2], c3 as [[[x3 y3] s3] t3].
  unfold addQuad.
  erewrite bind_Ret by apply addVertex_store.
  erewrite bind_Ret by apply addVertex_store.
  erewrite bind_Ret by apply addVertex_store.
  rewrite addVertex_store.
  destruct e as [g b st tx d v n]; destruct b as [mb vd bc ct dcc tc].
  unfold with_batch, set_vertexData.
  cbn [batch vertexData maxBatchSize batchCount currentTexture drawCallCount
       triangleCount].
  unfold encodeQuad, encodeCorner. rewrite !store_from_app.
  cbn [length encodeVertex]. rewrite Nat.add_0_r.
  replace (o + 9 + 9)%nat with (o + 18)%nat by lia.
  replace (o + 18 + 9)%nat with (o + 27)%nat by lia.
  reflexivity.
Qed.

Lemma encodeQuad_length c0 c1 c2 c3 a rgba :
  length (encodeQuad c0 c1 c2 c3 a rgba) = 36%nat.
Proof.
  destruct c0 as [[[? ?] ?] ?], c1 as [[[? ?] ?] ?],
    c2 as [[[? ?] ?] ?], c3 as [[[? ?] ?] ?]. reflexivity.
Qed.

Lemma push_quad c0 c1 c2 c3 a rgba e :
  (batchCount (batch e) * 36 + 36 <= length (vertexData (batch e)))%nat ->
  (b <- gets batch ;;
   addQuad (batchCount b * vertexCountPerSprite) c0 c1 c2 c3 a rgba ;;;
   incr_batchCount) e
  = (Ret tt, pushed e (encodeQuad c0 c1 c2 c3 a rgba)).
Proof.
  intros Hlen. unfold bind at 1. cbn [gets]. unfold bind.
  rewrite addQuad_store. unfold incr_batchCount, modify, pushed.
  destruct e as [g b st tx d v n]; destruct b as [mb vd bc ct dcc tc].
  unfold with_batch, set_vertexData, set_batchCount.
  cbn [batch vertexData maxBatchSize batchCount currentTexture drawCallCount
       triangleCount] in *.
  rewrite store_from_splice
    by (rewrite encodeQuad_length; change vertexCountPerSprite with 36%nat; lia).
  reflexivity.
Qed.

Lemma Kept_refl n e : Kept [] n e e.
Proof. split; try reflexivity. symmetry. apply app_nil_r. Qed.

Lemma Kept_trans x n e1 e2 e3 :
  Kept x n e1 e2 -> Kept [] n e2 e3 -> Kept x n e1 e3.
Proof.
  intros [] []. split; try (etransitivity; eassumption).
  rewrite k_draws1, app_nil_r. assumption.
Qed.

Lemma Kept_le x n m e e' : (m <= n)%nat -> Kept x n e e' -> Kept x m e e'.
Proof.
  intros Hle []. split; try assumption.
  rewrite <- (Nat.min_l (m * 36) (n * 36)) by lia.
  rewrite <- !take_take. congruence.
Qed.

Lemma Kept_frame n e e' : frame e e' -> Kept [] n e e'.
Proof.
  intros []. split; try assumption; try congruence.
  rewrite app_nil_r. assumption.
Qed.

Lemma pushed_Queue T n e block :
  Queue T n e -> length block = 36%nat ->
  (n < maxBatchSize (batch e))%nat ->
  currentTexture (batch e) = Some T ->
  Queue T (S n) (pushed e block) /\ Kept [] n e (pushed e block).
Proof.
  intros [Hc Ha Ht] Hb Hn Hcur. split; split; cbn; try reflexivity.
  - congruence.
  - unfold splice. rewrite !length_app, length_take, length_drop, Hb, Hc, Ha.
    change vertexCountPerSprite with 36%nat. lia.
  - intros _. exact Hcur.
  - symmetry. apply app_nil_r.
  - unfold splice. rewrite Hc. change vertexCountPerSprite with 36%nat.
    rewrite take_app_le by (rewrite length_take; lia).
    rewrite take_take, Nat.min_id. reflexivity.
Qed.

Lemma switched_unchanged T e :
  arenaOK e -> switchChanged T e = false -> SwitchedTo T e e.
Proof.
  intros Ha Hc. unfold SwitchedTo, switchKeeps, switchDraws. rewrite Hc.
  cbn [andb]. unfold switchChanged in Hc.
  apply orb_false_iff in Hc as [Hc _]. apply negb_false_iff in Hc.
  apply bool_decide_eq_true in Hc.
  split; [|split; [apply Kept_refl | exact Hc]].
  split; [reflexivity | exact Ha | intros _; exact Hc].
Qed.

Lemma switched_changed T e :
  arenaOK e -> switchChanged T e = true ->
  SwitchedTo T e
    (with_batch (set_currentTexture (Some T))
       (if (0 <? batchCount (batch e))%nat then snd (flush e) else e)).
Proof.
  intros Ha Hc. unfold SwitchedTo, switchKeeps, switchDraws. rewrite Hc.
  cbn [andb].
  destruct (0 <? batchCount (batch e))%nat eqn:En.
  - apply Nat.ltb_lt in En.
    assert (Hnz : batchCount (batch e) <> 0%nat) by lia.
    destruct (flush_nonempty e Hnz)
      as (Hlog & Hbl & _ & Hbc & _ & Hvd & Hmx & _ & _ & Hst & Htx & _).
    split; [|split]; [split|split|]; cbn; try assumption; try reflexivity.
    + unfold arenaOK in Ha. rewrite Hvd, Hmx. exact Ha.
    + rewrite Hlog, drawCalls_app. reflexivity.
    + rewrite Htx. reflexivity.
  - apply Nat.ltb_ge in En.
    split; [|split]; [split|split|]; cbn; try reflexivity.
    + lia.
    + exact Ha.
    + symmetry. apply app_nil_r.
Qed.

Lemma switchTexture_spec T e :
  arenaOK e ->
  exists e2, switchTexture (TVTexture T) e = (Ret tt, e2) /\ SwitchedTo T e e2.
Proof.
  intros Ha. unfold switchTexture, bind. cbn [gets].
  fold (switchChanged T e).
  destruct (switchChanged T e) eqn:Hc.
  - eexists. split; [|apply (switched_changed T e Ha Hc)].
    destruct (0 <? batchCount (batch e))%nat; cbn [when].
    + rewrite (flush_eta e). reflexivity.
    + reflexivity.
  - eexists. split; [reflexivity | apply (switched_unchanged T e Ha Hc)].
Qed.

Lemma pushed_texture e block :
  currentTexture (batch (pushed e block)) = currentTexture (batch e).
Proof. reflexivity. Qed.

Lemma pushed_many T blocks : forall n e,
  Queue T n e -> currentTexture (batch e) = Some T ->
  Forall (fun b => length b = 36%nat) blocks ->
  (n + length blocks <= maxBatchSize (batch e))%nat ->
  Queue T (n + length blocks) (foldl pushed e blocks)
  /\ Kept [] n e (foldl pushed e blocks).
Proof.
  induction blocks as [|b blocks IH]; intros n e HQ Hcur Hall Hn.
  - cbn. rewrite Nat.add_0_r. split; [exact HQ | apply Kept_refl].
  - cbn [foldl length] in *. inversion Hall as [|? ? Hb Hall']; subst.
    destruct (pushed_Queue T n e b HQ Hb ltac:(lia) Hcur) as [HQ1 HK1].
    destruct (IH (S n) (pushed e b) HQ1 Hcur Hall'
                ltac:(rewrite (k_max _ _ _ _ HK1); lia)) as [HQ2 HK2].
    split.
    + replace (n + S (length blocks))%nat with (S n + length blocks)%nat
        by lia. exact HQ2.
    + eapply Kept_trans; [exact HK1|]. eapply Kept_le; [|exact HK2]. lia.
Qed.

Lemma StepOK_SeqOK x T n k e r :
  (n + k <= maxBatchSize (batch e))%nat ->
  StepOK x T n k e r -> SeqOK x T n k e r.
Proof.
  intros Hn (Hret & e2 & blocks & HQ & HK & Hcur & Hall & Hlen & Hr).
  subst k.
  destruct (pushed_many T blocks n e2 HQ Hcur Hall
              ltac:(rewrite (k_max _ _ _ _ HK); exact Hn)) as [HQ' HK'].
  unfold SeqOK. rewrite Hr. split; [exact Hret|]. split; [exact HQ'|].
  eapply Kept_trans; eassumption.
Qed.

Lemma StepWrites_StepOK x T n blocks e r :
  StepWrites x T n blocks e r -> StepOK x T n (length blocks) e r.
Proof.
  intros (Hret & e2 & HQ & HK & Hcur & Hall & Hr).
  split; [exact Hret|]. exists e2, blocks.
  split; [exact HQ|]. split; [exact HK|]. split; [exact Hcur|].
  split; [exact Hall|]. split; [reflexivity | exact Hr].
Qed.

Lemma push_writes x T n e0 e block :
  Queue T n e -> Kept x n e0 e -> length block = 36%nat ->
  currentTexture (batch e) = Some T ->
  StepWrites x T n [block] e0 (Ret tt, pushed e block).
Proof.
  intros HQ HK Hb Hcur. split; [reflexivity|].
  exists e. split; [exact HQ|]. split; [exact HK|]. split; [exact Hcur|].
  split; [|reflexivity]. constructor; [exact Hb | constructor].
Qed.

Lemma frame_switch T e e1 :
  frame e e1 ->
  switchChanged T e1 = switchChanged T e
  /\ switchKeeps T e1 = switchKeeps T e
  /\ switchDraws T e1 = switchDraws T e
  /\ (arenaOK e -> arenaOK e1).
Proof.
  intros Hf. unfold switchKeeps, switchDraws, switchChanged, arenaOK, pendingDraw.
  rewrite (fr_batch _ _ Hf), (fr_white _ _ Hf), (fr_blend _ _ Hf).
  repeat split. tauto.
Qed.

Lemma switch_then_writes T blocks e0 e1 (tail : M unit) :
  frame e0 e1 -> arenaOK e0 ->
  (forall e2, Queue T (switchKeeps T e0) e2 ->
              Kept (switchDraws T e0) (switchKeeps T e0) e0 e2 ->
              currentTexture (batch e2) = Some T ->
              states e2 = states e1 ->
              StepWrites (switchDraws T e0) T (switchKeeps T e0) blocks e0
                (tail e2)) ->
  StepWrites (switchDraws T e0) T (switchKeeps T e0) blocks e0
    ((switchTexture (TVTexture T) ;;; tail) e1).
Proof.
  intros Hf Ha Htail.
  destruct (frame_switch T e0 e1 Hf) as (_ & Hk & Hd & Ha1).
  destruct (switchTexture_spec T e1 (Ha1 Ha)) as (e2 & Hsw & HQ & HK & Hcur).
  rewrite (bind_Ret _ _ _ _ _ Hsw). rewrite Hk, Hd in *.
  apply Htail; try assumption.
  - destruct HK, Hf. split; try congruence.
    all: rewrite k_draws0; congruence.
  - apply (k_states _ _ _ _ HK).
Qed.

Lemma Queue_room T n e :
  Queue T n e -> (n < maxBatchSize (batch e))%nat ->
  (batchCount (batch e) * 36 + 36 <= length (vertexData (batch e)))%nat.
Proof. intros [Hc Ha _] Hn. rewrite Hc, Ha. lia. Qed.

Lemma drawRect_writes math e s rest x y w h rgba a :
  stateStack (states e) = s :: rest ->
  arenaOK e ->
  (switchKeeps (whiteTexture (textures e)) e + 1
   <= maxBatchSize (batch e))%nat ->
  StepWrites (switchDraws (whiteTexture (textures e)) e)
    (whiteTexture (textures e)) (switchKeeps (whiteTexture (textures e)) e)
    (opBlocks math (OpDrawRect x y w h rgba a) e) e
    (drawRect_ x y w h rgba a e).
Proof.
  intros Hs Ha Hn. set (T := whiteTexture (textures e)) in *.
  unfold opBlocks. rewrite Hs. cbv zeta.
  unfold drawRect_.
  unfold bind at 1. cbn [gets]. unfold bind at 1. cbn [gets].
  fold T. fold (switchChanged T e).
  assert (Hsw : exists e1,
    when (switchChanged T e)
      (flush ;;; modify (with_batch (set_currentTexture (Some T)))) e
    = (Ret tt, e1) /\ SwitchedTo T e e1).
  { destruct (switchChanged T e) eqn:Hc; cbn [when].
    - eexists. split; [|apply (switched_changed T e Ha Hc)].
      rewrite (bind_Ret _ _ _ tt (snd (flush e))) by apply flush_eta.
      destruct (0 <? batchCount (batch e))%nat eqn:En; [reflexivity|].
      apply Nat.ltb_ge in En. rewrite flush_empty by lia. reflexivity.
    - eexists. split; [reflexivity | apply (switched_unchanged T e Ha Hc)]. }
  destruct Hsw as (e1 & Hsw & HQ1 & HK1 & Hcur1).
  unfold bind at 1. rewrite Hsw.
  remember (switchKeeps T e) as n eqn:Hndef.
  remember (switchDraws T e) as dr eqn:Hdrdef.
  assert (Hs1 : stateStack (states e1) = s :: rest)
    by (rewrite (k_states _ _ _ _ HK1); exact Hs).
  erewrite bind_Ret by (eapply get_state_ok; exact Hs1).
  cbv zeta.
  assert (Hn1 : (n < maxBatchSize (batch e1))%nat)
    by (rewrite (k_max _ _ _ _ HK1); lia).
  assert (Hlen := Queue_room T n e1 HQ1 Hn1).
  assert (Hpush := push_quad
    (mx (matrix s) x y, my (matrix s) x y, 0, 0)
    (mx (matrix s) (x + w) y, my (matrix s) (x + w) y, 1, 0)
    (mx (matrix s) (x + w) (y + h), my (matrix s) (x + w) (y + h), 1, 1)
    (mx (matrix s) x (y + h), my (matrix s) x (y + h), 0, 1) a rgba e1 Hlen).
  unfold bind at 1 in Hpush. cbn [gets] in Hpush.
  unfold bind at 1. cbn [gets].
  change (batchCount (batch e1) * verticesPerSprite * vertexStride)%nat
    with (batchCount (batch e1) * 4 * 9)%nat.
  replace (batchCount (batch e1) * 4 * 9)%nat
    with (batchCount (batch e1) * vertexCountPerSprite)%nat
    by (change vertexCountPerSprite with 36%nat; lia).
  rewrite Hpush.
  apply push_writes; try assumption. apply encodeQuad_length.
Qed.

Lemma push_values (vals : list Q) e :
  length vals = 36%nat ->
  (batchCount (batch e) * 36 + 36 <= length (vertexData (batch e)))%nat ->
  (b <- gets batch ;;
   modify (with_batch (fun b' =>
     set_vertexData (store_from (batchCount b * vertexCountPerSprite) vals
                       (vertexData b')) b')) ;;;
   incr_batchCount) e
  = (Ret tt, pushed e vals).
Proof.
  intros Hv Hlen. unfold bind, gets, modify, incr_batchCount, modify, pushed.
  destruct e as [g b st tx d v n]; destruct b as [mb vd bc ct dcc tc].
  unfold with_batch, set_vertexData, set_batchCount.
  cbn [batch vertexData maxBatchSize batchCount currentTexture drawCallCount
       triangleCount] in *.
  rewrite store_from_splice
    by (rewrite Hv; change vertexCountPerSprite with 36%nat; lia).
  reflexivity.
Qed.

Lemma Queue_frame T n e e' : frame e e' -> Queue T n e -> Queue T n e'.
Proof.
  intros Hf [Hc Ha Ht]. rewrite <- (fr_batch _ _ Hf) in Hc, Ha, Ht.
  split; assumption.
Qed.

Lemma drawSpriteFast_writes math T e s rest image x y w h rotation a tint :
  stateStack (states e) = s :: rest ->
  arenaOK e ->
  (switchKeeps T e + 1 <= maxBatchSize (batch e))%nat ->
  result (opTexture (OpDrawSpriteFast image x y w h rotation a tint)) e
    = Ret (TVTexture T) ->
  StepWrites (switchDraws T e) T (switchKeeps T e)
    (opBlocks math (OpDrawSpriteFast image x y w h rotation a tint) e) e
    (drawSpriteFast math image x y w h rotation a tint e).
Proof.
  intros Hs Ha Hn HT. unfold opBlocks. rewrite Hs.
  unfold drawSpriteFast. unfold result in *. unfold opTexture in HT.
  destruct image as [|id|tx]; [cbn in HT; discriminate HT|..].
  all: unfold bind at 1 in HT; unfold bind at 1.
  all: match goal with
       | |- context [getTexture ?i ?e0] =>
           pose proof (Frame_getTexture i e0) as Hf;
           destruct (getTexture i e0) as [[texInfo|err] e1]
       end; [|discriminate HT].
  all: cbn [snd] in Hf; unfold bind at 1 in HT; cbn [gets ret fst] in HT.
  all: unfold bind at 1; cbn [gets fst]; injection HT as HT.
  all: cbv beta iota zeta.
  all: set (uv := match texInfo with
                  | RInfo i => default unitUV (ti_uv i)
                  | _ => unitUV
                  end).
  all: assert (Hpair : match texInfo with
                       | RInfo i => (ti_texture i, default unitUV (ti_uv i))
                       | RTexture tx => (tx, unitUV)
                       | RImage _ => (whiteTexture (textures e1), unitUV)
                       end = (T, uv))
         by (unfold uv; destruct texInfo; rewrite <- HT; reflexivity).
  all: rewrite Hpair; apply switch_then_writes; [exact Hf | exact Ha |].
  all: intros e2.
  all: remember (switchKeeps T e) as n eqn:Hnd in *.
  all: remember (switchDraws T e) as dr eqn:Hdd in *.
  all: intros HQ2 HK2 Hcur2 Hst2.
  all: assert (Hs2 : stateStack (states e2) = s :: rest)
         by (rewrite Hst2, (fr_states _ _ Hf); exact Hs).
  all: assert (Hn2 : (n < maxBatchSize (batch e2))%nat)
         by (rewrite (k_max _ _ _ _ HK2); lia).
  all: erewrite bind_Ret by (eapply get_state_ok; exact Hs2).
  all: rewrite push_values;
         [ apply push_writes; try assumption; reflexivity
         | reflexivity
         | eapply Queue_room; eassumption ].
Qed.

Lemma Frame_resolveTextureArg info a0 b0 a1 b1 :
  Frame (resolveTextureArg info a0 b0 a1 b1).
Proof.
  destruct info; cbn [resolveTextureArg]; try apply Frame_ret.
  apply Frame_bind; [apply Frame_getTexture | intros; apply Frame_ret].
Qed.

Lemma drawTexture_writes math T e s rest info x y w h a0 b0 a1 b1 rotation a
    flipX flipY tintR tintG tintB flashArg :
  stateStack (states e) = s :: rest ->
  arenaOK e ->
  (switchKeeps T e + 1 <= maxBatchSize (batch e))%nat ->
  result (opTexture (OpDrawTexture info x y w h a0 b0 a1 b1 rotation a
                       flipX flipY tintR tintG tintB flashArg)) e
    = Ret (TVTexture T) ->
  StepWrites (switchDraws T e) T (switchKeeps T e)
    (opBlocks math (OpDrawTexture info x y w h a0 b0 a1 b1 rotation a
                      flipX flipY tintR tintG tintB flashArg) e) e
    (drawTexture math info x y w h a0 b0 a1 b1 rotation a flipX flipY
       tintR tintG tintB flashArg e).
Proof.
  intros Hs Ha Hn HT.
  pose proof (Frame_resolveTextureArg info a0 b0 a1 b1 e) as Hf.
  destruct info; [cbn in HT; discriminate HT|..].
  all: unfold opBlocks; rewrite Hs.
  all: unfold opTexture in HT; unfold drawTexture.
  all: match goal with
       | |- context [resolveTextureArg ?i ?p0 ?q0 ?p1 ?q1] =>
           set (arg := resolveTextureArg i p0 q0 p1 q1) in *
       end.
  all: unfold result in *; clearbody arg.
  all: cbv beta iota; unfold bind at 1 in HT; unfold bind at 1.
  all: destruct (arg e) as [[r|err] e1]; [|discriminate HT].
  all: cbn [snd] in Hf; cbn [ret fst] in HT; injection HT as HT.
  all: destruct r as [texture [[[fU0 fV0] fU1] fV1]]; cbn [fst] in HT.
  all: subst texture; apply switch_then_writes; [exact Hf | exact Ha |].
  all: intros e2.
  all: remember (switchKeeps T e) as n eqn:Hnd in *.
  all: remember (switchDraws T e) as dr eqn:Hdd in *.
  all: intros HQ2 HK2 Hcur2 Hst2.
  all: assert (Hs2 : stateStack (states e2) = s :: rest)
         by (rewrite Hst2, (fr_states _ _ Hf); exact Hs).
  all: assert (Hn2 : (n < maxBatchSize (batch e2))%nat)
         by (rewrite (k_max _ _ _ _ HK2); lia).
  all: assert (Hroom := Queue_room T n e2 HQ2 Hn2).
  all: destruct flipX, flipY; cbv zeta;
         (erewrite bind_Ret by (eapply get_state_ok; exact Hs2));
         destruct (Qeqb rotation 0); cbv zeta;
         rewrite push_quad by exact Hroom;
         (apply push_writes; try assumption; apply encodeQuad_length).
Qed.

Lemma push_quad_then {A} c0 c1 c2 c3 a rgba (rest : M A) e :
  (batchCount (batch e) * 36 + 36 <= length (vertexData (batch e)))%nat ->
  (b <- gets batch ;;
   addQuad (batchCount b * vertexCountPerSprite) c0 c1 c2 c3 a rgba ;;;
   incr_batchCount ;;; rest) e
  = rest (pushed e (encodeQuad c0 c1 c2 c3 a rgba)).
Proof.
  intros Hlen.
  unfold bind at 1. cbn [gets]. unfold bind at 1.
  rewrite addQuad_store. unfold bind at 1.
  unfold incr_batchCount, modify, pushed. f_equal.
  destruct e as [g b st tx d v n]; destruct b as [mb vd bc ct dcc tc].
  unfold with_batch, set_vertexData, set_batchCount.
  cbn [batch vertexData maxBatchSize batchCount currentTexture drawCallCount
       triangleCount] in *.
  rewrite store_from_splice
    by (rewrite encodeQuad_length; change vertexCountPerSprite with 36%nat; lia).
  reflexivity.
Qed.

Lemma drawImage_writes math T e s rest id args :
  stateStack (states e) = s :: rest ->
  arenaOK e ->
  (switchKeeps T e + opQuads s (OpDrawImage id args)
   <= maxBatchSize (batch e))%nat ->
  result (opTexture (OpDrawImage id args)) e = Ret (TVTexture T) ->
  StepWrites (switchDraws T e) T (switchKeeps T e)
    (opBlocks math (OpDrawImage id args) e) e
    (drawImage math (Some id) args e).
Proof.
  intros Hs Ha Hn HT. unfold opBlocks. rewrite Hs.
  unfold result in *. unfold opTexture in HT. cbn [opQuads] in *.
  unfold drawImage. unfold bind at 1. cbn [gets].
  unfold bind at 1 in HT.
  pose proof (Frame_getTexture (IRef id) e) as Hf.
  destruct (images (textures e) !! id) as [img|] eqn:Himg.
  2:{ cbn [getTexture] in HT. unfold bind at 1 in HT. cbn [gets] in HT.
      rewrite Himg in HT. discriminate HT. }
  cbv zeta.
  set (sel := match args with
              | Args3 dx dy =>
                  (0, 0, QZ (img_width img), QZ (img_height img), dx, dy,
                   QZ (img_width img), QZ (img_height img))
              | Args5 dx dy dw dh =>
                  (0, 0, QZ (img_width img), QZ (img_height img), dx, dy, dw, dh)
              | Args9 sx sy sw sh dx dy dw dh => (sx, sy, sw, sh, dx, dy, dw, dh)
              end).
  destruct sel as [[[[[[[sx sy] sw] sh] dx] dy] dw] dh].
  unfold bind at 1.
  destruct (getTexture (IRef id) e) as [[info|err] e1]; [|discriminate HT].
  cbn [snd] in Hf. cbn [ret fst] in HT. injection HT as HT. rewrite HT.
  cbn [fst].
  apply switch_then_writes; [exact Hf | exact Ha |].
  intros e2.
  remember (switchKeeps T e) as n eqn:Hnd in *.
  remember (switchDraws T e) as dr eqn:Hdd in *.
  intros HQ2 HK2 Hcur2 Hst2.
  assert (Hs2 : stateStack (states e2) = s :: rest)
    by (rewrite Hst2, (fr_states _ _ Hf); exact Hs).
  assert (Hmax2 : maxBatchSize (batch e2) = maxBatchSize (batch e))
    by apply (k_max _ _ _ _ HK2).
  erewrite bind_Ret by (eapply get_state_ok; exact Hs2).
  cbv zeta. fold (shadowActive s).
  clear HT.
  destruct info as [t0|i|rid]; [|destruct (ti_uv i) as [uv|]|];
    cbv beta iota zeta.
  all: destruct (shadowActive s) eqn:Esh; cbn [when app].
  all: rewrite ?Esh in Hn.
  (* without a shadow: one quad *)
  all: try (unfold bind at 1; cbn [ret];
            rewrite push_quad
              by (eapply Queue_room; [eassumption | rewrite Hmax2; lia]);
            apply push_writes; try assumption; apply encodeQuad_length).
  (* with a shadow: the shadow quad, no flush, the image quad *)
  all: unfold bind at 1.
  all: match goal with
       | |- StepWrites _ _ _ _ _
              (let (r, e') :=
                 bind (gets batch) (fun b =>
                   bind (addQuad _ ?c0 ?c1 ?c2 ?c3 ?a ?rg)
                     (fun _ => bind incr_batchCount (fun _ => ?k3))) ?ee in _) =>
           rewrite (push_quad_then c0 c1 c2 c3 a rg k3 ee)
             by (eapply Queue_room; [eassumption | rewrite Hmax2; lia])
       end.
  all: match goal with
       | |- context [pushed ?ee ?blk] => set (block := blk)
       end.
  all: assert (Hb : length block = 36%nat) by apply encodeQuad_length.
  all: destruct (pushed_Queue T n e2 block HQ2 Hb
                   ltac:(rewrite Hmax2; lia) Hcur2) as [HQ3 HK3].
  all: unfold bind at 1; cbn [gets].
  all: assert (E : (maxBatchSize (batch (pushed e2 block))
                    <=? batchCount (batch (pushed e2 block)))%nat = false)
         by (apply Nat.leb_gt;
             rewrite (q_count _ _ _ HQ3), (k_max _ _ _ _ HK3), Hmax2; lia).
  all: rewrite E; cbn [when ret].
  all: rewrite push_quad
         by (eapply Queue_room;
             [eassumption | rewrite (k_max _ _ _ _ HK3), Hmax2; lia]).
  all: match goal with
       | |- context [pushed (pushed ?ee ?bb) ?blk] => set (block2 := blk)
       end.
  all: assert (Hb2 : length block2 = 36%nat) by apply encodeQuad_length.
  all: split; [reflexivity|]; exists e2;
       (split; [exact HQ2|]); (split; [exact HK2|]);
       (split; [exact Hcur2|]); (split; [|reflexivity]);
       repeat (constructor; try assumption).
Qed.

Lemma opBlocks_length math T e s rest op :
  stateStack (states e) = s :: rest ->
  result (opTexture op) e = Ret (TVTexture T) ->
  length (opBlocks math op e) = opQuads s op.
Proof.
  intros Hs HT. unfold opBlocks. rewrite Hs. unfold result in *.
  destruct op as [id args|info x y w h a0 b0 a1 b1 rotation a flipX flipY
                   tintR tintG tintB flashArg|image x y w h rotation a tint|];
    cbn [opQuads opTexture] in *.
  - unfold bind at 1 in HT. cbn [getTexture] in *.
    unfold bind at 1 in HT. unfold bind at 1. cbn [gets] in *.
    destruct (images (textures e) !! id) as [img|]; [|discriminate HT].
    destruct (getTexture_image id img e) as [[info|err] e1];
      [|discriminate HT].
    cbn [fst]. cbv zeta.
    destruct args; cbv beta iota.
    all: destruct info as [t0|i|rid]; [|destruct (ti_uv i) as [uv|]|];
      cbv beta iota zeta.
    all: rewrite length_app; destruct (shadowActive s); reflexivity.
  - destruct info; [cbn in HT; discriminate HT|..].
    all: match goal with
         | |- context [resolveTextureArg ?i ?p0 ?q0 ?p1 ?q1] =>
             set (arg := resolveTextureArg i p0 q0 p1 q1) in *
         end.
    all: clearbody arg; unfold bind at 1 in HT.
    all: destruct (arg e) as [[r|err] e1]; [|discriminate HT].
    all: destruct r as [texture [[[fU0 fV0] fU1] fV1]]; cbn [fst].
    all: destruct flipX, flipY, (Qeqb rotation 0); reflexivity.
  - destruct image as [|id|tx]; [cbn in HT; discriminate HT|..].
    all: unfold bind at 1 in HT.
    all: match goal with
         | |- context [getTexture ?i ?e0] =>
             destruct (getTexture i e0) as [[texInfo|err] e1]
         end; [|discriminate HT].
    all: reflexivity.
  - reflexivity.
Qed.

(** Every enqueue call, after its texture switch, pushes the blocks of
    [opBlocks] and nothing else. *)
Lemma runOp_writes math T e s rest op :
  stateStack (states e) = s :: rest ->
  arenaOK e ->
  (switchKeeps T e + opQuads s op <= maxBatchSize (batch e))%nat ->
  result (opTexture op) e = Ret (TVTexture T) ->
  StepWrites (switchDraws T e) T (switchKeeps T e) (opBlocks math op e) e
    (runOp math op e).
Proof.
  intros Hs Ha Hn HT. destruct op; cbn [runOp].
  - apply drawImage_writes with (s := s) (rest := rest); assumption.
  - cbn [opQuads] in *.
    apply drawTexture_writes with (s := s) (rest := rest); assumption.
  - cbn [opQuads] in *.
    apply drawSpriteFast_writes with (s := s) (rest := rest); assumption.
  - cbn [opQuads] in *.
    assert (HT' : T = whiteTexture (textures e)).
    { unfold result, opTexture, bind, gets, ret in HT. cbn in HT. congruence. }
    subst T. apply drawRect_writes with (s := s) (rest := rest); assumption.
Qed.

Lemma runOp_switch math T e s rest op :
  stateStack (states e) = s :: rest ->
  arenaOK e ->
  (switchKeeps T e + opQuads s op <= maxBatchSize (batch e))%nat ->
  result (opTexture op) e = Ret (TVTexture T) ->
  StepOK (switchDraws T e) T (switchKeeps T e) (opQuads s op) e
    (runOp math op e).
Proof.
  intros Hs Ha Hn HT.
  rewrite <- (opBlocks_length math T e s rest op Hs HT).
  apply StepWrites_StepOK.
  apply runOp_writes with (s := s) (rest := rest); assumption.
Qed.

Lemma Queue_switch T n e :
  Queue T n e -> (n < maxBatchSize (batch e))%nat ->
  switchKeeps T e = n /\ switchDraws T e = [] /\ arenaOK e.
Proof.
  intros [Hc Ha Ht] Hn. unfold switchKeeps, switchDraws, switchChanged.
  destruct (decide (n = 0%nat)) as [->|Hnz].
  - rewrite Hc. cbn [Nat.ltb Nat.leb]. rewrite andb_false_r.
    split; [|split; [reflexivity | exact Ha]].
    destruct (_ || _); reflexivity.
  - rewrite (Ht Hnz), bool_decide_eq_true_2 by reflexivity. cbn [negb orb].
    rewrite Hc. destruct (Nat.leb_spec (maxBatchSize (batch e)) n); [lia|].
    split; [reflexivity|]. split; [reflexivity | exact Ha].
Qed.

Lemma runOp_step math T n e s rest op :
  stateStack (states e) = s :: rest ->
  Queue T n e ->
  (n + opQuads s op <= maxBatchSize (batch e))%nat ->
  (1 <= opQuads s op)%nat ->
  result (opTexture op) e = Ret (TVTexture T) ->
  SeqOK [] T n (opQuads s op) e (runOp math op e).
Proof.
  intros Hs HQ Hn Hk HT.
  destruct (Queue_switch T n e HQ ltac:(lia)) as (Hkeep & Hdraw & Ha).
  apply StepOK_SeqOK; [exact Hn|].
  rewrite <- Hkeep at 1. rewrite <- Hdraw.
  apply runOp_switch with (rest := rest); try assumption. lia.
Qed.

Lemma opQuads_pos s op : (1 <= opQuads s op)%nat.
Proof. destruct op; cbn [opQuads]; try lia. destruct (shadowActive s); lia. Qed.

Lemma totalQuads_app s ops1 ops2 :
  totalQuads s (ops1 ++ ops2) = (totalQuads s ops1 + totalQuads s ops2)%nat.
Proof.
  induction ops1 as [|op ops1 IH]; cbn [app totalQuads]; [reflexivity|].
  rewrite IH. lia.
Qed.

Lemma runOps_app math ops1 ops2 e :
  runOps math (ops1 ++ ops2) e = (runOps math ops1 ;;; runOps math ops2) e.
Proof.
  revert e. induction ops1 as [|op ops1 IH]; intros e; cbn [app runOps].
  - reflexivity.
  - unfold bind. destruct (runOp math op e) as [[[]|x] e1]; [|reflexivity].
    rewrite IH. reflexivity.
Qed.

Lemma runOps_step math T ops : forall n e s rest,
  stateStack (states e) = s :: rest ->
  Queue T n e ->
  (n + totalQuads s ops <= maxBatchSize (batch e))%nat ->
  sameTexture math T ops e ->
  SeqOK [] T n (totalQuads s ops) e (runOps math ops e).
Proof.
  induction ops as [|op ops IH]; intros n e s rest Hs HQ Hn Hsame.
  - cbn. split; [reflexivity|]. split; [|apply Kept_refl].
    rewrite Nat.add_0_r. exact HQ.
  - cbn [runOps totalQuads sameTexture] in *. destruct Hsame as [HT Hrest].
    destruct (runOp_step math T n e s rest op Hs HQ ltac:(lia) (opQuads_pos s op) HT)
      as (Hret & HQ1 & HK1).
    unfold exec in Hrest. unfold bind.
    destruct (runOp math op e) as [[[]|x] e1]; [|discriminate Hret].
    cbn [fst snd] in *.
    assert (Hs1 : stateStack (states e1) = s :: rest)
      by (rewrite (k_states _ _ _ _ HK1); exact Hs).
    destruct (IH (n + opQuads s op)%nat e1 s rest Hs1 HQ1
                ltac:(rewrite (k_max _ _ _ _ HK1); lia) Hrest)
      as (Hret2 & HQ2 & HK2).
    split; [exact Hret2|]. split.
    + rewrite Nat.add_assoc. exact HQ2.
    + eapply Kept_trans; [exact HK1|]. eapply Kept_le; [|exact HK2]. lia.
Qed.

Lemma sameTexture_prefix math T ops1 ops2 e :
  sameTexture math T (ops1 ++ ops2) e -> sameTexture math T ops1 e.
Proof.
  revert e. induction ops1 as [|op ops1 IH]; intros e; cbn [app sameTexture].
  - intros _. exact I.
  - intros [H1 H2]. split; [exact H1 | apply IH; exact H2].
Qed.

Lemma sameTexture_suffix math T ops1 ops2 : forall n e s rest,
  stateStack (states e) = s :: rest ->
  Queue T n e ->
  (n + totalQuads s ops1 <= maxBatchSize (batch e))%nat ->
  sameTexture math T (ops1 ++ ops2) e ->
  sameTexture math T ops2 (exec (runOps math ops1) e).
Proof.
  induction ops1 as [|op ops1 IH]; intros n e s rest Hs HQ Hn Hsame.
  - exact Hsame.
  - cbn [app runOps totalQuads sameTexture] in *. destruct Hsame as [HT Hrest].
    destruct (runOp_step math T n e s rest op Hs HQ ltac:(lia) (opQuads_pos s op) HT)
      as (Hret & HQ1 & HK1).
    unfold exec in *. unfold bind.
    destruct (runOp math op e) as [[[]|x] e1]; [|discriminate Hret].
    cbn [fst snd] in *.
    apply (IH (n + opQuads s op)%nat e1 s rest); try assumption.
    + rewrite (k_states _ _ _ _ HK1). exact Hs.
    + rewrite (k_max _ _ _ _ HK1). lia.
Qed.

(** ** The index buffer *)

Lemma uint16_small (n : nat) : (Z.of_nat n < 65536)%Z -> uint16 n = n.
Proof.
  intros H. unfold uint16. rewrite Z.mod_small by lia. apply Nat2Z.id.
Qed.

Lemma initIndices_step_spec (done : list nat) (i m : nat) :
  length done = (i * 6)%nat ->
  (Z.of_nat (4 * i + 3) < 65536)%Z ->
  initIndices_step (done ++ replicate (S m * 6) 0%nat) i
  = (done ++ quadIndices i) ++ replicate (m * 6) 0%nat.
Proof.
  intros Hlen Hsmall. unfold initIndices_step.
  replace (i * 6)%nat with (length done + 0)%nat by lia.
  rewrite <- !Nat.add_assoc. rewrite !insert_app_r.
  rewrite <- app_assoc. f_equal.
  rewrite !uint16_small by lia.
  cbn. unfold quadIndices.
  repeat (f_equal; try lia).
Qed.

Lemma initIndices_fold (k m : nat) (done : list nat) (i : nat) :
  length done = (i * 6)%nat ->
  (Z.of_nat (4 * (i + k)) <= 65536)%Z ->
  foldl initIndices_step (done ++ replicate ((k + m) * 6) 0%nat) (seq i k)
  = (done ++ flat_map quadIndices (seq i k)) ++ replicate (m * 6) 0%nat.
Proof.
  revert done i. induction k as [|k IH]; intros done i Hlen Hsmall.
  - cbn. rewrite app_nil_r. reflexivity.
  - cbn [seq foldl flat_map].
    replace (S k + m)%nat with (S (k + m)) by lia.
    rewrite initIndices_step_spec by lia.
    rewrite IH.
    + rewrite <- (app_assoc done). reflexivity.
    + rewrite length_app, Hlen. cbn. lia.
    + lia.
Qed.

Lemma initIndices_spec (maxBatch : nat) :
  (Z.of_nat maxBatch <= 16384)%Z ->
  initIndices maxBatch = flat_map quadIndices (seq 0 maxBatch).
Proof.
  intros H. unfold initIndices. change indicesPerSprite with 6%nat.
  pose proof (initIndices_fold maxBatch 0 [] 0 eq_refl ltac:(lia)) as E.
  rewrite Nat.add_0_r in E. cbn [app replicate Nat.mul] in E.
  rewrite app_nil_r in E. exact E.
Qed.

Lemma flat_map_quadIndices_length l : length (flat_map quadIndices l) = (length l * 6)%nat.
Proof.
  induction l as [|x l IH]; [reflexivity|].
  cbn [flat_map]. rewrite length_app, IH. cbn. lia.
Qed.

Lemma initIndices_take (maxBatch n : nat) :
  (Z.of_nat maxBatch <= 16384)%Z -> (n <= maxBatch)%nat ->
  take (n * 6) (initIndices maxBatch) = flat_map quadIndices (seq 0 n).
Proof.
  intros Hm Hn. rewrite initIndices_spec by exact Hm.
  replace maxBatch with (n + (maxBatch - n))%nat by lia.
  rewrite seq_app, flat_map_app.
  rewrite take_app_length'; [reflexivity|].
  rewrite flat_map_quadIndices_length, length_seq. reflexivity.
Qed.

Lemma totalQuads_pos s ops : ops <> [] -> (1 <= totalQuads s ops)%nat.
Proof.
  destruct ops as [|op ops]; [contradiction|]. intros _. cbn [totalQuads].
  destruct op; cbn [opQuads]; try lia. destruct (shadowActive s); lia.
Qed.

(** ** Batches and texture changes *)

Lemma pushed_content T blocks : forall n e,
  Queue T n e -> currentTexture (batch e) = Some T ->
  Forall (fun b => length b = 36%nat) blocks ->
  (n + length blocks <= maxBatchSize (batch e))%nat ->
  take ((n + length blocks) * 36) (vertexData (batch (foldl pushed e blocks)))
  = take (n * 36) (vertexData (batch e)) ++ concat blocks.
Proof.
  induction blocks as [|b blocks IH]; intros n e HQ Hcur Hall Hn.
  - cbn. rewrite Nat.add_0_r, app_nil_r. reflexivity.
  - cbn [foldl length concat] in *. inversion Hall as [|? ? Hb Hall']; subst.
    destruct (pushed_Queue T n e b HQ Hb ltac:(lia) Hcur) as [HQ1 HK1].
    replace (n + S (length blocks))%nat with (S n + length blocks)%nat by lia.
    rewrite (IH (S n) (pushed e b) HQ1 Hcur Hall'
               ltac:(rewrite (k_max _ _ _ _ HK1); lia)).
    rewrite app_assoc. f_equal.
    destruct HQ as [Hc Ha _]. cbn. unfold splice. rewrite Hc.
    change vertexCountPerSprite with 36%nat.
    rewrite app_assoc.
    rewrite take_app_length'; [reflexivity|].
    rewrite length_app, length_take, Hb, Ha. lia.
Qed.

(** One call on a queue of [n] quads of its texture: the quads already
    queued stay, and the blocks of the call follow them. *)
Lemma runOp_content math T n e s rest op :
  stateStack (states e) = s :: rest ->
  Queue T n e ->
  (n + opQuads s op <= maxBatchSize (batch e))%nat ->
  result (opTexture op) e = Ret (TVTexture T) ->
  take ((n + opQuads s op) * 36)
       (vertexData (batch (exec (runOp math op) e)))
  = take (n * 36) (vertexData (batch e)) ++ concat (opBlocks math op e).
Proof.
  intros Hs HQ Hn HT.
  pose proof (opQuads_pos s op) as Hk.
  destruct (Queue_switch T n e HQ ltac:(lia)) as (Hkeep & Hdraw & Ha).
  pose proof (runOp_writes math T e s rest op Hs Ha
                ltac:(rewrite Hkeep; exact Hn) HT) as Hw.
  rewrite Hkeep, Hdraw in Hw.
  destruct Hw as (_ & e2 & HQ2 & HK2 & Hcur2 & Hall & Hr).
  unfold exec. rewrite Hr.
  rewrite <- (opBlocks_length math T e s rest op Hs HT) in Hn |- *.
  rewrite (pushed_content T _ n e2 HQ2 Hcur2 Hall
             ltac:(rewrite (k_max _ _ _ _ HK2); exact Hn)).
  rewrite (k_prefix _ _ _ _ HK2). reflexivity.
Qed.

Lemma runOps_content math T ops : forall n e s rest,
  stateStack (states e) = s :: rest ->
  Queue T n e ->
  (n + totalQuads s ops <= maxBatchSize (batch e))%nat ->
  sameTexture math T ops e ->
  take ((n + totalQuads s ops) * 36)
       (vertexData (batch (exec (runOps math ops) e)))
  = take (n * 36) (vertexData (batch e)) ++ concat (seqBlocks math ops e).
Proof.
  induction ops as [|op ops IH]; intros n e s rest Hs HQ Hn Hsame.
  - cbn. rewrite Nat.add_0_r, app_nil_r. reflexivity.
  - cbn [runOps totalQuads sameTexture seqBlocks] in *.
    destruct Hsame as [HT Hrest].
    pose proof (runOp_content math T n e s rest op Hs HQ ltac:(lia) HT) as Hc.
    destruct (runOp_step math T n e s rest op Hs HQ ltac:(lia)
                (opQuads_pos s op) HT) as (Hret & HQ1 & HK1).
    unfold exec in *. unfold bind.
    destruct (runOp math op e) as [[[]|x] e1]; [|discriminate Hret].
    cbn [fst snd] in *.
    assert (Hs1 : stateStack (states e1) = s :: rest)
      by (rewrite (k_states _ _ _ _ HK1); exact Hs).
    rewrite Nat.add_assoc.
    rewrite (IH (n + opQuads s op)%nat e1 s rest Hs1 HQ1
               ltac:(rewrite (k_max _ _ _ _ HK1); lia) Hrest).
    rewrite Hc, concat_app, app_assoc. reflexivity.
Qed.

Lemma opBlocks_shape math T e s rest op :
  stateStack (states e) = s :: rest ->
  arenaOK e ->
  (switchKeeps T e + opQuads s op <= maxBatchSize (batch e))%nat ->
  result (opTexture op) e = Ret (TVTexture T) ->
  Forall (fun b => length b = 36%nat) (opBlocks math op e).
Proof.
  intros Hs Ha Hn HT.
  destruct (runOp_writes math T e s rest op Hs Ha Hn HT)
    as (_ & e2 & _ & _ & _ & Hall & _).
  exact Hall.
Qed.

Lemma seqBlocks_shape math T ops : forall n e s rest,
  stateStack (states e) = s :: rest ->
  Queue T n e ->
  (n + totalQuads s ops <= maxBatchSize (batch e))%nat ->
  sameTexture math T ops e ->
  length (seqBlocks math ops e) = totalQuads s ops /\
  Forall (fun b => length b = 36%nat) (seqBlocks math ops e).
Proof.
  induction ops as [|op ops IH]; intros n e s rest Hs HQ Hn Hsame.
  - split; [reflexivity | constructor].
  - cbn [totalQuads sameTexture seqBlocks] in *.
    destruct Hsame as [HT Hrest].
    pose proof (opQuads_pos s op) as Hk.
    destruct (Queue_switch T n e HQ ltac:(lia)) as (Hkeep & _ & Ha).
    pose proof (opBlocks_shape math T e s rest op Hs Ha
                  ltac:(rewrite Hkeep; lia) HT) as Hall.
    destruct (runOp_step math T n e s rest op Hs HQ ltac:(lia) Hk HT)
      as (_ & HQ1 & HK1).
    assert (Hs1 : stateStack (states (exec (runOp math op) e)) = s :: rest)
      by (unfold exec; rewrite (k_states _ _ _ _ HK1); exact Hs).
    destruct (IH (n + opQuads s op)%nat _ s rest Hs1 HQ1
                ltac:(unfold exec; rewrite (k_max _ _ _ _ HK1); lia) Hrest)
      as [Hl Hf].
    split.
    + rewrite length_app, Hl, (opBlocks_length math T e s rest op Hs HT).
      reflexivity.
    + apply Forall_app. split; assumption.
Qed.

(** C1.  From an empty batch, any sequence of enqueue calls ([drawImage],
    [drawTexture], [drawSpriteFast], [_drawRect]) that all resolve to the
    texture [T] and together enqueue [N <= maxBatchSize] quads, followed by
    one [flush()], issues exactly one draw submission: no draw is submitted
    before the flush, the flush submits one draw with texture [T], [N * 4]
    vertices of 9 numbers and [N * 6] indices, and the indices it consumes
    from the static index buffer are [0,1,2,0,2,3] shifted by 4 per quad.
    The vertices of the draw are the quads of the calls in call order: the
    upload is the concatenation of the blocks each call computes from its
    arguments, and after every prefix of the calls the pending upload is a
    prefix of the final upload.  After the flush the batch is empty and no
    texture is bound; [flush()] on the empty batch at the start does
    nothing. *)
Theorem batch_single_submission (math : MathLib) (T : tex)
    (ops : list EnqueueOp) (e : Blaze2D) (s : RenderState)
    (rest : list RenderState)
    (Hstack : stateStack (states e) = s :: rest)
    (Harena : length (vertexData (batch e))
              = (maxBatchSize (batch e) * 36)%nat)
    (Hempty : batchCount (batch e) = 0%nat)
    (Hne : ops <> [])
    (Hsame : sameTexture math T ops e)
    (Hcap : (totalQuads s ops <= maxBatchSize (batch e))%nat) :
  flush e = (Ret tt, e) /\
  result (runOps math ops) e = Ret tt /\
  drawCalls (gl_log (gl (exec (runOps math ops) e)))
  = drawCalls (gl_log (gl e)) /\
  drawCalls (gl_log (gl (exec flush (exec (runOps math ops) e))))
  = drawCalls (gl_log (gl e)) ++ [pendingDraw (exec (runOps math ops) e)] /\
  dc_texture (pendingDraw (exec (runOps math ops) e)) = T /\
  dc_vertices (pendingDraw (exec (runOps math ops) e))
  = concat (seqBlocks math ops e) /\
  length (seqBlocks math ops e) = totalQuads s ops /\
  Forall (fun b => length b = 36%nat) (seqBlocks math ops e) /\
  length (dc_vertices (pendingDraw (exec (runOps math ops) e)))
  = (totalQuads s ops * 4 * 9)%nat /\
  dc_indexCount (pendingDraw (exec (runOps math ops) e))
  = (totalQuads s ops * 6)%nat /\
  ((Z.of_nat (maxBatchSize (batch e)) <= 16384)%Z ->
   take (dc_indexCount (pendingDraw (exec (runOps math ops) e)))
        (initIndices (maxBatchSize (batch e)))
   = flat_map quadIndices (seq 0 (totalQuads s ops))) /\
  (forall ops1 ops2, ops = ops1 ++ ops2 ->
     dc_vertices (pendingDraw (exec (runOps math ops1) e))
     = take (totalQuads s ops1 * 36)
            (dc_vertices (pendingDraw (exec (runOps math ops) e)))) /\
  batchCount (batch (exec flush (exec (runOps math ops) e))) = 0%nat /\
  currentTexture (batch (exec flush (exec (runOps math ops) e))) = None.
Proof.
  assert (HQ0 : Queue T 0 e).
  { split; [exact Hempty | exact Harena | intros H; contradiction]. }
  pose proof (totalQuads_pos s ops Hne) as Hpos.
  destruct (runOps_step math T ops 0 e s rest Hstack HQ0 ltac:(lia) Hsame)
    as (Hret & HQ1 & HK1).
  pose proof (runOps_content math T ops 0 e s rest Hstack HQ0 ltac:(lia) Hsame)
    as Hcontent.
  pose proof (seqBlocks_shape math T ops 0 e s rest Hstack HQ0 ltac:(lia) Hsame)
    as [Hblen Hball].
  cbn [Nat.add Nat.mul take app] in HQ1, Hcontent.
  unfold exec, result in *.
  remember (snd (runOps math ops e)) as e1 eqn:He1def.
  assert (Hcnt : batchCount (batch e1) = totalQuads s ops)
    by apply (q_count _ _ _ HQ1).
  assert (Hcur : currentTexture (batch e1) = Some T)
    by (apply (q_tex _ _ _ HQ1); lia).
  assert (Hmax : maxBatchSize (batch e1) = maxBatchSize (batch e))
    by apply (k_max _ _ _ _ HK1).
  assert (Hlen : length (vertexData (batch e1)) = (maxBatchSize (batch e) * 36)%nat)
    by (rewrite <- Hmax; apply (q_arena _ _ _ HQ1)).
  assert (Hnz : batchCount (batch e1) <> 0%nat) by lia.
  pose proof (flush_nonempty e1 Hnz) as Hfl. cbv zeta in Hfl.
  destruct Hfl as (Hlog & _ & _ & Hbc & Hct & _).
  split; [apply flush_empty; exact Hempty|].
  split; [exact Hret|].
  assert (Hdr : drawCalls (gl_log (gl e1)) = drawCalls (gl_log (gl e)))
    by (rewrite (k_draws _ _ _ _ HK1); apply app_nil_r).
  split; [exact Hdr|].
  split.
  { rewrite Hlog, drawCalls_app, Hdr. reflexivity. }
  split; [unfold pendingDraw; cbn [dc_texture]; rewrite Hcur; reflexivity|].
  split.
  { unfold pendingDraw. cbn [dc_vertices]. rewrite Hcnt. exact Hcontent. }
  split; [exact Hblen|]. split; [exact Hball|].
  split.
  { unfold pendingDraw. cbn [dc_vertices]. rewrite length_take, Hcnt, Hlen.
    change vertexCountPerSprite with 36%nat. lia. }
  split; [unfold pendingDraw; cbn [dc_indexCount]; rewrite Hcnt; reflexivity|].
  split.
  { intros Hsmall. unfold pendingDraw. cbn [dc_indexCount]. rewrite Hcnt.
    apply initIndices_take; [exact Hsmall | exact Hcap]. }
  split.
  { intros ops1 ops2 Hops. subst ops.
    rewrite totalQuads_app in *.
    destruct (runOps_step math T ops1 0 e s rest Hstack HQ0 ltac:(lia)
                (sameTexture_prefix _ _ _ _ _ Hsame)) as (Hret1 & HQa & HKa).
    cbn [Nat.add] in HQa.
    pose proof (sameTexture_suffix math T ops1 ops2 0 e s rest Hstack HQ0
                  ltac:(lia) Hsame) as Hsame2.
    unfold exec, result in *.
    remember (snd (runOps math ops1 e)) as ea eqn:Headef.
    assert (Hsa : stateStack (states ea) = s :: rest)
      by (rewrite (k_states _ _ _ _ HKa); exact Hstack).
    destruct (runOps_step math T ops2 (totalQuads s ops1) ea s rest Hsa HQa
                ltac:(rewrite (k_max _ _ _ _ HKa); lia) Hsame2)
      as (_ & _ & HKb).
    assert (He1 : e1 = snd (runOps math ops2 ea)).
    { rewrite He1def, Headef, runOps_app. unfold bind.
      destruct (runOps math ops1 e) as [[[]|x] ex]; [reflexivity|discriminate]. }
    rewrite <- He1 in HKb.
    unfold pendingDraw. cbn [dc_vertices].
    rewrite take_take, (q_count _ _ _ HQa), Hcnt.
    change vertexCountPerSprite with 36%nat.
    rewrite Nat.min_l by lia.
    symmetry. apply (k_prefix _ _ _ _ HKb). }
  split; [exact Hbc | exact Hct].
Qed.

(** C2.  [n >= 1] quads of texture [A] are queued and an enqueue call
    resolves to a different texture [B].  The call first submits the whole
    [A] batch in one draw and leaves the state [e2] with an empty queue bound
    to [B]; only then it pushes its own quads, the first at batch count 0
    (arena offset 0): the arena then starts with the blocks the call
    computes from its arguments.  It submits no other draw, and the draw a
    later [flush()] submits for [B] carries exactly those blocks, and no
    vertex of [A]. *)
Theorem texture_change_flushes_first (math : MathLib) (A B : tex) (n : nat)
    (op : EnqueueOp) (e : Blaze2D) (s : RenderState)
    (rest : list RenderState)
    (Hstack : stateStack (states e) = s :: rest)
    (Hqueued : Queue A n e)
    (Hn : (1 <= n)%nat)
    (HB : result (opTexture op) e = Ret (TVTexture B))
    (HAB : A <> B)
    (Hcap : (opQuads s op <= maxBatchSize (batch e))%nat) :
  exists e2,
    drawCalls (gl_log (gl e2)) = drawCalls (gl_log (gl e)) ++ [pendingDraw e] /\
    dc_texture (pendingDraw e) = A /\
    dc_vertices (pendingDraw e) = take (n * 36) (vertexData (batch e)) /\
    dc_indexCount (pendingDraw e) = (n * 6)%nat /\
    batchCount (batch e2) = 0%nat /\
    currentTexture (batch e2) = Some B /\
    dc_vertices (pendingDraw e2) = [] /\
    length (opBlocks math op e) = opQuads s op /\
    Forall (fun b => length b = 36%nat) (opBlocks math op e) /\
    runOp math op e = (Ret tt, foldl pushed e2 (opBlocks math op e)) /\
    take (opQuads s op * 36) (vertexData (batch (exec (runOp math op) e)))
    = concat (opBlocks math op e) /\
    drawCalls (gl_log (gl (exec (runOp math op) e)))
    = drawCalls (gl_log (gl e)) ++ [pendingDraw e] /\
    batchCount (batch (exec (runOp math op) e)) = opQuads s op /\
    dc_texture (pendingDraw (exec (runOp math op) e)) = B /\
    dc_vertices (pendingDraw (exec (runOp math op) e))
    = concat (opBlocks math op e) /\
    drawCalls (gl_log (gl (exec flush (exec (runOp math op) e))))
    = drawCalls (gl_log (gl e))
      ++ [pendingDraw e; pendingDraw (exec (runOp math op) e)].
Proof.
  pose proof (opQuads_pos s op) as Hk.
  assert (HcurA : currentTexture (batch e) = Some A)
    by (apply (q_tex _ _ _ Hqueued); lia).
  assert (Hcnt : batchCount (batch e) = n) by apply (q_count _ _ _ Hqueued).
  assert (Ha : arenaOK e) by apply (q_arena _ _ _ Hqueued).
  assert (Hch : switchChanged B e = true).
  { unfold switchChanged. rewrite HcurA.
    rewrite bool_decide_eq_false_2 by congruence. reflexivity. }
  assert (Hkeep : switchKeeps B e = 0%nat)
    by (unfold switchKeeps; rewrite Hch; reflexivity).
  assert (Hdraw : switchDraws B e = [pendingDraw e]).
  { unfold switchDraws. rewrite Hch, Hcnt.
    destruct n; [lia | reflexivity]. }
  pose proof (runOp_writes math B e s rest op Hstack Ha
                ltac:(rewrite Hkeep; exact Hcap) HB) as Hstep.
  pose proof (opBlocks_length math B e s rest op Hstack HB) as Hlen.
  rewrite Hkeep, Hdraw in Hstep.
  destruct Hstep as (Hret & e2 & HQ2 & HK2 & Hcur2 & Hall & Hr).
  set (blocks := opBlocks math op e) in *.
  assert (Hrun : runOp math op e = (Ret tt, foldl pushed e2 blocks)).
  { destruct (runOp math op e) as [r e3]. cbn [fst snd] in *. congruence. }
  assert (Hmax2 : maxBatchSize (batch e2) = maxBatchSize (batch e))
    by apply (k_max _ _ _ _ HK2).
  destruct (pushed_many B blocks 0 e2 HQ2 Hcur2 Hall
              ltac:(rewrite Hmax2, Hlen; exact Hcap)) as [HQ3 HK3].
  pose proof (pushed_content B blocks 0 e2 HQ2 Hcur2 Hall
                ltac:(rewrite Hmax2, Hlen; exact Hcap)) as Hcontent.
  cbn [Nat.add Nat.mul take app] in HQ3, Hcontent.
  exists e2. unfold exec. rewrite Hrun. cbn [snd].
  set (e3 := foldl pushed e2 blocks) in *.
  assert (Hcnt3 : batchCount (batch e3) = length blocks)
    by apply (q_count _ _ _ HQ3).
  assert (Hcur3 : currentTexture (batch e3) = Some B)
    by (apply (q_tex _ _ _ HQ3); lia).
  assert (Hd3 : drawCalls (gl_log (gl e3))
                = drawCalls (gl_log (gl e)) ++ [pendingDraw e]).
  { rewrite (k_draws _ _ _ _ HK3), app_nil_r. apply (k_draws _ _ _ _ HK2). }
  split; [apply (k_draws _ _ _ _ HK2)|].
  split; [unfold pendingDraw; cbn [dc_texture]; rewrite HcurA; reflexivity|].
  split; [unfold pendingDraw; cbn [dc_vertices]; rewrite Hcnt; reflexivity|].
  split; [unfold pendingDraw; cbn [dc_indexCount]; rewrite Hcnt; reflexivity|].
  split; [apply (q_count _ _ _ HQ2)|].
  split; [exact Hcur2|].
  split; [unfold pendingDraw; cbn [dc_vertices];
          rewrite (q_count _ _ _ HQ2); reflexivity|].
  split; [exact Hlen|].
  split; [exact Hall|].
  split; [reflexivity|].
  split; [rewrite <- Hlen; exact Hcontent|].
  split; [exact Hd3|].
  split; [congruence|].
  split; [unfold pendingDraw; cbn [dc_texture]; rewrite Hcur3; reflexivity|].
  split.
  { unfold pendingDraw. cbn [dc_vertices]. rewrite Hcnt3. exact Hcontent. }
  assert (Hnz : batchCount (batch e3) <> 0%nat) by lia.
  destruct (flush_nonempty e3 Hnz) as (Hlog & _).
  rewrite Hlog, drawCalls_app, Hd3, <- app_assoc. reflexivity.
Qed.

Lemma batch_single_submission_witness :
  length (drawCalls (gl_log (gl (exec flush
            (exec (runOps approxMath demoOps) demoEngine))))) = 1%nat /\
  dc_indexCount (pendingDraw (exec (runOps approxMath demoOps) demoEngine))
  = 18%nat /\
  dc_vertices (pendingDraw (exec (runOps approxMath demoOps) demoEngine))
  = concat (seqBlocks approxMath demoOps demoEngine).
Proof.
  assert (Hne : demoOps <> []) by discriminate.
  assert (Hsame : sameTexture approxMath 0%nat demoOps demoEngine)
    by (vm_compute; repeat split; reflexivity).
  assert (Hcap : (totalQuads demoState demoOps
                  <= maxBatchSize (batch demoEngine))%nat)
    by (vm_compute; lia).
  destruct (batch_single_submission approxMath 0%nat demoOps demoEngine
              demoState [] eq_refl eq_refl eq_refl Hne Hsame Hcap)
    as (_ & _ & _ & Hlog & _ & Hv & _ & _ & _ & Hidx & _).
  split; [rewrite Hlog; reflexivity|]. split; [exact Hidx | exact Hv].
Defined.

Lemma texture_change_flushes_first_witness :
  length (drawCalls (gl_log (gl (exec
            (runOp approxMath
               (OpDrawSpriteFast (ITexture 5%nat) 5 5 10 10 0 1 None))
            demoEngineQuad)))) = 1%nat /\
  batchCount (batch (exec
            (runOp approxMath
               (OpDrawSpriteFast (ITexture 5%nat) 5 5 10 10 0 1 None))
            demoEngineQuad)) = 1%nat /\
  dc_vertices (pendingDraw (exec
            (runOp approxMath
               (OpDrawSpriteFast (ITexture 5%nat) 5 5 10 10 0 1 None))
            demoEngineQuad))
  = concat (opBlocks approxMath
              (OpDrawSpriteFast (ITexture 5%nat) 5 5 10 10 0 1 None)
              demoEngineQuad).
Proof.
  assert (HQ : Queue 0%nat 1 demoEngineQuad)
    by (split; [reflexivity | reflexivity | intros _; reflexivity]).
  assert (HAB : 0%nat <> 5%nat) by discriminate.
  assert (Hcap : (opQuads demoState
                    (OpDrawSpriteFast (ITexture 5%nat) 5 5 10 10 0 1 None)
                  <= maxBatchSize (batch demoEngineQuad))%nat)
    by (vm_compute; lia).
  destruct (texture_change_flushes_first approxMath 0%nat 5%nat 1
              (OpDrawSpriteFast (ITexture 5%nat) 5 5 10 10 0 1 None)
              demoEngineQuad demoState [] eq_refl HQ (le_n 1) eq_refl HAB Hcap)
    as (e2 & _ & _ & _ & _ & _ & _ & _ & _ & _ & _ & _ & Hd & Hc & _ & Hv & _).
  split; [rewrite Hd; reflexivity|]. split; [exact Hc | exact Hv].
Defined.

(** ** Degenerate draws *)

Lemma switchTexture_eq T e :
  switchTexture (TVTexture T) e = (Ret tt, switched T e).
Proof.
  unfold switchTexture, switched, bind. cbn [gets].
  fold (switchChanged T e).
  destruct (switchChanged T e); [|reflexivity].
  destruct (0 <? batchCount (batch e))%nat; cbn [when].
  - rewrite (flush_eta e). reflexivity.
  - reflexivity.
Qed.

Lemma switched_facts T e :
  vertexData (batch (switched T e)) = vertexData (batch e)
  /\ maxBatchSize (batch (switched T e)) = maxBatchSize (batch e)
  /\ states (switched T e) = states e
  /\ textures (switched T e) = textures e
  /\ dn (switched T e) = dn e
  /\ (batchCount (batch (switched T e)) <= batchCount (batch e))%nat
  /\ drawCalls (gl_log (gl (switched T e)))
     = drawCalls (gl_log (gl e)) ++ switchDraws T e.
Proof.
  unfold switched, switchDraws.
  destruct (switchChanged T e); cbn [andb].
  - destruct (0 <? batchCount (batch e))%nat eqn:En.
    + apply Nat.ltb_lt in En.
      assert (Hnz : batchCount (batch e) <> 0%nat) by lia.
      destruct (flush_nonempty e Hnz)
        as (Hlog & _ & _ & Hbc & _ & Hvd & Hmx & _ & _ & Hst & Htx & Hdn & _).
      cbn. rewrite Hlog, drawCalls_app, Hbc.
      repeat split; try assumption. lia.
    + cbn. rewrite app_nil_r. repeat split; lia.
  - rewrite app_nil_r. repeat split; lia.
Qed.

Lemma drawLine_zero_length (math : MathLib) x1 y1 x2 y2 lw rgba a m e :
  (forall q, q == 0 -> Math_sqrt math q <= 0) ->
  x1 == x2 -> y1 == y2 ->
  drawLine_ math x1 y1 x2 y2 lw rgba a m e
  = (Ret tt, switched (whiteTexture (textures e)) e).
Proof.
  intros Hsqrt Hx Hy. unfold drawLine_.
  unfold bind at 1. cbn [gets].
  rewrite (bind_Ret _ _ _ _ _ (switchTexture_eq _ e)).
  cbv zeta.
  assert (Hz : (x2 - x1) * (x2 - x1) + (y2 - y1) * (y2 - y1) == 0)
    by (rewrite Hx, Hy; ring).
  assert (Hl : Qleb (Math_sqrt math
                 ((x2 - x1) * (x2 - x1) + (y2 - y1) * (y2 - y1))) 0 = true).
  { unfold Qleb. apply Qle_bool_iff. apply Hsqrt. exact Hz. }
  rewrite Hl. reflexivity.
Qed.

(** C9, as the code has it.  A zero-length line runs the texture switch to
    the white texture and nothing else: it writes no vertex, never raises
    the batch count, leaves the arena, the state stack, the texture manager
    and the damage-number lane as they were, and submits only the draw of
    the switch (none when the white texture is bound and the batch is not
    full, in which case the engine is unchanged).  Empty text and a null
    image leave the whole engine unchanged. *)
Theorem degenerate_draws_write_nothing (math : MathLib) (e : Blaze2D)
    (s : RenderState) (rest : list RenderState)
    (x1 y1 x2 y2 lw a : Q) (rgba : RGBA)
    (Hsqrt : forall q, q == 0 -> Math_sqrt math q <= 0)
    (Hx : x1 == x2) (Hy : y1 == y2)
    (Hstack : stateStack (states e) = s :: rest) :
  drawLine math x1 y1 x2 y2 lw rgba a e
  = switchTexture (TVTexture (whiteTexture (textures e))) e /\
  result (drawLine math x1 y1 x2 y2 lw rgba a) e = Ret tt /\
  vertexData (batch (exec (drawLine math x1 y1 x2 y2 lw rgba a) e))
  = vertexData (batch e) /\
  (batchCount (batch (exec (drawLine math x1 y1 x2 y2 lw rgba a) e))
   <= batchCount (batch e))%nat /\
  states (exec (drawLine math x1 y1 x2 y2 lw rgba a) e) = states e /\
  textures (exec (drawLine math x1 y1 x2 y2 lw rgba a) e) = textures e /\
  dn (exec (drawLine math x1 y1 x2 y2 lw rgba a) e) = dn e /\
  drawCalls (gl_log (gl (exec (drawLine math x1 y1 x2 y2 lw rgba a) e)))
  = drawCalls (gl_log (gl e)) ++ switchDraws (whiteTexture (textures e)) e /\
  (currentTexture (batch e) = Some (whiteTexture (textures e)) ->
   (batchCount (batch e) < maxBatchSize (batch e))%nat ->
   drawLine math x1 y1 x2 y2 lw rgba a e = (Ret tt, e)) /\
  (forall x y size color al align baseline,
     drawBitmapText math "" x y size color al align baseline e = (Ret tt, e)) /\
  (forall x y vx vy startTime duration size color al,
     drawGPUDamageNumber math "" x y vx vy startTime duration size color al e
     = (Ret tt, e)) /\
  (forall args, drawImage math None args e = (Ret tt, e)) /\
  (forall x y w h a0 b0 a1 b1 rotation al flipX flipY tintR tintG tintB fl,
     drawTexture math DTNull x y w h a0 b0 a1 b1 rotation al flipX flipY
       tintR tintG tintB fl e = (Ret tt, e)) /\
  (forall x y w h rotation al tint,
     drawSpriteFast math INull x y w h rotation al tint e = (Ret tt, e)).
Proof.
  assert (Hline : drawLine math x1 y1 x2 y2 lw rgba a e
                  = (Ret tt, switched (whiteTexture (textures e)) e)).
  { unfold drawLine.
    rewrite (bind_Ret _ _ _ _ _ (get_state_ok e s rest Hstack)).
    apply drawLine_zero_length; assumption. }
  destruct (switched_facts (whiteTexture (textures e)) e)
    as (Hvd & _ & Hst & Htx & Hdn & Hbc & Hdr).
  unfold exec, result. rewrite Hline. cbn [fst snd].
  split; [symmetry; apply switchTexture_eq|].
  split; [reflexivity|].
  split; [exact Hvd|]. split; [exact Hbc|]. split; [exact Hst|].
  split; [exact Htx|]. split; [exact Hdn|]. split; [exact Hdr|].
  split.
  { intros Hcur Hroom. unfold switched, switchChanged.
    rewrite Hcur, bool_decide_eq_true_2 by reflexivity.
    destruct (Nat.leb_spec (maxBatchSize (batch e)) (batchCount (batch e)));
      [lia | reflexivity]. }
  repeat split.
Qed.

Lemma degenerate_draws_write_nothing_witness :
  drawLine approxMath 3 4 3 4 2 WHITE_RGBA 1 demoEngineQuad
  = (Ret tt, demoEngineQuad).
Proof.
  assert (Hsqrt : forall q, q == 0 -> Math_sqrt approxMath q <= 0).
  { intros q Hq. cbn [Math_sqrt approxMath]. unfold Qleb.
    destruct (Qle_bool q 0) eqn:E; [apply Qle_refl|].
    rewrite Hq in E. discriminate E. }
  destruct (degenerate_draws_write_nothing approxMath demoEngineQuad
              demoState [] 3 4 3 4 2 1 WHITE_RGBA Hsqrt
              (Qeq_refl 3) (Qeq_refl 4) eq_refl)
    as (_ & _ & _ & _ & _ & _ & _ & _ & Hsame & _).
  apply Hsame; [reflexivity | vm_compute; lia].
Defined.

(** The zero-length line that C9 says changes nothing: with a quad of
    texture 5 queued it submits that quad's draw, empties the batch and
    binds the white texture. *)
Lemma zero_length_line_flushes :
  drawCalls (gl_log (gl demoEngineSprite)) = [] /\
  batchCount (batch demoEngineSprite) = 1%nat /\
  currentTexture (batch demoEngineSprite) = Some 5%nat /\
  result (drawLine approxMath 3 4 3 4 2 WHITE_RGBA 1) demoEngineSprite
  = Ret tt /\
  drawCalls (gl_log (gl (exec (drawLine approxMath 3 4 3 4 2 WHITE_RGBA 1)
                              demoEngineSprite)))
  = [pendingDraw demoEngineSprite] /\
  batchCount (batch (exec (drawLine approxMath 3 4 3 4 2 WHITE_RGBA 1)
                          demoEngineSprite)) = 0%nat /\
  currentTexture (batch (exec (drawLine approxMath 3 4 3 4 2 WHITE_RGBA 1)
                              demoEngineSprite)) = Some 0%nat.
Proof. vm_compute. repeat split. Qed.

(** ** The state stack under [save()] and [restore()] *)

Lemma KeepsStack_ret {A} (a : A) : KeepsStack (ret a).
Proof. intros e. reflexivity. Qed.

Lemma KeepsStack_raise {A} x : KeepsStack (@raise A x).
Proof. intros e. reflexivity. Qed.

Lemma KeepsStack_bind {A B} (m : M A) (k : A -> M B) :
  KeepsStack m -> (forall a, KeepsStack (k a)) -> KeepsStack (bind m k).
Proof.
  intros Hm Hk e. unfold bind. specialize (Hm e).
  destruct (m e) as [[a|x] e1]; cbn [snd] in *; [|exact Hm].
  rewrite (Hk a e1). exact Hm.
Qed.

Lemma KeepsStack_read_style r : KeepsStack (read_style r).
Proof. intros e. unfold read_style. destruct (_ !! _); reflexivity. Qed.

Lemma KeepsStack_alloc_style o : KeepsStack (alloc_style o).
Proof. intros e. reflexivity. Qed.

Lemma KeepsStack_write_style r o : KeepsStack (write_style r o).
Proof. intros e. reflexivity. Qed.

Lemma KeepsStack_style_set r src : KeepsStack (style_set r src).
Proof.
  unfold style_set. apply KeepsStack_bind; [apply KeepsStack_read_style|].
  intros [d|d|g]; try apply KeepsStack_raise.
  destruct (f32_set d src); [apply KeepsStack_write_style|apply KeepsStack_raise].
Qed.

Lemma KeepsStack_run_steps steps : forall to,
  Forall (fun st => forall to, KeepsStack (st to)) steps ->
  KeepsStack (run_steps steps to).
Proof.
  induction steps as [|st steps IH]; intros to Hall e; cbn [run_steps].
  - reflexivity.
  - inversion Hall as [|? ? Hst Hrest]; subst.
    specialize (Hst to e).
    destruct (st to e) as [[to'|x] e1]; cbn [snd] in *; [|exact Hst].
    rewrite (IH to' Hrest e1). exact Hst.
Qed.

Lemma KeepsStack_copyState from to : KeepsStack (copyState from to).
Proof.
  unfold copyState. apply KeepsStack_run_steps.
  repeat apply List.Forall_cons; try apply List.Forall_nil; intros to'.
  - apply KeepsStack_ret.
  - apply KeepsStack_bind; [apply KeepsStack_read_style|]. intros fo.
    destruct (isGradient fo); [apply KeepsStack_ret|].
    apply KeepsStack_bind; [apply KeepsStack_read_style|]. intros o.
    destruct (isGradient o || length_not_4 o); [|apply KeepsStack_ret].
    apply KeepsStack_bind; [apply KeepsStack_alloc_style|].
    intros; apply KeepsStack_ret.
  - apply KeepsStack_bind; [apply KeepsStack_read_style|]. intros fo.
    destruct (isGradient fo); [apply KeepsStack_ret|].
    apply KeepsStack_bind; [apply KeepsStack_style_set|].
    intros; apply KeepsStack_ret.
  - apply KeepsStack_ret.
  - destruct (negb _); apply KeepsStack_ret.
  - destruct (f32_set _ _); [apply KeepsStack_ret | apply KeepsStack_raise].
  - apply KeepsStack_ret.
Qed.

(** [save()] pushes one state or, when it throws, leaves the stack as it
    is. *)
Lemma save_stack e :
  stateStack (states (exec save e)) = stateStack (states e)
  \/ exists next, stateStack (states (exec save e))
                  = next :: stateStack (states e).
Proof.
  unfold exec, save.
  destruct (stateStack (states e)) as [|s rest] eqn:Hs.
  { left. unfold bind at 1, get_state. rewrite Hs. exact Hs. }
  erewrite bind_Ret by (eapply get_state_ok; exact Hs).
  unfold bind at 1. cbn [gets].
  assert (Hnext : forall (m : M RenderState) (k : RenderState -> M unit),
    KeepsStack m ->
    (forall p e1, stateStack (states e1) = s :: rest ->
       stateStack (states (snd (k p e1))) = s :: rest
       \/ exists next, stateStack (states (snd (k p e1))) = next :: s :: rest) ->
    stateStack (states (snd (bind m k e))) = s :: rest
    \/ exists next, stateStack (states (snd (bind m k e))) = next :: s :: rest).
  { intros m k Hm Hk. unfold bind. specialize (Hm e).
    destruct (m e) as [[p|x] e1]; cbn [snd] in *.
    - apply Hk. rewrite Hm. exact Hs.
    - left. rewrite Hm. exact Hs. }
  apply Hnext.
  - destruct (statePool (states e)) as [|p pool].
    + unfold createDefaultState.
      apply KeepsStack_bind; [apply KeepsStack_alloc_style|].
      intros; apply KeepsStack_ret.
    + apply KeepsStack_bind; [|intros; apply KeepsStack_ret].
      intros e1. reflexivity.
  - intros p e1 Hs1. cbv beta.
    pose proof (KeepsStack_copyState s p e1) as Hc.
    destruct (copyState s p e1) as [[[[x|] next']|x] e2] eqn:Hcopy;
      cbn [snd] in Hc.
    + left. rewrite (bind_Ret _ _ _ _ _ Hcopy). cbn [raise snd].
      rewrite Hc. exact Hs1.
    + right. exists next'. rewrite (bind_Ret _ _ _ _ _ Hcopy).
      unfold bind, gets, set_stateStack, modify.
      cbn [snd states stateStack with_states]. rewrite Hc, Hs1. reflexivity.
    + left. rewrite (bind_Raise _ _ _ _ _ Hcopy). cbn [snd].
      rewrite Hc. exact Hs1.
Qed.

(** [restore()] with only the root state on the stack does nothing. *)
Lemma restore_root_noop e s :
  stateStack (states e) = [s] -> restore e = (Ret tt, e).
Proof.
  intros H. unfold restore, bind. cbn [gets]. rewrite H. reflexivity.
Qed.

Lemma updateBlendMode_states e : states (snd (updateBlendMode e)) = states e.
Proof.
  unfold updateBlendMode, get_globalCompositeOperation, get_state, bind, ret.
  destruct (stateStack (states e)); [reflexivity|].
  repeat (match goal with
          | |- context [if ?b then _ else _] => destruct b
          end); reflexivity.
Qed.

(** [restore()] pops one state when there are at least two, and nothing
    otherwise. *)
Lemma restore_stack e :
  stateStack (states (exec restore e))
  = match stateStack (states e) with
    | _ :: (_ :: _) as rest => rest
    | stack => stack
    end.
Proof.
  unfold exec, restore. unfold bind at 1. cbn [gets].
  destruct (stateStack (states e)) as [|d [|s rest]] eqn:Hs;
    cbn [length Nat.leb]; try (cbn; exact Hs).
  unfold bind at 1, get_globalCompositeOperation.
  unfold bind at 1, get_state. rewrite Hs. cbn [ret].
  unfold bind at 1. cbn [set_stateStack modify].
  unfold bind at 1. cbn [gets].
  unfold bind at 1. cbn [set_statePool modify].
  unfold bind at 1, get_globalCompositeOperation.
  unfold bind at 1, get_state. cbn [stateStack states with_states ret].
  match goal with |- context [bool_decide ?P] => destruct (bool_decide P) end.
  - reflexivity.
  - unfold bind. rewrite (flush_eta _).
    match goal with
    | |- context [updateBlendMode ?x] =>
        pose proof (updateBlendMode_states x) as Hu;
        destruct (updateBlendMode x) as [[[]|ex] e3]
    end; cbn [snd] in *; rewrite ?Hu, flush_states; reflexivity.
Qed.

(** The state stack never gets shallower than the root state. *)
Lemma stack_depth_ge_1 (cs : list StackCall) : forall e,
  (1 <= length (stateStack (states e)))%nat ->
  (1 <= length (stateStack (states (runStackCalls cs e))))%nat.
Proof.
  unfold runStackCalls.
  induction cs as [|c cs IH]; intros e H; cbn [foldl]; [exact H|].
  apply IH. destruct c; cbn [runStackCall].
  - destruct (save_stack e) as [E|[next E]]; rewrite E; cbn [length]; lia.
  - rewrite restore_stack.
    destruct (stateStack (states e)) as [|d [|s rest]]; cbn [length] in *; lia.
Qed.

(** C3 on a reachable state.  After [save(); fillStyle = v; restore();
    fillStyle = v] with a typed array [v = [0, 1, 0, 1]], the sequence
    [save(); fillStyle = '#ff0000'; restore()] returns normally and leaves
    the stack as it was, but the fill style of the restored top state, the
    array [v] itself, now holds [1, 0, 0, 1]: the pooled state that [save()]
    reused shares [v] with the root state. *)
Theorem save_restore_fill_style_alias :
  result saveRedRestore fillDemoReached = Ret tt /\
  stateStack (states (exec saveRedRestore fillDemoReached))
  = stateStack (states fillDemoReached) /\
  fillStyle <$> head (stateStack (states fillDemoReached))
  = Some (VObj 1%nat) /\
  fillStyleRGBA <$> head (stateStack (states fillDemoReached))
  = Some 1%nat /\
  styleHeap (states fillDemoReached) !! 1%nat = Some (OF32 [0; 1; 0; 1]) /\
  styleHeap (states (exec saveRedRestore fillDemoReached)) !! 1%nat
  = Some (OF32 [1; 0; 0; 1]).
Proof. vm_compute. repeat split. Qed.

(** With a plain array [v] instead, the pooled state keeps [v] as its
    [fillStyleRGBA], and the next [save()] throws in [_copyState]: a plain
    array has no [set]. *)
Lemma save_throws_on_pooled_array :
  result (save ;;; set_fillStyle_prop approxMath (VObj 1%nat) ;;; restore)
         arrayDemo = Ret tt /\
  result save
    (exec (save ;;; set_fillStyle_prop approxMath (VObj 1%nat) ;;; restore)
          arrayDemo) = Raise TypeError.
Proof. vm_compute. split; reflexivity. Qed.

(** ** Shelf packing in the atlas *)












(** ** Atlas entries are kept *)


























(** ** Updates in place *)




































(** ** Uploads that throw *)

Lemma addToAtlas_throws id image e :
  img_uploadThrows image = true ->
  exists e1, addToAtlas id image e = (Ret None, e1)
             /\ textureCache (textures e1) = textureCache (textures e)
             /\ images (textures e1) = images (textures e)
             /\ whiteTexture (textures e1) = whiteTexture (textures e)
             /\ maxTextureCacheSize (textures e1)
                = maxTextureCacheSize (textures e).
Proof.
  intros Hthrow. unfold addToAtlas.
  destruct (_ || _); [exists e; repeat split|].
  unfold bind at 1. cbn [gets]. unfold bind at 1.
  destruct (atlasSize (textures e) <? _)%Z; cbn [when modify ret];
    unfold bind at 1; cbn [gets];
    (match goal with |- context [if ?b then ret None else _] => destruct b end;
     [eexists; split; [reflexivity|]; repeat split|]);
    unfold bind at 1, try_catch, gl_texSubImage2D; rewrite Hthrow;
    cbn [raise ret negb]; eexists; split; try reflexivity; repeat split.
Qed.

Lemma cleanup_one_ok img e : exists e1, cleanup_one img e = (Ret tt, e1)
  /\ whiteTexture (textures e1) = whiteTexture (textures e).
Proof.
  unfold cleanup_one, bind. cbn [gets].
  destruct (JSMap.get img (textureCache (textures e)));
    [destruct (negb _)|]; eexists; split; reflexivity.
Qed.

Lemma cleanup_loop_ok victims : forall e,
  exists e1, cleanup_loop victims e = (Ret tt, e1)
  /\ whiteTexture (textures e1) = whiteTexture (textures e).
Proof.
  induction victims as [|[img stamp] rest IH]; intros e; cbn [cleanup_loop].
  - exists e. split; reflexivity.
  - destruct (cleanup_one_ok img e) as (e1 & H1 & W1).
    rewrite (bind_Ret _ _ _ _ _ H1).
    destruct (IH e1) as (e2 & H2 & W2). exists e2. split; congruence.
Qed.

Lemma cleanupTextures_ok e : exists e1, cleanupTextures e = (Ret tt, e1)
  /\ whiteTexture (textures e1) = whiteTexture (textures e).
Proof. unfold cleanupTextures. unfold bind at 1. cbn [gets]. apply cleanup_loop_ok. Qed.

(** The first upload of an image is guarded: when it throws, [getTexture]
    answers with the white texture. *)
Lemma getTexture_first_upload_caught e (id : imgid) image :
  images (textures e) !! id = Some image ->
  img_uploadThrows image = true ->
  img_isGLTexture image = false ->
  img_glTextureInfo image = None ->
  JSMap.get id (atlasCache (textures e)) = None ->
  JSMap.get id (textureCache (textures e)) = None ->
  result (getTexture (IRef id)) e = Ret (RTexture (whiteTexture (textures e))).
Proof.
  intros Himg Hthrow Hgl Hinfo Hatlas Hcache.
  unfold result. cbn [getTexture]. unfold bind at 1. cbn [gets].
  rewrite Himg. unfold getTexture_image. rewrite Hinfo, Hgl.
  unfold bind at 1. cbn [gets]. rewrite Hatlas. cbv zeta.
  destruct (addToAtlas_throws id image e Hthrow)
    as (e1 & Hadd & Hc1 & _ & Hw1 & _).
  assert (Hplaced : exists e1',
    (if (0 <? img_width image)%Z && (0 <? img_height image)%Z
        && (img_width image <=? 512)%Z && (img_height image <=? 512)%Z
        && negb (img_disableAutoAtlas image)
     then addToAtlas id image else ret None) e = (Ret None, e1')
    /\ textureCache (textures e1') = textureCache (textures e)
    /\ whiteTexture (textures e1') = whiteTexture (textures e)).
  { destruct (_ && _); [exists e1 | exists e]; repeat split; assumption. }
  destruct Hplaced as (e1' & Hpl & Hc & Hw).
  rewrite (bind_Ret _ _ _ _ _ Hpl).
  unfold bind at 1. cbn [gets]. rewrite Hc, Hcache.
  assert (Hr : forall b, exists e3,
    (when b cleanupTextures ;;;
     tx <- gl_createTexture ;;
     uploaded <- try_catch (gl_texImage2D tx id image ;;; ret true) (ret false) ;;
     if negb uploaded then ret None
     else modify (with_textures (fun t =>
            set_textureCache (JSMap.set id tx (textureCache t)) t)) ;;;
          ret (Some tx)) e1' = (Ret None, e3)).
  { intros [|]; cbn [when].
    - destruct (cleanupTextures_ok e1') as (e2 & H2 & _).
      rewrite (bind_Ret _ _ _ _ _ H2).
      unfold bind, gl_createTexture, try_catch, gl_texImage2D.
      rewrite Hthrow. cbn. eexists. reflexivity.
    - unfold bind, gl_createTexture, try_catch, gl_texImage2D.
      rewrite Hthrow. cbn. eexists. reflexivity. }
  match goal with
  | |- context [when ?b cleanupTextures] => destruct (Hr b) as (e3 & Hr3)
  end.
  rewrite (bind_Ret _ _ _ _ _ Hr3).
  cbn [ret fst]. rewrite Hw. reflexivity.
Qed.

(** C7.  When the upload of an image throws: the first upload is guarded
    and [getTexture] answers with the white texture, but the re-upload of a
    dirty image that already has a dedicated texture is not, and the
    exception leaves [getTexture] and the draw call. *)
Theorem getTexture_reupload_throws (math : MathLib) (e : Blaze2D)
    (id : imgid) (image : Image)
    (Himg : images (textures e) !! id = Some image)
    (Hthrow : img_uploadThrows image = true)
    (Hgl : img_isGLTexture image = false)
    (Hatlas : JSMap.get id (atlasCache (textures e)) = None) :
  (img_glTextureInfo image = None ->
   JSMap.get id (textureCache (textures e)) = None ->
   result (getTexture (IRef id)) e
   = Ret (RTexture (whiteTexture (textures e)))) /\
  (img_needsUpdate image = true ->
   (exists tx, JSMap.get id (textureCache (textures e)) = Some tx) ->
   result (getTexture (IRef id)) e = Raise UploadError /\
   (forall args, result (drawImage math (Some id) args) e = Raise UploadError) /\
   (forall x y w h rotation a tint,
      result (drawSpriteFast math (IRef id) x y w h rotation a tint) e
      = Raise UploadError)).
Proof.
  split.
  { intros Hinfo Hcache.
    apply getTexture_first_upload_caught with (image := image); assumption. }
  intros Hdirty [tx Hcache].
  assert (Hget : exists e', getTexture (IRef id) e = (Raise UploadError, e')).
  { cbn [getTexture]. unfold bind at 1. cbn [gets].
    rewrite Himg. unfold getTexture_image. rewrite Hdirty, Hgl.
    destruct (addToAtlas_throws id image e Hthrow) as (e1 & Hadd & Hc1 & _).
    assert (Hplaced : exists e1',
      (if (0 <? img_width image)%Z && (0 <? img_height image)%Z
          && (img_width image <=? 512)%Z && (img_height image <=? 512)%Z
          && negb (img_disableAutoAtlas image)
       then addToAtlas id image else ret None) e = (Ret None, e1')
      /\ textureCache (textures e1') = textureCache (textures e)).
    { destruct (_ && _); [exists e1 | exists e]; split;
        first [assumption | reflexivity]. }
    destruct Hplaced as (e1' & Hpl & Hc).
    destruct (img_glTextureInfo image); eexists.
    all: unfold bind at 1; cbn [gets]; rewrite Hatlas; cbv zeta.
    all: rewrite (bind_Ret _ _ _ _ _ Hpl).
    all: unfold bind at 1; cbn [gets]; rewrite Hc, Hcache.
    all: unfold bind, when, gl_texImage2D; rewrite Hthrow.
    all: cbn [raise]; reflexivity. }
  destruct Hget as (e' & Hget).
  split; [unfold result; rewrite Hget; reflexivity|]. split.
  - intros args. unfold result, drawImage. unfold bind at 1. cbn [gets].
    rewrite Himg.
    destruct args; cbv zeta beta iota;
      rewrite (bind_Raise _ _ _ _ _ Hget); reflexivity.
  - intros x y w h rotation a tint. unfold result, drawSpriteFast.
    rewrite (bind_Raise _ _ _ _ _ Hget). reflexivity.
Qed.

Lemma getTexture_reupload_throws_witness :
  result (getTexture (IRef 7%nat)) taintedEngine = Raise UploadError.
Proof.
  destruct (getTexture_reupload_throws approxMath taintedEngine 7%nat
              (taint (set_img_glTextureInfo
                        (Some {| ti_texture := 3%nat; ti_uv := None;
                                 ti_width := 600; ti_height := 600 |})
                        (plainImage 600 600)))
              eq_refl eq_refl eq_refl eq_refl) as [_ H].
  destruct (H eq_refl (ex_intro _ 3%nat eq_refl)) as [Hget _].
  exact Hget.
Defined.

(** ** Eviction from the texture cache *)

Lemma insert_by_stamp_perm x l : insert_by_stamp x l ≡ₚ x :: l.
Proof.
  induction l as [|y l IH]; cbn [insert_by_stamp]; [reflexivity|].
  destruct (snd x <=? snd y)%Z; [reflexivity|].
  rewrite IH. apply Permutation_swap.
Qed.

(** The victims are taken from a reordering of the usage entries ... *)
Lemma sort_by_stamp_perm l : sort_by_stamp l ≡ₚ l.
Proof.
  unfold sort_by_stamp. induction l as [|x l IH]; cbn [foldr]; [reflexivity|].
  rewrite insert_by_stamp_perm, IH. reflexivity.
Qed.

Lemma insert_by_stamp_sorted x l :
  Sorted (fun a b => (snd a <= snd b)%Z) l ->
  Sorted (fun a b => (snd a <= snd b)%Z) (insert_by_stamp x l).
Proof.
  induction l as [|y l IH]; intros Hs; cbn [insert_by_stamp].
  - repeat constructor.
  - destruct (Z.leb_spec (snd x) (snd y)).
    + constructor; [exact Hs|]. constructor. assumption.
    + apply Sorted_inv in Hs as [Hs Hhd]. constructor; [apply IH, Hs|].
      destruct l as [|z l]; cbn [insert_by_stamp].
      * constructor. lia.
      * destruct (snd x <=? snd z)%Z; constructor; [lia|].
        inversion Hhd; assumption.
Qed.

(** ... that is in ascending order of the time stamps. *)
Lemma sort_by_stamp_sorted l :
  Sorted (fun a b => (snd a <= snd b)%Z) (sort_by_stamp l).
Proof.
  unfold sort_by_stamp. induction l as [|x l IH]; cbn [foldr].
  - constructor.
  - apply insert_by_stamp_sorted, IH.
Qed.

(** C6, on the scenario with the bound 200.  Resolving 201
    large images in order evicts, at the last one, the 40 least recently
    used images: their textures (handles 3 to 42) are deleted, oldest first,
    and they leave the cache and the usage map.  Resolving image 1 again
    then allocates nothing: [getTexture] answers from the image's
    [_glTextureInfo] with the deleted texture 3, issues no GL command and
    leaves image 1 outside the cache. *)
Theorem evicted_image_keeps_deleted_texture :
  deletedTextures (gl_log (gl fullCacheEngine)) = seq 3 40 /\
  JSMap.size (textureCache (textures fullCacheEngine)) = 161%nat /\
  JSMap.get 1%nat (textureCache (textures fullCacheEngine)) = None /\
  JSMap.get 1%nat (textureUsage (textures fullCacheEngine)) = None /\
  JSMap.get 41%nat (textureCache (textures fullCacheEngine)) = Some 43%nat /\
  result (getTexture (IRef 1%nat)) fullCacheEngine
  = Ret (RInfo {| ti_texture := 3%nat; ti_uv := None;
                  ti_width := 600; ti_height := 600 |}) /\
  gl_log (gl (exec (getTexture (IRef 1%nat)) fullCacheEngine))
  = gl_log (gl fullCacheEngine) /\
  gl_nextTexture (gl (exec (getTexture (IRef 1%nat)) fullCacheEngine))
  = gl_nextTexture (gl fullCacheEngine) /\
  JSMap.get 1%nat
    (textureCache (textures (exec (getTexture (IRef 1%nat)) fullCacheEngine)))
  = None.
Proof. vm_compute. repeat split. Qed.

(** ** Capacity of the sprite batch *)

Lemma Room_Bounded e : Room e -> Bounded e.
Proof. intros [H1 H2]. repeat split; [lia | lia | exact H2]. Qed.

Lemma Triple_bind {A B} P R Q (m : M A) (k : A -> M B) :
  Triple P m R -> (forall e, R e -> Q e) -> (forall a, Triple R (k a) Q) ->
  Triple P (bind m k) Q.
Proof.
  intros Hm HRQ Hk e HP. unfold bind. specialize (Hm e HP).
  destruct (m e) as [[a|x] e1]; cbn [snd] in *; [apply Hk, Hm | apply HRQ, Hm].
Qed.

Lemma Triple_ret {A} (P : Blaze2D -> Prop) (a : A) : Triple P (ret a) P.
Proof. intros e H. exact H. Qed.

Lemma Triple_weaken {A} (P Q Q' : Blaze2D -> Prop) (m : M A) :
  Triple P m Q -> (forall e, Q e -> Q' e) -> Triple P m Q'.
Proof. intros H HQ e HP. apply HQ, H, HP. Qed.

Lemma Triple_frame_Bounded {A} (m : M A) : Frame m -> Triple Bounded m Bounded.
Proof.
  intros Hf e H. specialize (Hf e). unfold Bounded, arenaOK in *.
  rewrite (fr_batch _ _ Hf). exact H.
Qed.

Lemma Triple_get_state (P : Blaze2D -> Prop) : Triple P get_state P.
Proof.
  intros e H. unfold get_state. destruct (stateStack (states e)); exact H.
Qed.

Lemma Triple_gets {A} (P : Blaze2D -> Prop) (f : Blaze2D -> A) :
  Triple P (gets f) P.
Proof. intros e H. exact H. Qed.

Lemma flush_Room e : Bounded e -> Room (snd (flush e)).
Proof.
  intros (Hpos & Hle & Ha). unfold Room, arenaOK in *.
  destruct (Nat.eq_dec (batchCount (batch e)) 0%nat) as [H0|H0].
  - rewrite flush_empty by exact H0. cbn [snd]. split; [lia | exact Ha].
  - destruct (flush_nonempty e H0) as (_ & _ & _ & Hbc & _ & Hvd & Hmx & _).
    rewrite Hbc, Hvd, Hmx. split; [lia | exact Ha].
Qed.

Lemma Triple_switchTexture tv : Triple Bounded (switchTexture tv) Room.
Proof.
  intros e HB. unfold switchTexture, bind. cbn [gets].
  match goal with |- context [if ?c then _ else _] => destruct c eqn:Hc end.
  - assert (HR : Room (if (0 <? batchCount (batch e))%nat
                       then snd (flush e) else e)).
    { destruct (0 <? batchCount (batch e))%nat eqn:En.
      - apply flush_Room, HB.
      - apply Nat.ltb_ge in En. destruct HB as (Hpos & _ & Ha).
        split; [lia | exact Ha]. }
    destruct (0 <? batchCount (batch e))%nat; cbn [when].
    + rewrite (flush_eta e). cbn. exact HR.
    + cbn. exact HR.
  - cbn [ret snd]. apply orb_false_iff in Hc as [_ Hc].
    apply Nat.leb_gt in Hc. destruct HB as (_ & _ & Ha). split; assumption.
Qed.

Lemma pushed_Bounded e block :
  length block = 36%nat -> Room e -> Bounded (pushed e block).
Proof.
  intros Hb [Hlt Ha]. unfold Bounded, arenaOK, pushed in *. cbn.
  split; [lia|]. split; [lia|].
  unfold splice. rewrite !length_app, length_take, length_drop, Hb, Ha.
  change vertexCountPerSprite with 36%nat. lia.
Qed.

Lemma Triple_push_quad c0 c1 c2 c3 a rgba :
  Triple Room
    (b <- gets batch ;;
     addQuad (batchCount b * vertexCountPerSprite) c0 c1 c2 c3 a rgba ;;;
     incr_batchCount) Bounded.
Proof.
  intros e HR. rewrite push_quad.
  - apply pushed_Bounded; [apply encodeQuad_length | exact HR].
  - destruct HR as [Hlt Ha]. unfold arenaOK in Ha. rewrite Ha. lia.
Qed.

Lemma Triple_push_values vals :
  length vals = 36%nat ->
  Triple Room
    (b <- gets batch ;;
     modify (with_batch (fun b' =>
       set_vertexData (store_from (batchCount b * vertexCountPerSprite) vals
                         (vertexData b')) b')) ;;;
     incr_batchCount) Bounded.
Proof.
  intros Hv e HR. rewrite push_values.
  - apply pushed_Bounded; assumption.
  - exact Hv.
  - destruct HR as [Hlt Ha]. unfold arenaOK in Ha. rewrite Ha. lia.
Qed.

(** The shadow quad of [drawImage], with its check of the capacity. *)
Lemma Triple_push_quad_flush c0 c1 c2 c3 a rgba :
  Triple Room
    (b <- gets batch ;;
     addQuad (batchCount b * vertexCountPerSprite) c0 c1 c2 c3 a rgba ;;;
     incr_batchCount ;;;
     b <- gets batch ;;
     when (maxBatchSize b <=? batchCount b)%nat flush) Room.
Proof.
  intros e HR. rewrite push_quad_then
    by (destruct HR as [Hlt Ha]; unfold arenaOK in Ha; rewrite Ha; lia).
  pose proof (pushed_Bounded e _ (encodeQuad_length c0 c1 c2 c3 a rgba) HR)
    as HB.
  unfold bind. cbn [gets].
  destruct (Nat.leb_spec (maxBatchSize (batch (pushed e (encodeQuad c0 c1 c2 c3 a rgba))))
              (batchCount (batch (pushed e (encodeQuad c0 c1 c2 c3 a rgba)))));
    cbn [when].
  - apply flush_Room, HB.
  - cbn [ret snd]. destruct HB as (_ & _ & Ha). split; assumption.
Qed.

Lemma bind_post {A B} (R Q : Blaze2D -> Prop) (m : M A) (k : A -> M B) e :
  R (snd (m e)) -> (forall e, R e -> Q e) -> (forall a, Triple R (k a) Q) ->
  Q (snd (bind m k e)).
Proof.
  intros Hm HRQ Hk. unfold bind.
  destruct (m e) as [[a|x] e1]; cbn [snd] in *; [apply Hk, Hm | apply HRQ, Hm].
Qed.

Lemma Bounded_drawRect_ x y w h rgba a :
  Triple Bounded (drawRect_ x y w h rgba a) Bounded.
Proof.
  intros e HB. unfold drawRect_.
  unfold bind at 1. cbn [gets]. unfold bind at 1. cbn [gets].
  apply (bind_post Room); [| apply Room_Bounded |].
  - match goal with |- context [when ?c _] => destruct c eqn:Hc end;
      cbn [when].
    + rewrite (bind_Ret _ _ _ tt (snd (flush e))) by apply flush_eta.
      cbn. apply (flush_Room e HB).
    + cbn [ret snd]. apply orb_false_iff in Hc as [_ Hc].
      apply Nat.leb_gt in Hc. destruct HB as (_ & _ & Ha). split; assumption.
  - intros _.
    apply (Triple_bind _ Room); [apply Triple_get_state | apply Room_Bounded |].
    intros s e1 HR. cbv zeta.
    pose proof (Triple_push_quad
      (mx (matrix s) x y, my (matrix s) x y, 0, 0)
      (mx (matrix s) (x + w) y, my (matrix s) (x + w) y, 1, 0)
      (mx (matrix s) (x + w) (y + h), my (matrix s) (x + w) (y + h), 1, 1)
      (mx (matrix s) x (y + h), my (matrix s) x (y + h), 0, 1) a rgba e1 HR)
      as Hpush.
    unfold bind at 1 in Hpush. cbn [gets] in Hpush.
    unfold bind at 1. cbn [gets].
    change (batchCount (batch e1) * verticesPerSprite * vertexStride)%nat
      with (batchCount (batch e1) * 4 * 9)%nat.
    replace (batchCount (batch e1) * 4 * 9)%nat
      with (batchCount (batch e1) * vertexCountPerSprite)%nat
      by (change vertexCountPerSprite with 36%nat; lia).
    exact Hpush.
Qed.

Lemma Bounded_drawSpriteFast math image x y w h rotation a tint :
  Triple Bounded (drawSpriteFast math image x y w h rotation a tint) Bounded.
Proof.
  unfold drawSpriteFast.
  destruct image as [|id|tx]; [apply Triple_ret|..].
  all: apply (Triple_bind _ Bounded);
         [apply Triple_frame_Bounded, Frame_getTexture | auto |].
  all: intros texInfo.
  all: apply (Triple_bind _ Bounded); [apply Triple_gets | auto |]; intros t.
  all: match goal with
       | |- context [let '(_, _) := ?p in _] => destruct p as [texture uv]
       end.
  all: apply (Triple_bind _ Room);
         [apply Triple_switchTexture | apply Room_Bounded |]; intros _.
  all: apply (Triple_bind _ Room);
         [apply Triple_get_state | apply Room_Bounded |]; intros s.
  all: apply Triple_push_values; reflexivity.
Qed.

Lemma Bounded_drawTexture math info x y w h a0 b0 a1 b1 rotation a flipX flipY
    tintR tintG tintB flashArg :
  Triple Bounded
    (drawTexture math info x y w h a0 b0 a1 b1 rotation a flipX flipY
       tintR tintG tintB flashArg) Bounded.
Proof.
  unfold drawTexture.
  pose proof (Frame_resolveTextureArg info a0 b0 a1 b1) as Hf.
  set (arg := resolveTextureArg info a0 b0 a1 b1) in *.
  destruct info; [apply Triple_ret|..]; clearbody arg.
  all: apply (Triple_bind _ Bounded);
         [apply Triple_frame_Bounded, Hf | auto |].
  all: intros [texture [[[fU0 fV0] fU1] fV1]].
  all: apply (Triple_bind _ Room);
         [apply Triple_switchTexture | apply Room_Bounded |]; intros _.
  all: destruct flipX, flipY; cbv zeta.
  all: apply (Triple_bind _ Room);
         [apply Triple_get_state | apply Room_Bounded |]; intros s.
  all: destruct (Qeqb rotation 0); apply Triple_push_quad.
Qed.

Lemma Bounded_drawImage math image args :
  Triple Bounded (drawImage math image args) Bounded.
Proof.
  unfold drawImage. destruct image as [id|]; [|apply Triple_ret].
  intros e HB. unfold bind at 1. cbn [gets].
  destruct (images (textures e) !! id) as [img|]; [|exact HB].
  destruct args; cbv beta iota zeta.
  all: revert e HB.
  all: apply (Triple_bind _ Bounded);
         [apply Triple_frame_Bounded, Frame_getTexture | auto |].
  all: intros info.
  all: apply (Triple_bind _ Room);
         [apply Triple_switchTexture | apply Room_Bounded |]; intros _.
  all: apply (Triple_bind _ Room);
         [apply Triple_get_state | apply Room_Bounded |]; intros s.
  all: destruct info as [t0|i|rid]; [|destruct (ti_uv i) as [uv|]|];
         cbv beta iota zeta.
  all: apply (Triple_bind _ Room); [| apply Room_Bounded |];
         [ match goal with |- context [when ?c _] => destruct c end;
           cbn [when]; [apply Triple_push_quad_flush | apply Triple_ret]
         | intros _; apply Triple_push_quad ].
Qed.

(** Every enqueue call keeps the batch within its capacity and the arena at
    its full length, whatever it returns. *)
Lemma Bounded_runOp math op : Triple Bounded (runOp math op) Bounded.
Proof.
  destruct op; cbn [runOp].
  - apply Bounded_drawImage.
  - apply Bounded_drawTexture.
  - apply Bounded_drawSpriteFast.
  - apply Bounded_drawRect_.
Qed.

(** X1.  From any state whose batch is within its capacity, every sequence
    of enqueue calls ([drawImage], [drawTexture], [drawSpriteFast],
    [_drawRect]) leaves the batch within its capacity and the arena at its
    full length, whatever the calls return: the batch count never exceeds
    [maxBatchSize]. *)
Theorem enqueue_keeps_batch_in_capacity (math : MathLib)
    (ops : list EnqueueOp) (e : Blaze2D)
    (Hpos : (0 < maxBatchSize (batch e))%nat)
    (Hcount : (batchCount (batch e) <= maxBatchSize (batch e))%nat)
    (Harena : length (vertexData (batch e))
              = (maxBatchSize (batch e) * 36)%nat) :
  (batchCount (batch (exec (runOps math ops) e))
   <= maxBatchSize (batch (exec (runOps math ops) e)))%nat /\
  length (vertexData (batch (exec (runOps math ops) e)))
  = (maxBatchSize (batch (exec (runOps math ops) e)) * 36)%nat.
Proof.
  assert (HB : Bounded e) by (repeat split; assumption).
  clear Hpos Hcount Harena.
  assert (H : Bounded (exec (runOps math ops) e)).
  { revert e HB. unfold exec. change (Triple Bounded (runOps math ops) Bounded).
    induction ops as [|op ops IH]; cbn [runOps]; [apply Triple_ret|].
    apply (Triple_bind _ Bounded); [apply Bounded_runOp | auto |].
    intros _. exact IH. }
  destruct H as (_ & H1 & H2). split; assumption.
Qed.

Lemma enqueue_keeps_batch_in_capacity_witness :
  (batchCount (batch (exec (runOps approxMath (demoOps ++ demoOps)) demoEngine))
   <= 4)%nat.
Proof.
  destruct (enqueue_keeps_batch_in_capacity approxMath (demoOps ++ demoOps)
              demoEngine ltac:(vm_compute; lia) ltac:(vm_compute; lia) eq_refl)
    as [H _].
  exact H.
Defined.



Lemma switchTexture_same T e :
  currentTexture (batch e) = Some T ->
  (batchCount (batch e) < maxBatchSize (batch e))%nat ->
  switchTexture (TVTexture T) e = (Ret tt, e).
Proof.
  intros Hcur Hlt. unfold switchTexture, bind. cbn [gets].
  rewrite Hcur, bool_decide_eq_true_2 by reflexivity. cbn [negb orb].
  destruct (Nat.leb_spec (maxBatchSize (batch e)) (batchCount (batch e)));
    [lia | reflexivity].
Qed.

(** X3.  [drawImage] with a shadow, on a batch of its own texture that has
    room for exactly one more quad: the shadow quad fills the batch, the
    batch is submitted, and the quad of the image itself is queued in the
    emptied batch, where no texture is bound any more.  The next [flush()]
    therefore submits the image's quad with the white texture. *)
Theorem drawImage_shadow_at_capacity (math : MathLib) (T : tex) (id : imgid)
    (args : DrawImageArgs) (e : Blaze2D) (s : RenderState)
    (rest : list RenderState) (n : nat)
    (Hstack : stateStack (states e) = s :: rest)
    (Hshadow : shadowActive s = true)
    (Hqueued : Queue T n e)
    (Hn : (1 <= n)%nat)
    (Hlast : S n = maxBatchSize (batch e))
    (HT : result (opTexture (OpDrawImage id args)) e = Ret (TVTexture T)) :
  result (drawImage math (Some id) args) e = Ret tt /\
  (exists d, drawCalls (gl_log (gl (exec (drawImage math (Some id) args) e)))
             = drawCalls (gl_log (gl e)) ++ [d]
             /\ dc_texture d = T
             /\ dc_indexCount d = (maxBatchSize (batch e) * 6)%nat) /\
  batchCount (batch (exec (drawImage math (Some id) args) e)) = 1%nat /\
  currentTexture (batch (exec (drawImage math (Some id) args) e)) = None /\
  dc_texture (pendingDraw (exec (drawImage math (Some id) args) e))
  = whiteTexture (textures e).
Proof.
  unfold result, opTexture in HT.
  assert (Hgoal : exists e3 d,
    drawImage math (Some id) args e = (Ret tt, e3) /\
    drawCalls (gl_log (gl e3)) = drawCalls (gl_log (gl e)) ++ [d] /\
    dc_texture d = T /\
    dc_indexCount d = (maxBatchSize (batch e) * 6)%nat /\
    batchCount (batch e3) = 1%nat /\
    currentTexture (batch e3) = None /\
    whiteTexture (textures e3) = whiteTexture (textures e)).
  { unfold drawImage. unfold bind at 1. cbn [gets].
    unfold bind at 1 in HT.
    pose proof (Frame_getTexture (IRef id) e) as Hf.
    destruct (images (textures e) !! id) as [img|] eqn:Himg.
    2:{ cbn [getTexture] in HT. unfold bind at 1 in HT. cbn [gets] in HT.
        rewrite Himg in HT. discriminate HT. }
    destruct args; cbv beta iota zeta.
    all: unfold bind at 1.
    all: destruct (getTexture (IRef id) e) as [[info|err] e1];
           [|discriminate HT].
    all: cbn [snd] in Hf; cbn [ret fst] in HT; injection HT as HT; rewrite HT.
    all: destruct Hqueued as [Hc Ha Ht].
    all: assert (Hb1 : batch e1 = batch e) by apply (fr_batch _ _ Hf).
    all: assert (Hcur1 : currentTexture (batch e1) = Some T)
           by (rewrite Hb1; apply Ht; lia).
    all: assert (Hc1 : batchCount (batch e1) = n) by (rewrite Hb1; exact Hc).
    all: assert (Hm1 : maxBatchSize (batch e1) = S n)
           by (rewrite Hb1; symmetry; exact Hlast).
    all: assert (Ha1 : length (vertexData (batch e1)) = (S n * 36)%nat)
           by (rewrite Hb1, Ha, <- Hlast; reflexivity).
    all: rewrite (bind_Ret _ _ _ _ _
                    (switchTexture_same T e1 Hcur1 ltac:(lia))).
    all: assert (Hs1 : stateStack (states e1) = s :: rest)
           by (rewrite (fr_states _ _ Hf); exact Hstack).
    all: erewrite bind_Ret by (eapply get_state_ok; exact Hs1).
    all: cbv zeta; fold (shadowActive s); rewrite Hshadow; cbn [when].
    all: clear HT.
    all: destruct info as [t0|i|rid]; [|destruct (ti_uv i) as [uv|]|];
           cbv beta iota zeta.
    all: unfold bind at 1.
    all: match goal with
         | |- context [bind (gets batch) (fun b =>
                 bind (addQuad _ ?c0 ?c1 ?c2 ?c3 ?a ?rg)
                   (fun _ => bind incr_batchCount (fun _ => ?k3))) ?ee] =>
             rewrite (push_quad_then c0 c1 c2 c3 a rg k3 ee)
               by (rewrite Hc1, Ha1; lia);
             set (block := encodeQuad c0 c1 c2 c3 a rg)
         end.
    all: assert (Hbl : length block = 36%nat) by apply encodeQuad_length.
    all: unfold bind at 1; cbn [gets].
    all: assert (Hfullp : (maxBatchSize (batch (pushed e1 block))
                           <=? batchCount (batch (pushed e1 block)))%nat = true)
           by (apply Nat.leb_le; cbn; rewrite Hc1, Hm1; lia).
    all: rewrite Hfullp; cbn [when]; rewrite (flush_eta (pushed e1 block)).
    all: assert (Hnz : batchCount (batch (pushed e1 block)) <> 0%nat)
           by (cbn; lia).
    all: destruct (flush_nonempty (pushed e1 block) Hnz)
           as (Hlog & _ & _ & Hbc & Hct & Hvd & Hmx & _ & _ & _ & Htx & _).
    all: set (e2 := snd (flush (pushed e1 block))) in *.
    all: assert (HBp : Bounded (pushed e1 block))
           by (apply pushed_Bounded; [exact Hbl|];
               split; [lia | unfold arenaOK; rewrite Ha1, Hm1; reflexivity]).
    all: destruct HBp as (_ & _ & Hap); unfold arenaOK in Hap.
    all: rewrite push_quad by (rewrite Hbc, Hvd, Hap; cbn; lia).
    all: eexists _, (pendingDraw (pushed e1 block)).
    all: split; [reflexivity|].
    all: split;
           [change (drawCalls (gl_log (gl e2))
                    = drawCalls (gl_log (gl e)) ++ [pendingDraw (pushed e1 block)]);
            rewrite Hlog, drawCalls_app;
            change (gl_log (gl (pushed e1 block))) with (gl_log (gl e1));
            rewrite (fr_draws _ _ Hf); reflexivity|].
    all: split;
           [change (default (whiteTexture (textures e1))
                      (currentTexture (batch e1)) = T);
            rewrite Hcur1; reflexivity|].
    all: split;
           [change ((S (batchCount (batch e1)) * indicesPerSprite)%nat
                    = (maxBatchSize (batch e) * 6)%nat);
            rewrite Hc1, <- Hlast; reflexivity|].
    all: split;
           [change (S (batchCount (batch e2)) = 1%nat); rewrite Hbc;
            reflexivity|].
    all: split; [change (currentTexture (batch e2) = None); exact Hct|].
    all: change (whiteTexture (textures e2) = whiteTexture (textures e));
         rewrite Htx; apply (fr_white _ _ Hf). }
  destruct Hgoal as (e3 & d & Hrun & Hd & HdT & Hdn & Hc3 & Ht3 & Hw3).
  unfold result, exec. rewrite Hrun. cbn [fst snd].
  split; [reflexivity|]. split; [exists d; repeat split; assumption|].
  split; [exact Hc3|]. split; [exact Ht3|].
  unfold pendingDraw. cbn [dc_texture]. rewrite Ht3. exact Hw3.
Qed.

Lemma drawImage_shadow_at_capacity_witness :
  currentTexture (batch (exec (drawImage approxMath (Some 7%nat) (Args3 60 0))
                              shadowEngine)) = None.
Proof.
  assert (HQ : Queue 2%nat 3 shadowEngine)
    by (split; [reflexivity | reflexivity | intros _; reflexivity]).
  destruct (drawImage_shadow_at_capacity approxMath 2%nat 7%nat (Args3 60 0)
              shadowEngine
              (set_shadowColor "#000000" (set_shadowBlur 4 demoState)) [] 3
              eq_refl eq_refl HQ ltac:(lia) eq_refl eq_refl)
    as (_ & _ & _ & H & _).
  exact H.
Defined.

(** ** What the enqueue calls leave alone *)

Lemma Stable_step {A B} (J : Blaze2D -> Prop) (m : M A) (k : A -> M B) :
  Triple J m J -> (forall a, Triple J (k a) J) -> Triple J (bind m k) J.
Proof. intros Hm Hk. apply (Triple_bind _ J); auto. Qed.

Section StableOps.
Context (J : Blaze2D -> Prop) (HJ : Stable J).

Lemma Stable_Frame {A} (m : M A) : Frame m -> Triple J m J.
Proof using HJ. intros Hf e H. eapply (st_frame J HJ); [apply Hf | exact H]. Qed.

Lemma Stable_flush : Triple J flush J.
Proof using HJ. intros e H. apply (st_flush J HJ), H. Qed.

Lemma Stable_modify_batch f : Triple J (modify (with_batch f)) J.
Proof using HJ. intros e H. apply (st_batch J HJ), H. Qed.

Lemma Stable_when b (m : M unit) : Triple J m J -> Triple J (when b m) J.
Proof using HJ. intros H. destruct b; [exact H | apply Triple_ret]. Qed.

Lemma Stable_switchTexture tv : Triple J (switchTexture tv) J.
Proof using HJ.
  unfold switchTexture.
  apply Stable_step; [apply Triple_gets|]. intros b.
  apply Stable_step; [apply Triple_gets|]. intros t.
  match goal with |- context [if ?c then _ else _] => destruct c end;
    [|apply Triple_ret].
  apply Stable_step; [apply Stable_when, Stable_flush|]. intros _.
  apply Stable_modify_batch.
Qed.

Lemma Stable_addVertex o x y u v a rgba :
  Triple J (addVertex o x y u v a rgba) J.
Proof using HJ. intros e H. rewrite addVertex_store. apply (st_batch J HJ), H. Qed.

Lemma Stable_addQuad o c0 c1 c2 c3 a rgba :
  Triple J (addQuad o c0 c1 c2 c3 a rgba) J.
Proof using HJ. intros e H. rewrite addQuad_store. apply (st_batch J HJ), H. Qed.

Lemma Stable_incr : Triple J incr_batchCount J.
Proof using HJ. apply Stable_modify_batch. Qed.

Lemma Stable_push o c0 c1 c2 c3 a rgba :
  Triple J (addQuad o c0 c1 c2 c3 a rgba ;;; incr_batchCount) J.
Proof using HJ. apply Stable_step; [apply Stable_addQuad | intros _; apply Stable_incr]. Qed.

Lemma Stable_drawRect_ x y w h rgba a : Triple J (drawRect_ x y w h rgba a) J.
Proof using HJ.
  unfold drawRect_.
  apply Stable_step; [apply Triple_gets|]. intros b.
  apply Stable_step; [apply Triple_gets|]. intros t.
  apply Stable_step.
  { apply Stable_when, Stable_step; [apply Stable_flush|].
    intros _. apply Stable_modify_batch. }
  intros _. apply Stable_step; [apply Triple_get_state|]. intros s.
  apply Stable_step; [apply Triple_gets|]. intros b'. apply Stable_push.
Qed.

Lemma Stable_drawSpriteFast math image x y w h rotation a tint :
  Triple J (drawSpriteFast math image x y w h rotation a tint) J.
Proof using HJ.
  unfold drawSpriteFast.
  destruct image as [|id|tx]; [apply Triple_ret|..].
  all: apply Stable_step; [apply Stable_Frame, Frame_getTexture|].
  all: intros texInfo.
  all: apply Stable_step; [apply Triple_gets|]; intros t.
  all: match goal with
       | |- context [let '(_, _) := ?p in _] => destruct p as [texture uv]
       end.
  all: apply Stable_step; [apply Stable_switchTexture|]; intros _.
  all: apply Stable_step; [apply Triple_get_state|]; intros s.
  all: apply Stable_step; [apply Triple_gets|]; intros b.
  all: apply Stable_step; [apply Stable_modify_batch|]; intros _.
  all: apply Stable_incr.
Qed.

Lemma Stable_drawTexture math info x y w h a0 b0 a1 b1 rotation a flipX flipY
    tintR tintG tintB flashArg :
  Triple J
    (drawTexture math info x y w h a0 b0 a1 b1 rotation a flipX flipY
       tintR tintG tintB flashArg) J.
Proof using HJ.
  unfold drawTexture.
  pose proof (Frame_resolveTextureArg info a0 b0 a1 b1) as Hf.
  set (arg := resolveTextureArg info a0 b0 a1 b1) in *.
  destruct info; [apply Triple_ret|..]; clearbody arg.
  all: apply Stable_step; [apply Stable_Frame, Hf|].
  all: intros [texture [[[fU0 fV0] fU1] fV1]].
  all: apply Stable_step; [apply Stable_switchTexture|]; intros _.
  all: destruct flipX, flipY; cbv zeta.
  all: apply Stable_step; [apply Triple_get_state|]; intros s.
  all: apply Stable_step; [apply Triple_gets|]; intros b.
  all: destruct (Qeqb rotation 0); apply Stable_push.
Qed.

Lemma Stable_drawImage math image args : Triple J (drawImage math image args) J.
Proof using HJ.
  unfold drawImage. destruct image as [id|]; [|apply Triple_ret].
  intros e HB. unfold bind at 1. cbn [gets].
  destruct (images (textures e) !! id) as [img|]; [|exact HB].
  destruct args; cbv beta iota zeta.
  all: revert e HB.
  all: apply Stable_step; [apply Stable_Frame, Frame_getTexture|].
  all: intros info.
  all: apply Stable_step; [apply Stable_switchTexture|]; intros _.
  all: apply Stable_step; [apply Triple_get_state|]; intros s.
  all: destruct info as [t0|i|rid]; [|destruct (ti_uv i) as [uv|]|];
         cbv beta iota zeta.
  all: apply Stable_step;
         [ apply Stable_when;
           apply Stable_step; [apply Triple_gets|]; intros b;
           apply Stable_step; [apply Stable_addQuad|]; intros _;
           apply Stable_step; [apply Stable_incr|]; intros _;
           apply Stable_step; [apply Triple_gets|]; intros b';
           apply Stable_when, Stable_flush
         | intros _; apply Stable_step; [apply Triple_gets|]; intros b;
           apply Stable_push ].
Qed.

Lemma Stable_runOp math op : Triple J (runOp math op) J.
Proof using HJ.
  destruct op; cbn [runOp].
  - apply Stable_drawImage.
  - apply Stable_drawTexture.
  - apply Stable_drawSpriteFast.
  - apply Stable_drawRect_.
Qed.

Lemma Stable_runOps math ops : Triple J (runOps math ops) J.
Proof using HJ.
  induction ops as [|op ops IH]; cbn [runOps]; [apply Triple_ret|].
  apply Stable_step; [apply Stable_runOp | intros _; exact IH].
Qed.
End StableOps.

(** X4.  Enqueue calls touch the batch, the texture manager and the
    command trace only: whatever a sequence of [drawImage], [drawTexture],
    [drawSpriteFast] and [_drawRect] calls returns, it leaves the state
    stack with its pool and style objects, the blend function, the
    damage-number lane, the view, the clock and the white texture as they
    were. *)
Theorem enqueue_leaves_state_alone (math : MathLib) (ops : list EnqueueOp)
    (e : Blaze2D) :
  states (exec (runOps math ops) e) = states e /\
  gl_blend (gl (exec (runOps math ops) e)) = gl_blend (gl e) /\
  dn (exec (runOps math ops) e) = dn e /\
  view (exec (runOps math ops) e) = view e /\
  now (exec (runOps math ops) e) = now e /\
  whiteTexture (textures (exec (runOps math ops) e))
  = whiteTexture (textures e).
Proof.
  set (J := fun e' : Blaze2D =>
    states e' = states e /\ gl_blend (gl e') = gl_blend (gl e) /\
    dn e' = dn e /\ view e' = view e /\ now e' = now e /\
    whiteTexture (textures e') = whiteTexture (textures e)).
  assert (HJ : Stable J).
  { split.
    - intros e1 e2 Hf (H1 & H2 & H3 & H4 & H5 & H6). unfold J.
      rewrite (fr_states _ _ Hf), (fr_blend _ _ Hf), (fr_dn _ _ Hf),
        (fr_view _ _ Hf), (fr_now _ _ Hf), (fr_white _ _ Hf).
      repeat split; assumption.
    - intros e1 (H1 & H2 & H3 & H4 & H5 & H6). unfold J.
      destruct (Nat.eq_dec (batchCount (batch e1)) 0%nat) as [H0|H0].
      + rewrite flush_empty by exact H0. repeat split; assumption.
      + destruct (flush_nonempty e1 H0)
          as (_ & Hb & _ & _ & _ & _ & _ & _ & _ & Hs & Ht & Hd & Hv & Hn).
        rewrite Hb, Hs, Ht, Hd, Hv, Hn. repeat split; assumption.
    - intros e1 f H. exact H. }
  apply (Stable_runOps J HJ math ops e).
  repeat split.
Qed.

(** ** The blend function follows the composite mode *)

Lemma run_steps_inv (P : nat -> RenderState -> Prop) steps : forall i to e to' e',
  P i to ->
  (forall j st, steps !! j = Some st ->
     forall t0 e0 t1 e1, P (i + j)%nat t0 -> st t0 e0 = (Ret t1, e1) ->
                         P (S (i + j)) t1) ->
  run_steps steps to e = (Ret (None, to'), e') ->
  P (i + length steps)%nat to'.
Proof.
  induction steps as [|st steps IH]; intros i to e to' e' H0 Hstep Hrun.
  - cbn in Hrun. injection Hrun as <- <-. rewrite Nat.add_0_r. exact H0.
  - cbn [run_steps] in Hrun.
    destruct (st to e) as [[t1|x] e1] eqn:Hst; [|discriminate Hrun].
    cbn [length]. rewrite Nat.add_succ_r.
    apply (IH (S i) t1 e1 to' e'); [| |exact Hrun].
    + specialize (Hstep 0%nat st eq_refl to e t1 e1).
      rewrite Nat.add_0_r in Hstep. apply Hstep; assumption.
    + intros j st' Hj t0 e0 t2 e2 HP Hst'.
      specialize (Hstep (S j) st' Hj t0 e0 t2 e2).
      rewrite Nat.add_succ_r in Hstep. apply Hstep; assumption.
Qed.

Lemma copyState_copies from to e to' e' :
  copyState from to e = (Ret (None, to'), e') ->
  copiedUpTo from to 7 to'.
Proof.
  intros H. unfold copyState in H.
  refine (run_steps_inv (copiedUpTo from to) _ 0%nat to e to' e' _ _ H).
  - unfold copiedUpTo. repeat split; lia.
  - clear H. intros j st Hj t0 e0 t1 e1 HP Hst. cbn [Nat.add] in *.
    destruct HP as (Hc & Hj' & H1 & H4 & H7).
    destruct j as [|[|[|[|[|[|[|j]]]]]]]; cbn in Hj; try discriminate Hj;
      injection Hj as <-.
    all: try (specialize (H1 ltac:(lia));
              destruct H1 as (H1a & H1b & H1c & H1d)).
    all: try specialize (H4 ltac:(lia)).
    all: unfold bind, read_style, ret, alloc_style, raise in Hst.
    all: repeat match type of Hst with
         | context [styleHeap ?h !! ?r] =>
             destruct (styleHeap h !! r); [|discriminate Hst]
         | context [if ?c then _ else _] => destruct c
         | context [style_set ?r ?l ?e] =>
             destruct (style_set r l e) as [[[]|?] ?]; [|discriminate Hst]
         | context [f32_set ?a ?b] =>
             destruct (f32_set a b); [|discriminate Hst]
         end.
    all: injection Hst as <- <-.
    all: unfold copiedUpTo; cbn.
    all: repeat match goal with
         | |- _ /\ _ => split
         | |- _ -> _ => intros ?
         end; first [assumption | reflexivity | lia].
Qed.

Lemma with_states_id e : with_states (fun _ => states e) e = e.
Proof. destruct e. reflexivity. Qed.

Lemma StatesOnly_ret {A} (a : A) : StatesOnly (ret a).
Proof. intros e. symmetry. apply with_states_id. Qed.

Lemma StatesOnly_raise {A} x : StatesOnly (@raise A x).
Proof. intros e. symmetry. apply with_states_id. Qed.

Lemma StatesOnly_gets {A} (f : Blaze2D -> A) : StatesOnly (gets f).
Proof. intros e. symmetry. apply with_states_id. Qed.

Lemma StatesOnly_modify f : StatesOnly (modify (with_states f)).
Proof. intros e. reflexivity. Qed.

Lemma StatesOnly_bind {A B} (m : M A) (k : A -> M B) :
  StatesOnly m -> (forall a, StatesOnly (k a)) -> StatesOnly (bind m k).
Proof.
  intros Hm Hk e. unfold bind. specialize (Hm e).
  destruct (m e) as [[a|x] e1]; cbn [snd] in *; [|exact Hm].
  etransitivity; [apply (Hk a e1)|].
  generalize (states (snd (k a e1))). intros st. rewrite Hm. reflexivity.
Qed.

Lemma StatesOnly_get_state : StatesOnly get_state.
Proof.
  intros e. unfold get_state.
  destruct (stateStack (states e)); symmetry; apply with_states_id.
Qed.

Lemma StatesOnly_update_state f : StatesOnly (update_state f).
Proof.
  intros e. unfold update_state.
  destruct (stateStack (states e)); [symmetry; apply with_states_id|].
  reflexivity.
Qed.

Lemma StatesOnly_read_style r : StatesOnly (read_style r).
Proof.
  intros e. unfold read_style.
  destruct (_ !! _); symmetry; apply with_states_id.
Qed.

Lemma StatesOnly_alloc_style o : StatesOnly (alloc_style o).
Proof. intros e. reflexivity. Qed.

Lemma StatesOnly_style_set r src : StatesOnly (style_set r src).
Proof.
  unfold style_set. apply StatesOnly_bind; [apply StatesOnly_read_style|].
  intros [d|d|g]; try apply StatesOnly_raise.
  destruct (f32_set d src); [apply StatesOnly_modify | apply StatesOnly_raise].
Qed.

Lemma StatesOnly_run_steps steps : forall to,
  Forall (fun st => forall to, StatesOnly (st to)) steps ->
  StatesOnly (run_steps steps to).
Proof.
  induction steps as [|st steps IH]; intros to Hall e; cbn [run_steps].
  - symmetry. apply with_states_id.
  - inversion Hall as [|? ? Hst Hrest]; subst.
    specialize (Hst to e).
    destruct (st to e) as [[to'|x] e1]; cbn [snd] in *; [|exact Hst].
    etransitivity; [apply (IH to' Hrest e1)|].
    generalize (states (snd (run_steps steps to' e1))). intros st'.
    rewrite Hst. reflexivity.
Qed.

Lemma StatesOnly_copyState from to : StatesOnly (copyState from to).
Proof.
  unfold copyState. apply StatesOnly_run_steps.
  repeat apply List.Forall_cons; try apply List.Forall_nil; intros to'.
  all: repeat first
    [ apply StatesOnly_ret | apply StatesOnly_raise
    | apply StatesOnly_read_style | apply StatesOnly_alloc_style
    | apply StatesOnly_style_set | apply StatesOnly_bind
    | match goal with
      | |- forall _, StatesOnly _ => intros ?
      | |- StatesOnly (match ?x with _ => _ end) => destruct x
      end ].
Qed.

Lemma StatesOnly_save : StatesOnly save.
Proof.
  unfold save, createDefaultState, set_statePool, set_stateStack.
  repeat first
    [ apply StatesOnly_ret | apply StatesOnly_raise | apply StatesOnly_gets
    | apply StatesOnly_get_state | apply StatesOnly_copyState
    | apply StatesOnly_alloc_style | apply StatesOnly_modify
    | apply StatesOnly_bind
    | match goal with
      | |- forall _, StatesOnly _ => intros ?
      | |- StatesOnly (match ?x with _ => _ end) => destruct x
      end ].
Qed.

(** [save()] either throws and leaves the stack as it is, or pushes a state
    that carries the values of the top state. *)
Lemma save_spec e s rest :
  stateStack (states e) = s :: rest ->
  (exists x, result save e = Raise x
             /\ stateStack (states (exec save e)) = s :: rest)
  \/ (exists next p,
        result save e = Ret tt
        /\ stateStack (states (exec save e)) = next :: s :: rest
        /\ copiedUpTo s p 7 next).
Proof.
  intros Hs. unfold result, exec.
  destruct (save e) as [r e'] eqn:Hsave. cbn [fst snd].
  unfold save in Hsave.
  erewrite bind_Ret in Hsave by (eapply get_state_ok; exact Hs).
  unfold bind at 1 in Hsave. cbn [gets] in Hsave.
  assert (Hnext : exists p e1,
    match statePool (states e) with
    | [] => createDefaultState
    | p :: pool' => set_statePool pool';;; ret p
    end e = (Ret p, e1) /\ stateStack (states e1) = s :: rest).
  { destruct (statePool (states e)) as [|p pool].
    - eexists _, _. split; [reflexivity | exact Hs].
    - eexists _, _. split; [reflexivity | exact Hs]. }
  destruct Hnext as (p & e1 & Hn & Hs1).
  rewrite (bind_Ret _ _ _ _ _ Hn) in Hsave.
  pose proof (KeepsStack_copyState s p e1) as Hk.
  destruct (copyState s p e1) as [[[[x|] next]|x] e2] eqn:Hcopy;
    cbn [snd] in Hk.
  - rewrite (bind_Ret _ _ _ _ _ Hcopy) in Hsave. cbv beta iota in Hsave.
    injection Hsave as <- <-.
    left. exists x. split; [reflexivity | rewrite Hk; exact Hs1].
  - rewrite (bind_Ret _ _ _ _ _ Hcopy) in Hsave. cbv beta iota in Hsave.
    unfold bind, gets, set_stateStack, modify in Hsave.
    injection Hsave as <- <-.
    right. exists next, p. cbn [states stateStack with_states].
    split; [reflexivity|]. split; [rewrite Hk, Hs1; reflexivity|].
    eapply copyState_copies. exact Hcopy.
  - rewrite (bind_Raise _ _ _ _ _ Hcopy) in Hsave. injection Hsave as <- <-.
    left. exists x. split; [reflexivity | rewrite Hk; exact Hs1].
Qed.

Lemma restore_pop e top below rest :
  stateStack (states e) = top :: below :: rest ->
  restore e
  = if bool_decide (effectiveMode (globalCompositeOperation top)
                    = effectiveMode (globalCompositeOperation below))
    then (Ret tt, popped e)
    else (Ret tt,
          with_gl (fun g =>
            {| gl_log := gl_log g;
               gl_blend := blendFuncFor
                             (effectiveMode (globalCompositeOperation below));
               gl_nextTexture := gl_nextTexture g |})
            (snd (flush (popped e)))).
Proof.
  intros Hs. unfold restore. unfold bind at 1. cbn [gets]. rewrite Hs.
  cbn [length Nat.leb].
  unfold bind at 1, get_globalCompositeOperation.
  erewrite bind_Ret by (eapply get_state_ok; exact Hs). cbn [ret].
  unfold bind at 1. cbn [set_stateStack modify].
  unfold bind at 1. cbn [gets].
  unfold bind at 1. cbn [set_statePool modify].
  match goal with
  | |- context [bind _ _ ?x] =>
      assert (Ex : x = popped e)
        by (unfold popped, with_states; cbn; rewrite Hs; reflexivity);
      rewrite Ex; clear Ex
  end.
  assert (Hp : stateStack (states (popped e)) = below :: rest)
    by (unfold popped; cbn; rewrite Hs; reflexivity).
  unfold bind at 1.
  erewrite bind_Ret by (eapply get_state_ok; exact Hp). cbn [ret].
  fold (effectiveMode (globalCompositeOperation top)).
  fold (effectiveMode (globalCompositeOperation below)).
  destruct (bool_decide _); [reflexivity|].
  rewrite (bind_Ret _ _ _ tt (snd (flush (popped e)))) by apply flush_eta.
  apply (updateBlendMode_spec _ below rest).
  rewrite flush_states. exact Hp.
Qed.

Lemma KeepsMode_ret {A} (a : A) : KeepsMode (ret a).
Proof. intros e s rest H. exists s. repeat split. exact H. Qed.

Lemma KeepsMode_raise {A} x : KeepsMode (@raise A x).
Proof. intros e s rest H. exists s. repeat split. exact H. Qed.

Lemma KeepsMode_bind {A B} (m : M A) (k : A -> M B) :
  KeepsMode m -> (forall a, KeepsMode (k a)) -> KeepsMode (bind m k).
Proof.
  intros Hm Hk e s rest H. unfold bind.
  destruct (Hm e s rest H) as (s1 & H1 & Hg1 & Hgl1).
  destruct (m e) as [[a|x] e1]; cbn [snd] in *.
  - destruct (Hk a e1 s1 rest H1) as (s2 & H2 & Hg2 & Hgl2).
    exists s2. split; [exact H2|]. split; congruence.
  - exists s1. repeat split; assumption.
Qed.

Lemma KeepsMode_get_state : KeepsMode get_state.
Proof.
  intros e s rest H. rewrite (get_state_ok e s rest H).
  exists s. repeat split. exact H.
Qed.

Lemma KeepsMode_update_state f :
  (forall s, globalCompositeOperation (f s) = globalCompositeOperation s) ->
  KeepsMode (update_state f).
Proof.
  intros Hf e s rest H. rewrite (update_state_ok f e s rest H).
  exists (f s). repeat split. apply Hf.
Qed.

Lemma KeepsMode_read_style r : KeepsMode (read_style r).
Proof.
  intros e s rest H. exists s. unfold read_style.
  destruct (_ !! _); repeat split; exact H.
Qed.

Lemma KeepsMode_alloc_style o : KeepsMode (alloc_style o).
Proof. intros e s rest H. exists s. repeat split. exact H. Qed.

Lemma KeepsMode_write_style r o : KeepsMode (write_style r o).
Proof. intros e s rest H. exists s. repeat split. exact H. Qed.

Lemma KeepsMode_style_set r src : KeepsMode (style_set r src).
Proof.
  unfold style_set. apply KeepsMode_bind; [apply KeepsMode_read_style|].
  intros [d|d|g]; try apply KeepsMode_raise.
  destruct (f32_set d src);
    [apply KeepsMode_write_style | apply KeepsMode_raise].
Qed.

Lemma KeepsMode_parseColor math v : KeepsMode (parseColor math v).
Proof.
  destruct v; cbn [parseColor]; try apply KeepsMode_ret.
  - destruct (bool_decide _); apply KeepsMode_ret.
  - apply KeepsMode_bind; [apply KeepsMode_read_style|].
    intros [d|d|g]; apply KeepsMode_ret.
Qed.

Ltac keeps_mode :=
  repeat first
    [ apply KeepsMode_ret | apply KeepsMode_raise
    | apply KeepsMode_get_state | apply KeepsMode_read_style
    | apply KeepsMode_alloc_style | apply KeepsMode_style_set
    | apply KeepsMode_parseColor
    | apply KeepsMode_update_state; intros ?; reflexivity
    | apply KeepsMode_bind
    | match goal with
      | |- forall _, KeepsMode _ => intros ?
      | |- KeepsMode (match ?x with _ => _ end) => destruct x
      | |- KeepsMode (if ?x then _ else _) => destruct x
      end ].

Lemma KeepsMode_set_fillStyle math v : KeepsMode (set_fillStyle_prop math v).
Proof. unfold set_fillStyle_prop. keeps_mode. Qed.

Lemma KeepsMode_set_strokeStyle math v :
  KeepsMode (set_strokeStyle_prop math v).
Proof. unfold set_strokeStyle_prop. keeps_mode. Qed.

Lemma KeepsMode_BlendOK {A} (m : M A) e :
  KeepsMode m -> BlendOK e -> BlendOK (snd (m e)).
Proof.
  intros Hm (s & rest & Hs & Hb).
  destruct (Hm e s rest Hs) as (s' & Hs' & Hg & Hgl).
  exists s', rest. split; [exact Hs'|]. rewrite Hgl, Hg. exact Hb.
Qed.

Lemma Stable_BlendOK : Stable BlendOK.
Proof.
  split.
  - intros e e' Hf (s & rest & Hs & Hb). exists s, rest.
    rewrite (fr_states _ _ Hf), (fr_blend _ _ Hf). split; assumption.
  - intros e (s & rest & Hs & Hb). exists s, rest.
    destruct (Nat.eq_dec (batchCount (batch e)) 0%nat) as [H0|H0].
    + rewrite flush_empty by exact H0. split; assumption.
    + destruct (flush_nonempty e H0)
        as (_ & Hb' & _ & _ & _ & _ & _ & _ & _ & Hs' & _).
      rewrite Hb', Hs'. split; assumption.
  - intros e f H. exact H.
Qed.

Lemma BlendOK_save e : BlendOK e -> BlendOK (exec save e).
Proof.
  intros (s & rest & Hs & Hb).
  assert (Hgl : gl (exec save e) = gl e)
    by (unfold exec; rewrite (StatesOnly_save e); reflexivity).
  destruct (save_spec e s rest Hs)
    as [(x & _ & H)|(next & p & _ & H & Hc)].
  - exists s, rest. rewrite Hgl. split; assumption.
  - exists next, (s :: rest). rewrite Hgl. split; [exact H|].
    destruct Hc as (_ & _ & _ & _ & H7).
    destruct (H7 ltac:(lia)) as (_ & _ & _ & _ & Hg & _).
    rewrite Hg. exact Hb.
Qed.

Lemma BlendOK_restore e : BlendOK e -> BlendOK (exec restore e).
Proof.
  intros (top & rest & Hs & Hb). unfold exec.
  destruct rest as [|below rest].
  - unfold restore. unfold bind at 1. cbn [gets]. rewrite Hs.
    cbn [length Nat.leb ret snd]. exists top, []. split; assumption.
  - rewrite (restore_pop e top below rest Hs).
    destruct (bool_decide _) eqn:E; cbn [snd].
    + apply bool_decide_eq_true in E.
      exists below, rest. unfold popped. cbn. rewrite Hs.
      split; [reflexivity|]. rewrite <- E. exact Hb.
    + exists below, rest. split; [|reflexivity].
      change (stateStack (states (snd (flush (popped e)))) = below :: rest).
      rewrite flush_states. unfold popped. cbn. rewrite Hs. reflexivity.
Qed.

Lemma BlendOK_composite v e :
  BlendOK e -> BlendOK (exec (set_globalCompositeOperation_prop v) e).
Proof.
  intros (s & rest & Hs & Hb). unfold exec.
  destruct (decide (globalCompositeOperation s = v)) as [E|E].
  - unfold set_globalCompositeOperation_prop, bind, get_state.
    rewrite Hs. rewrite bool_decide_true by exact E. cbn [ret snd].
    exists s, rest. split; assumption.
  - rewrite (set_gco_changed e s rest v Hs E). cbn [snd].
    exists (set_globalCompositeOperation v s), rest.
    split; reflexivity.
Qed.

(** X5.  [restore()] with more than the root state on the stack pops the
    top state into the pool and returns.  When the composite mode read
    after the pop differs from the one read before it, the queued quads
    are submitted first, with the blend function that was in force when
    they were queued, the batch is empty afterwards, and the blend function
    becomes the one of the state now on top.  When the two modes agree,
    neither the batch nor the GL context is touched. *)
Theorem restore_mode_change_flushes (e : Blaze2D) (top below : RenderState)
    (rest : list RenderState)
    (Hstack : stateStack (states e) = top :: below :: rest) :
  let e' := exec restore e in
  result restore e = Ret tt /\
  stateStack (states e') = below :: rest /\
  statePool (states e') = top :: statePool (states e) /\
  (effectiveMode (globalCompositeOperation top)
   = effectiveMode (globalCompositeOperation below) ->
   gl e' = gl e /\ batch e' = batch e) /\
  (effectiveMode (globalCompositeOperation top)
   <> effectiveMode (globalCompositeOperation below) ->
   gl_log (gl e')
   = gl_log (gl e)
     ++ (if Nat.eqb (batchCount (batch e)) 0%nat then []
         else [GL_drawElements (pendingDraw e)]) /\
   dc_blend (pendingDraw e) = gl_blend (gl e) /\
   batchCount (batch e') = 0%nat /\
   gl_blend (gl e')
   = blendFuncFor (effectiveMode (globalCompositeOperation below))).
Proof.
  unfold exec, result. rewrite (restore_pop e top below rest Hstack).
  assert (Hp : stateStack (states (popped e)) = below :: rest
               /\ statePool (states (popped e)) = top :: statePool (states e))
    by (unfold popped; cbn; rewrite Hstack; split; reflexivity).
  destruct Hp as [Hp1 Hp2].
  destruct (bool_decide _) eqn:E; cbn [fst snd].
  - apply bool_decide_eq_true in E.
    split; [reflexivity|]. split; [exact Hp1|]. split; [exact Hp2|].
    split; [intros _; split; reflexivity | intros H; contradiction].
  - apply bool_decide_eq_false in E.
    change (states (with_gl ?f ?x)) with (states x).
    change (batch (with_gl ?f ?x)) with (batch x).
    rewrite flush_states.
    split; [reflexivity|]. split; [exact Hp1|]. split; [exact Hp2|].
    split; [intros H; contradiction | intros _].
    change (gl_log (gl (with_gl ?f ?x))) with (gl_log (gl x)).
    change (batchCount (batch e)) with (batchCount (batch (popped e))).
    change (pendingDraw e) with (pendingDraw (popped e)).
    change (gl_log (gl e)) with (gl_log (gl (popped e))).
    split; [|split; [reflexivity|split; [|reflexivity]]].
    + destruct (Nat.eqb (batchCount (batch (popped e))) 0) eqn:E0.
      * apply Nat.eqb_eq in E0. rewrite flush_empty by exact E0.
        cbn [snd]. rewrite app_nil_r. reflexivity.
      * apply Nat.eqb_neq in E0. apply (flush_nonempty _ E0).
    + destruct (Nat.eq_dec (batchCount (batch (popped e))) 0%nat) as [E0|E0].
      * rewrite flush_empty by exact E0. exact E0.
      * apply (flush_nonempty _ E0).
Qed.

Lemma restore_mode_change_flushes_witness :
  stateStack (states (exec restore lighterQuad)) = [demoState] /\
  length (gl_log (gl (exec restore lighterQuad))) = 1%nat /\
  batchCount (batch (exec restore lighterQuad)) = 0%nat /\
  gl_blend (gl (exec restore lighterQuad)) = (GL_ONE, GL_ONE_MINUS_SRC_ALPHA).
Proof.
  assert (Hst : stateStack (states lighterQuad)
                = [set_globalCompositeOperation "lighter"
                     (set_fillStyleRGBA 1%nat demoState); demoState])
    by (vm_compute; reflexivity).
  pose proof (restore_mode_change_flushes lighterQuad _ _ _ Hst)
    as (_ & Hs & _ & _ & H).
  assert (Hne : effectiveMode (globalCompositeOperation
                  (set_globalCompositeOperation "lighter"
                     (set_fillStyleRGBA 1%nat demoState)))
                <> effectiveMode (globalCompositeOperation demoState))
    by (vm_compute; discriminate).
  destruct (H Hne) as (Hlog & _ & Hb & Hbl).
  split; [exact Hs|]. split; [rewrite Hlog; vm_compute; reflexivity|].
  split; [exact Hb | exact Hbl].
Defined.

(** X6.  The blend function follows the composite mode.  If the blend
    function of the GL context is the one [_updateBlendMode] selects for the
    composite mode of the top state, it still is after any sequence of
    [save], [restore], assignments to [globalCompositeOperation],
    [fillStyle], [strokeStyle] and [globalAlpha], the transform calls, the
    enqueue calls and [flush], whatever each of them returns. *)
Theorem blend_follows_composite_mode (math : MathLib) (cs : list ApiCall)
    (e : Blaze2D) (H : BlendOK e) :
  BlendOK (runApiCalls math cs e).
Proof.
  unfold runApiCalls. revert e H.
  induction cs as [|c cs IH]; intros e H; cbn [foldl]; [exact H|].
  apply IH. unfold exec. destruct c; cbn [runApiCall].
  - apply BlendOK_save, H.
  - apply BlendOK_restore, H.
  - apply BlendOK_composite, H.
  - apply KeepsMode_BlendOK; [apply KeepsMode_set_fillStyle | exact H].
  - apply KeepsMode_BlendOK; [apply KeepsMode_set_strokeStyle | exact H].
  - apply KeepsMode_BlendOK; [|exact H].
    apply KeepsMode_update_state. intros ?; reflexivity.
  - apply KeepsMode_BlendOK; [|exact H].
    apply KeepsMode_update_state. intros ?; reflexivity.
  - apply KeepsMode_BlendOK; [|exact H].
    apply KeepsMode_update_state. intros ?; reflexivity.
  - apply KeepsMode_BlendOK; [|exact H].
    apply KeepsMode_update_state. intros ?; reflexivity.
  - apply KeepsMode_BlendOK; [|exact H].
    apply KeepsMode_update_state. intros ?; reflexivity.
  - apply (Stable_runOp BlendOK Stable_BlendOK math op e H).
  - apply (st_flush _ Stable_BlendOK e H).
Qed.

Lemma blend_follows_composite_mode_witness :
  BlendOK demoEngine /\
  BlendOK (runApiCalls approxMath
             [ApiSave; ApiComposite "lighter";
              ApiEnqueue (OpDrawRect 0 0 10 10 WHITE_RGBA 1);
              ApiRestore; ApiFlush] demoEngine).
Proof.
  assert (H0 : BlendOK demoEngine)
    by (exists demoState, []; split; reflexivity).
  split; [exact H0|].
  apply (blend_follows_composite_mode approxMath _ demoEngine H0).
Defined.
